(** * The service supervisor daemon ([services/service_daemon.py])

    A shallow embedding of the lease registry, the idle reaper, the ensure
    pipeline, the health probes and the HTTP control plane, followed by the
    properties of the natural-language specification.

    Conventions of the embedding.
    - Monotonic timestamps ([time.monotonic()]) are integers in milliseconds;
      the configured durations are given in the same unit.
    - A [with STATE.lock:] block is one atomic function on [DaemonState].
    - Calls that leave the process (clock, sockets, subprocesses, files) are
      [io] requests answered by the environment; theorems quantify over every
      environment.
    - A clock reading used inside a locked block is requested just before the
      block; the threads of the daemon interleave at every request and every
      block.
    - Opening a file of the log directory for appending ([_log], the log
      handed to a child process or to [subprocess.run]) is taken to succeed,
      and so are building a [urllib.request.Request] and reading
      [Content-Length] as an integer.
    - A polling loop runs as many turns as the environment says the deadline
      allows. *)

From Stdlib Require Import ZArith QArith Qminmax String Ascii List DecimalString DecimalZ Lia Lqa.
From stdpp Require Import gmap strings list.

Open Scope Z_scope.

(** ** Python values *)

(** A value found inside a JSON body.  The daemon only applies [or], [str()],
    [is True] and [.strip()] to such values, so numbers with a fraction, lists
    and nested objects are kept by what these operations see of them: their
    truthiness and their [str()] rendering. *)
Inductive pyval : Type :=
| PNone
| PBool (b : bool)
| PInt (z : Z)
| PStr (s : string)
| POpaque (truthy : bool) (rendering : string).

(** [dict[str, Any]] as decoded by [json.loads]. *)
Definition dict : Type := list (string * pyval).

(** A decoded JSON document: an object, or any other JSON value. *)
Inductive json : Type :=
| JDict (d : dict)
| JOther (v : pyval).

Fixpoint dict_get (key : string) (d : dict) : option pyval :=
  match d with
  | [] => None
  | (k, v) :: d' => if String.eqb k key then Some v else dict_get key d'
  end.

(** [key in d] *)
Definition dict_contains (key : string) (d : dict) : bool :=
  match dict_get key d with Some _ => true | None => false end.

Definition newline : string := String (ascii_of_nat 10) EmptyString.

(** [str(int)] *)
Definition py_str_int (z : Z) : string := NilZero.string_of_int (Z.to_int z).

(** [bool(v)] *)
Definition py_truthy (v : pyval) : bool :=
  match v with
  | PNone => false
  | PBool b => b
  | PInt z => negb (z =? 0)
  | PStr s => negb (String.eqb s EmptyString)
  | POpaque t _ => t
  end.

(** [str(v)] *)
Definition py_str (v : pyval) : string :=
  match v with
  | PNone => "None"
  | PBool true => "True"
  | PBool false => "False"
  | PInt z => py_str_int z
  | PStr s => s
  | POpaque _ r => r
  end.

(** [bool(j)] for a whole document; an object is falsy when it is empty. *)
Definition json_truthy (j : json) : bool :=
  match j with
  | JDict [] => false
  | JDict _ => true
  | JOther v => py_truthy v
  end.

(** [str(v or [empty string])] for the result [v] of a [dict.get] *)
Definition str_or_empty (v : option pyval) : string :=
  match v with
  | Some x => if py_truthy x then py_str x else EmptyString
  | None => EmptyString
  end.

(** ASCII white space as removed by [str.strip()]. *)
Definition is_space (c : ascii) : bool :=
  let n := nat_of_ascii c in
  ((9 <=? n) && (n <=? 13) || (28 <=? n) && (n <=? 32))%nat.

Fixpoint lstrip (s : string) : string :=
  match s with
  | String c s' => if is_space c then lstrip s' else s
  | EmptyString => EmptyString
  end.

Fixpoint rstrip (s : string) : string :=
  match s with
  | String c s' =>
      match rstrip s' with
      | EmptyString => if is_space c then EmptyString else String c EmptyString
      | r => String c r
      end
  | EmptyString => EmptyString
  end.

(** [s.strip()] *)
Definition strip (s : string) : string := rstrip (lstrip s).

(** ** Configuration (module-level constants read from the environment) *)

Record Config : Type := {
  IDLE_TIMEOUT_S : Z;
  LEASE_TTL_S : Z;
  DEFAULT_HEARTBEAT_S : Z;
  STT_HEALTH_URL : string;
  STT_READY_TIMEOUT_S : Z;
  KOKORO_HOST : string;
  KOKORO_PORT : Z;
  KOKORO_VOICES_URL : string;
  KOKORO_READY_TIMEOUT_S : Z;
  KOKORO_COMPOSE_FILE : string;
  OLLAMA_API_BASE : string;
  OLLAMA_VERSION_URL : string;
  OLLAMA_GENERATE_URL : string;
  OLLAMA_CMD : string;
  OLLAMA_MANAGE_SERVER : bool;
  OLLAMA_MANAGE_MODEL_UNLOAD : bool;
  OLLAMA_READY_TIMEOUT_S : Z;
  OLLAMA_WARM_TIMEOUT_S : Z;
  OLLAMA_KEEP_ALIVE : string;
  LOG_DIR : string;
  STT_LOG : string;
  OLLAMA_LOG : string;
  DOCKER_LOG : string;
  PYTHON_EXE : string;
  STT_SCRIPT : string
}.

(** The defaults of the source, durations in milliseconds. *)
Definition default_config : Config := {|
  IDLE_TIMEOUT_S := 25000;
  LEASE_TTL_S := 15000;
  DEFAULT_HEARTBEAT_S := 5000;
  STT_HEALTH_URL := "http://127.0.0.1:8001/health";
  STT_READY_TIMEOUT_S := 90000;
  KOKORO_HOST := "127.0.0.1";
  KOKORO_PORT := 8880;
  KOKORO_VOICES_URL := "http://127.0.0.1:8880/v1/audio/voices";
  KOKORO_READY_TIMEOUT_S := 120000;
  KOKORO_COMPOSE_FILE := "services/kokoro.compose.yml";
  OLLAMA_API_BASE := "http://127.0.0.1:11434/api";
  OLLAMA_VERSION_URL := "http://127.0.0.1:11434/api/version";
  OLLAMA_GENERATE_URL := "http://127.0.0.1:11434/api/generate";
  OLLAMA_CMD := "ollama";
  OLLAMA_MANAGE_SERVER := true;
  OLLAMA_MANAGE_MODEL_UNLOAD := true;
  OLLAMA_READY_TIMEOUT_S := 30000;
  OLLAMA_WARM_TIMEOUT_S := 180000;
  OLLAMA_KEEP_ALIVE := "5m";
  LOG_DIR := ".daemon";
  STT_LOG := ".daemon/stt.log";
  OLLAMA_LOG := ".daemon/ollama.log";
  DOCKER_LOG := ".daemon/docker.log";
  PYTHON_EXE := "python";
  STT_SCRIPT := "services/local_stt_server.py"
|}.

(** ** State *)

(** A child process handle ([subprocess.Popen]), identified by its pid. *)
Definition proc : Type := Z.

Record Lease : Type := mkLease {
  lease_id : string;
  last_seen : Z;
  meta : json
}.

Record DaemonState : Type := mkState {
  ensuring : bool;
  stage : string;
  last_error : option string;
  leases : gmap string Lease;
  last_zero_lease_time : Z;
  stt_proc : option proc;
  ollama_proc : option proc;
  ollama_managed : bool;
  warm_model : option string;
  warm_done : bool;
  shutdown_flag : bool
}.

(** [DaemonState.__init__], with the clock reading it takes. *)
Definition DaemonState_init (now : Z) : DaemonState := {|
  ensuring := false;
  stage := "idle";
  last_error := None;
  leases := ∅;
  last_zero_lease_time := now;
  stt_proc := None;
  ollama_proc := None;
  ollama_managed := false;
  warm_model := None;
  warm_done := false;
  shutdown_flag := false
|}.

Definition with_ensuring (b : bool) (s : DaemonState) : DaemonState :=
  mkState b (stage s) (last_error s) (leases s) (last_zero_lease_time s)
    (stt_proc s) (ollama_proc s) (ollama_managed s) (warm_model s) (warm_done s)
    (shutdown_flag s).

Definition with_stage (x : string) (s : DaemonState) : DaemonState :=
  mkState (ensuring s) x (last_error s) (leases s) (last_zero_lease_time s)
    (stt_proc s) (ollama_proc s) (ollama_managed s) (warm_model s) (warm_done s)
    (shutdown_flag s).

Definition with_last_error (x : option string) (s : DaemonState) : DaemonState :=
  mkState (ensuring s) (stage s) x (leases s) (last_zero_lease_time s)
    (stt_proc s) (ollama_proc s) (ollama_managed s) (warm_model s) (warm_done s)
    (shutdown_flag s).

Definition with_leases (x : gmap string Lease) (s : DaemonState) : DaemonState :=
  mkState (ensuring s) (stage s) (last_error s) x (last_zero_lease_time s)
    (stt_proc s) (ollama_proc s) (ollama_managed s) (warm_model s) (warm_done s)
    (shutdown_flag s).

Definition with_last_zero_lease_time (x : Z) (s : DaemonState) : DaemonState :=
  mkState (ensuring s) (stage s) (last_error s) (leases s) x
    (stt_proc s) (ollama_proc s) (ollama_managed s) (warm_model s) (warm_done s)
    (shutdown_flag s).

Definition with_stt_proc (x : option proc) (s : DaemonState) : DaemonState :=
  mkState (ensuring s) (stage s) (last_error s) (leases s) (last_zero_lease_time s)
    x (ollama_proc s) (ollama_managed s) (warm_model s) (warm_done s)
    (shutdown_flag s).

Definition with_ollama_proc (x : option proc) (s : DaemonState) : DaemonState :=
  mkState (ensuring s) (stage s) (last_error s) (leases s) (last_zero_lease_time s)
    (stt_proc s) x (ollama_managed s) (warm_model s) (warm_done s)
    (shutdown_flag s).

Definition with_ollama_managed (x : bool) (s : DaemonState) : DaemonState :=
  mkState (ensuring s) (stage s) (last_error s) (leases s) (last_zero_lease_time s)
    (stt_proc s) (ollama_proc s) x (warm_model s) (warm_done s)
    (shutdown_flag s).

Definition with_warm_model (x : option string) (s : DaemonState) : DaemonState :=
  mkState (ensuring s) (stage s) (last_error s) (leases s) (last_zero_lease_time s)
    (stt_proc s) (ollama_proc s) (ollama_managed s) x (warm_done s)
    (shutdown_flag s).

Definition with_warm_done (x : bool) (s : DaemonState) : DaemonState :=
  mkState (ensuring s) (stage s) (last_error s) (leases s) (last_zero_lease_time s)
    (stt_proc s) (ollama_proc s) (ollama_managed s) (warm_model s) x
    (shutdown_flag s).

Definition with_shutdown_flag (x : bool) (s : DaemonState) : DaemonState :=
  mkState (ensuring s) (stage s) (last_error s) (leases s) (last_zero_lease_time s)
    (stt_proc s) (ollama_proc s) (ollama_managed s) (warm_model s) (warm_done s)
    x.

(** ** Lease registry: the bodies of the [with STATE.lock:] blocks *)

(** [f"l{int(time.time()*1000)}_{os.getpid()}_{threading.get_ident()}"] *)
Definition make_lease_id (wall_ms pid ident : Z) : string :=
  "l" +:+ py_str_int wall_ms +:+ "_" +:+ py_str_int pid +:+ "_" +:+ py_str_int ident.

(** [/lease/acquire]: [STATE.leases[lease_id] = Lease(...)], then
    [STATE.last_zero_lease_time = _now()].  [meta or {}] replaces a falsy
    body by the empty object. *)
Definition acquire_locked (id : string) (body : json) (now_seen now_zero : Z)
    (s : DaemonState) : DaemonState :=
  let m := if json_truthy body then body else JDict [] in
  with_last_zero_lease_time now_zero
    (with_leases (<[id := mkLease id now_seen m]> (leases s)) s).

(** [/lease/heartbeat]: [l = STATE.leases.get(lease_id)]; an unknown id leaves
    the block without a write, a known one gets [l.last_seen = _now()]. *)
Definition heartbeat_locked (id : string) (now : Z) (s : DaemonState)
    : bool * DaemonState :=
  match leases s !! id with
  | None => (false, s)
  | Some l =>
      (true, with_leases (<[id := mkLease (lease_id l) now (meta l)]> (leases s)) s)
  end.

(** [/lease/release]: [STATE.leases.pop(lease_id, None)], then the zero-lease
    stamp when the map is empty. *)
Definition release_locked (id : string) (now : Z) (s : DaemonState) : DaemonState :=
  let s1 := with_leases (delete id (leases s)) s in
  if decide (size (leases s1) = 0%nat) then with_last_zero_lease_time now s1 else s1.

(** ** Idle reaper: the locked part of one iteration *)

Section Reaper.
Context (cfg : Config).

(** [now - v.last_seen > LEASE_TTL_S] *)
Definition is_stale (now : Z) (l : Lease) : bool :=
  LEASE_TTL_S cfg <? now - last_seen l.

(** The dictionary after [for k in stale: STATE.leases.pop(k, None)]. *)
Definition expire (now : Z) (m : gmap string Lease) : gmap string Lease :=
  filter (fun kv => is_stale now kv.2 = false) m.

(** One pass through the locked block of [_reaper_thread]; the result carries
    [do_shutdown] and the snapshot of [warm_model]. *)
Definition reaper_locked (now : Z) (s : DaemonState)
    : (bool * option string) * DaemonState :=
  let s1 := with_leases (expire now (leases s)) s in
  if decide (size (leases s1) = 0%nat)
  then ((IDLE_TIMEOUT_S cfg <=? now - last_zero_lease_time s1, warm_model s1), s1)
  else ((false, warm_model s1), with_last_zero_lease_time now s1).

(** The locked block that closes a teardown. *)
Definition teardown_done_locked (now : Z) (s : DaemonState) : DaemonState :=
  with_warm_done false (with_stage "idle" (with_last_zero_lease_time now s)).

End Reaper.

(** ** Exceptions, calls to the outside, and daemon code as programs *)

(** Python exceptions as the daemon distinguishes them: [urllib]'s
    [HTTPError] (with its status code and what [e.read()] gives, [None] when
    reading raises) and every other [Exception], kept by its [str(e)]. *)
Inductive exn : Type :=
| HTTPError (code : Z) (msg : string) (payload : option (list Byte.byte))
| Exception (msg : string).

Definition str_exn (e : exn) : string :=
  match e with
  | HTTPError _ msg _ => msg
  | Exception msg => msg
  end.

(** What [urlopen] hands back: the status and the outcome of [r.read()]. *)
Record http_response : Type := mkResponse {
  status : Z;
  payload : option (list Byte.byte)
}.

(** JSON documents the daemon writes (responses and request payloads). *)
#[local] Unset Elimination Schemes.
Inductive jv : Type :=
| VNull
| VBool (b : bool)
| VInt (z : Z)
| VMillis (ms : Z)
| VStr (s : string)
| VObj (fields : list (string * jv)).
#[local] Set Elimination Schemes.

Definition jv_of_option_string (o : option string) : jv :=
  match o with Some s => VStr s | None => VNull end.

(** Requests to the environment, indexed by the type of the answer.  A call
    that may raise answers [inl e]. *)
Inductive io : Type -> Type :=
| Now : io Z
| WallClockMs : io Z
| GetPid : io Z
| GetIdent : io Z
| Sleep (seconds : Q) : io unit
| BeforeDeadline (timeout : Z) : io nat
| Urlopen (method url : string) (body : option jv) (timeout : Z)
    : io (exn + http_response)
| CreateConnection (host : string) (port : Z) (timeout : Z) : io (exn + unit)
| Which (name : string) : io (option string)
| Popen (cmd : list string) (stdout_path stderr_path : string) : io (exn + proc)
| Poll (p : proc) : io (option Z)
| Terminate (p : proc) : io (exn + unit)
| Wait (p : proc) (timeout : Z) : io (exn + unit)
| Kill (p : proc) : io (exn + unit)
| SubprocessRun (cmd : list string) (log_path : string) (timeout : Z) : io (exn + Z)
| Tail (path : string) : io string
| Log (msg : string) : io unit
| SendResponse (code : Z) (obj : jv) : io unit
| StartThread (model : option string) : io unit.

(** Daemon code: a tree of atomic accesses to [STATE] and of calls to the
    environment, ending in a value or in an exception. *)
Inductive prog (A : Type) : Type :=
| Ret (a : A)
| Throw (e : exn)
| Atomic {B : Type} (f : DaemonState -> B * DaemonState) (k : B -> prog A)
| Call {B : Type} (q : io B) (k : B -> prog A).

Arguments Ret {A} a.
Arguments Throw {A} e.
Arguments Atomic {A B} f k.
Arguments Call {A B} q k.

Fixpoint bind {A B : Type} (p : prog A) (k : A -> prog B) : prog B :=
  match p with
  | Ret a => k a
  | Throw e => Throw e
  | Atomic f k' => Atomic f (fun b => bind (k' b) k)
  | Call q k' => Call q (fun b => bind (k' b) k)
  end.

Declare Scope prog_scope.
Delimit Scope prog_scope with prog.
Bind Scope prog_scope with prog.
Notation "x ← y ; z" := (bind y (fun x => z))
  (at level 20, y at level 100, z at level 200, only parsing) : prog_scope.
Notation "' x ← y ; z" := (bind y (fun x => z))
  (at level 20, x pattern, y at level 100, z at level 200, only parsing) : prog_scope.
Notation "x ;; z" := (bind x (fun _ => z))
  (at level 100, z at level 200, only parsing, right associativity) : prog_scope.
Open Scope prog_scope.

(** [try: p / except Exception as e: h e] *)
Fixpoint try_except {A : Type} (p : prog A) (h : exn -> prog A) : prog A :=
  match p with
  | Ret a => Ret a
  | Throw e => h e
  | Atomic f k => Atomic f (fun b => try_except (k b) h)
  | Call q k => Call q (fun b => try_except (k b) h)
  end.

(** [try: p / finally: fin] *)
Definition try_finally {A : Type} (p : prog A) (fin : prog unit) : prog A :=
  a ← try_except p (fun e => fin;; Throw e); fin;; Ret a.

(** One atomic access to [STATE]. *)
Definition atomic {B : Type} (f : DaemonState -> B * DaemonState) : prog B :=
  Atomic f Ret.
Definition modify (f : DaemonState -> DaemonState) : prog unit :=
  atomic (fun s => (tt, f s)).
Definition read {B : Type} (f : DaemonState -> B) : prog B :=
  atomic (fun s => (f s, s)).

Definition call {B : Type} (q : io B) : prog B := Call q Ret.

(** A library call that raises when the environment answers [inl e]. *)
Definition call_raising {B : Type} (q : io (exn + B)) : prog B :=
  r ← call q; match r with inl e => Throw e | inr b => Ret b end.

(** What a run leaves behind, in order: the calls with their answers and the
    state after each atomic access. *)
Inductive event : Type :=
| Called {B : Type} (q : io B) (answer : B)
| Wrote (s : DaemonState).

Record run (A W : Type) : Type := mkRun {
  outcome : exn + A;
  final : DaemonState;
  world : W;
  events : list event
}.
Arguments mkRun {A W}.
Arguments outcome {A W}.
Arguments final {A W}.
Arguments world {A W}.
Arguments events {A W}.

(** Running a program alone against an environment [env] with its own state. *)
Section Exec.
Context {W : Type} (env : forall B : Type, io B -> W -> B * W).

Fixpoint exec {A : Type} (p : prog A) (s : DaemonState) (w : W) : run A W :=
  match p with
  | Ret a => mkRun (inr a) s w []
  | Throw e => mkRun (inl e) s w []
  | Atomic f k =>
      let '(b, s') := f s in
      let r := exec (k b) s' w in
      mkRun (outcome r) (final r) (world r) (Wrote s' :: events r)
  | Call q k =>
      let '(b, w') := env _ q w in
      let r := exec (k b) s w' in
      mkRun (outcome r) (final r) (world r) (Called q b :: events r)
  end.

End Exec.

(** ** The daemon *)

(** Builtins of the Python runtime that the daemon calls and whose result
    only travels through it: the JSON decoder ([None] when it raises) and the
    renderings used inside messages ([repr] of a decoded body, [repr] of a
    command line, [str] of a duration held as a float of seconds). *)
Record Python : Type := {
  json_loads : list Byte.byte -> option json;
  repr_body : option json -> string;
  repr_cmd : list string -> string;
  str_seconds : Z -> string
}.

(** An incoming request: the path, the [Content-Length] header as an integer
    ([0] when absent) and the bytes available on [rfile]. *)
Record request : Type := mkRequest {
  path : string;
  content_length : Z;
  rfile : list Byte.byte
}.

(** Truthiness of a [str | None]. *)
Definition truthy_str (o : option string) : bool :=
  match o with
  | Some s => negb (String.eqb s EmptyString)
  | None => false
  end.

Section Daemon.
Context (cfg : Config) (py : Python).

(** *** Small utilities *)

Definition _now : prog Z := call Now.

Definition _log (msg : string) : prog unit := call (Log msg).

Definition _tail (log_path : string) : prog string := call (Tail log_path).

Definition _popen_hidden (cmd : list string) (stdout_path stderr_path : string)
    : prog proc :=
  call_raising (Popen cmd stdout_path stderr_path).

(** [r.read()] and [e.read()] *)
Definition read_payload (p : option (list Byte.byte)) : prog (list Byte.byte) :=
  match p with
  | Some raw => Ret raw
  | None => Throw (Exception "read failed")
  end.

(** [json.loads(raw.decode("utf-8", errors="ignore"))] *)
Definition loads (raw : list Byte.byte) : prog json :=
  match json_loads py raw with
  | Some j => Ret j
  | None => Throw (Exception "JSONDecodeError")
  end.

Definition is_empty_bytes (raw : list Byte.byte) : bool :=
  match raw with [] => true | _ => false end.

Definition _http_json (method url : string) (body : option jv) (timeout : Z)
    : prog (Z * option json) :=
  try_except
    (r ← call_raising (Urlopen method url body timeout);
     raw ← read_payload (payload r);
     if is_empty_bytes raw then Ret (status r, None)
     else
       try_except (j ← loads raw; Ret (status r, Some j))
                  (fun _ => Ret (status r, None)))
    (fun e =>
       match e with
       | HTTPError code _ pl =>
           try_except
             (raw ← read_payload pl;
              if negb (is_empty_bytes raw)
              then try_except (j ← loads raw; Ret (code, Some j))
                              (fun _ => Ret (code, None))
              else Ret (code, None))
             (fun _ => Ret (code, None))
       | Exception _ => Ret (0, None)
       end).

Definition _tcp_port_open (host : string) (port timeout : Z) : prog bool :=
  try_except (call_raising (CreateConnection host port timeout);; Ret true)
             (fun _ => Ret false).

Fixpoint wait_loop (check_fn : prog bool) (n : nat) (step_s : Q) : prog bool :=
  match n with
  | O => Ret false
  | S n' =>
      ok ← check_fn;
      if ok then Ret true
      else call (Sleep step_s);; wait_loop check_fn n' (Qmin (step_s * 1.25) 0.8)%Q
  end.

(** [_wait_ready]: the environment tells how often [_now() < deadline] holds
    before the monotonic clock passes the deadline. *)
Definition _wait_ready (check_fn : prog bool) (timeout_s : Z) : prog bool :=
  n ← call (BeforeDeadline timeout_s); wait_loop check_fn n 0.15%Q.

Definition _run_cmd (cmd : list string) (log_path : string) (timeout_s : Z)
    : prog Z :=
  try_except (call_raising (SubprocessRun cmd log_path timeout_s))
    (fun e =>
       _log ("cmd failed: " +:+ repr_cmd py cmd +:+ " err=" +:+ str_exn e);;
       Ret 999).

Definition _docker_compose_cmd : prog (option (list string)) :=
  d ← call (Which "docker");
  match d with
  | Some _ => Ret (Some ["docker"; "compose"]%string)
  | None =>
      d' ← call (Which "docker-compose");
      match d' with
      | Some _ => Ret (Some ["docker-compose"]%string)
      | None => Ret None
      end
  end.

(** *** Service checks *)

Definition body_is_ok (body : option json) : bool :=
  match body with
  | Some (JDict d) =>
      match dict_get "ok" d with Some (PBool true) => true | _ => false end
  | _ => false
  end.

Definition body_has (key : string) (body : option json) : bool :=
  match body with
  | Some (JDict d) => dict_contains key d
  | _ => false
  end.

Definition _stt_running : prog bool :=
  '(code, body) ← _http_json "GET" (STT_HEALTH_URL cfg) None 600;
  Ret ((code =? 200) && body_is_ok body).

Definition _kokoro_running : prog bool :=
  open ← _tcp_port_open (KOKORO_HOST cfg) (KOKORO_PORT cfg) 250;
  if negb open then Ret false
  else
    '(code, body) ← _http_json "GET" (KOKORO_VOICES_URL cfg) None 800;
    Ret ((code =? 200) && body_has "voices" body).

Definition _ollama_running : prog bool :=
  '(code, body) ← _http_json "GET" (OLLAMA_VERSION_URL cfg) None 600;
  Ret ((code =? 200) && body_has "version" body).

(** *** [DaemonState.set_stage] and [DaemonState.set_error] *)

Definition set_stage (x : string) : prog unit := modify (with_stage x).

Definition set_error (err : option string) : prog unit := modify (with_last_error err).

(** Calling a method on an attribute that another thread has reset to [None]
    in the meantime. *)
Definition attribute_error {A : Type} (name : string) : prog A :=
  Throw (Exception ("'NoneType' object has no attribute '" +:+ name +:+ "'")).

(** *** Ensure, start, stop *)

Fixpoint stt_ready_loop (n : nat) : prog unit :=
  match n with
  | O =>
      t ← _tail (STT_LOG cfg);
      Throw (Exception ("STT not ready after "
                         +:+ str_seconds py (STT_READY_TIMEOUT_S cfg) +:+ "s" +:+ newline +:+ t))
  | S n' =>
      up ← _stt_running;
      if up then Ret tt
      else
        p ← read stt_proc;
        match p with
        | Some h =>
            rc ← call (Poll h);
            match rc with
            | Some c =>
                t ← _tail (STT_LOG cfg);
                Throw (Exception ("STT exited early rc=" +:+ py_str_int c +:+ newline +:+ t))
            | None => Ret tt
            end
        | None => Ret tt
        end;;
        call (Sleep 0.2%Q);;
        stt_ready_loop n'
  end.

Definition _ensure_stt : prog unit :=
  up ← _stt_running;
  if up then Ret tt
  else
    (* if STATE.stt_proc and STATE.stt_proc.poll() is not None *)
    p0 ← read stt_proc;
    match p0 with
    | Some _ =>
        p0' ← read stt_proc;
        match p0' with
        | Some h =>
            rc ← call (Poll h);
            match rc with
            | Some _ => modify (with_stt_proc None)
            | None => Ret tt
            end
        | None => attribute_error "poll"
        end
    | None => Ret tt
    end;;
    p1 ← read stt_proc;
    match p1 with
    | None =>
        h ← _popen_hidden [PYTHON_EXE cfg; STT_SCRIPT cfg] (STT_LOG cfg) (STT_LOG cfg);
        modify (with_stt_proc (Some h));;
        p2 ← read stt_proc;
        match p2 with
        | Some h' => _log ("started STT pid=" +:+ py_str_int h')
        | None => attribute_error "pid"
        end
    | Some _ => Ret tt
    end;;
    n ← call (BeforeDeadline (STT_READY_TIMEOUT_S cfg));
    stt_ready_loop n.

Definition _ensure_kokoro : prog unit :=
  up ← _kokoro_running;
  if up then Ret tt
  else
    dc ← _docker_compose_cmd;
    match dc with
    | None => Throw (Exception "docker not found (required for Kokoro compose)")
    | Some dc =>
        rc ← _run_cmd (dc ++ ["-f"; KOKORO_COMPOSE_FILE cfg; "up"; "-d"]%string)
                      (DOCKER_LOG cfg) 90000;
        if negb (rc =? 0)
        then
          t ← _tail (DOCKER_LOG cfg);
          Throw (Exception ("docker compose up failed rc=" +:+ py_str_int rc +:+ newline +:+ t))
        else
          ok ← _wait_ready _kokoro_running (KOKORO_READY_TIMEOUT_S cfg);
          if negb ok
          then
            t ← _tail (DOCKER_LOG cfg);
            Throw (Exception ("Kokoro not ready after "
                               +:+ str_seconds py (KOKORO_READY_TIMEOUT_S cfg)
                               +:+ "s" +:+ newline +:+ t))
          else Ret tt
    end.

Definition _ensure_ollama_server : prog unit :=
  up ← _ollama_running;
  if up then Ret tt
  else if negb (OLLAMA_MANAGE_SERVER cfg)
  then Throw (Exception "Ollama is not running and OLLAMA_MANAGE_SERVER=0")
  else
    (* if STATE.ollama_proc and STATE.ollama_proc.poll() is not None *)
    p0 ← read ollama_proc;
    match p0 with
    | Some _ =>
        p0' ← read ollama_proc;
        match p0' with
        | Some h =>
            rc ← call (Poll h);
            match rc with
            | Some _ =>
                modify (with_ollama_proc None);;
                modify (with_ollama_managed false)
            | None => Ret tt
            end
        | None => attribute_error "poll"
        end
    | None => Ret tt
    end;;
    p1 ← read ollama_proc;
    match p1 with
    | None =>
        w ← call (Which (OLLAMA_CMD cfg));
        let exe := match w with Some found => found | None => OLLAMA_CMD cfg end in
        h ← _popen_hidden [exe; "serve"]%string (OLLAMA_LOG cfg) (OLLAMA_LOG cfg);
        modify (with_ollama_proc (Some h));;
        modify (with_ollama_managed true);;
        p2 ← read ollama_proc;
        match p2 with
        | Some h' => _log ("started Ollama pid=" +:+ py_str_int h')
        | None => attribute_error "pid"
        end
    | Some _ => Ret tt
    end;;
    ok ← _wait_ready _ollama_running (OLLAMA_READY_TIMEOUT_S cfg);
    if negb ok
    then
      t ← _tail (OLLAMA_LOG cfg);
      Throw (Exception ("Ollama not ready after "
                         +:+ str_seconds py (OLLAMA_READY_TIMEOUT_S cfg)
                         +:+ "s" +:+ newline +:+ t))
    else Ret tt.

Definition generate_payload (model : string) (keep_alive : jv) : jv :=
  VObj [("model", VStr model); ("prompt", VStr EmptyString); ("stream", VBool false);
        ("keep_alive", keep_alive)]%string.

Definition _ollama_warm (model : string) : prog unit :=
  '(code, body) ← _http_json "POST" (OLLAMA_GENERATE_URL cfg)
      (Some (generate_payload model (VStr (OLLAMA_KEEP_ALIVE cfg))))
      (OLLAMA_WARM_TIMEOUT_S cfg);
  if negb (code =? 200)
  then Throw (Exception ("ollama warm failed code=" +:+ py_str_int code
                          +:+ " body=" +:+ repr_body py body))
  else Ret tt.

Definition _ollama_unload (model : string) : prog unit :=
  if negb (OLLAMA_MANAGE_MODEL_UNLOAD cfg) then Ret tt
  else
    _http_json "POST" (OLLAMA_GENERATE_URL cfg)
      (Some (generate_payload model (VInt 0))) 15000;;
    Ret tt.

(** [p.terminate(); p.wait(timeout=4)], falling back to [p.kill()]. *)
Definition stop_process (p : proc) : prog unit :=
  try_except
    (call_raising (Terminate p);; call_raising (Wait p 4000))
    (fun _ => try_except (call_raising (Kill p)) (fun _ => Ret tt)).

Definition _stop_stt : prog unit :=
  p ← read stt_proc;
  modify (with_stt_proc None);;
  match p with
  | None => Ret tt
  | Some h => stop_process h;; _log "stopped STT"
  end.

Definition _stop_kokoro : prog unit :=
  dc ← _docker_compose_cmd;
  match dc with
  | None => Ret tt
  | Some dc =>
      _run_cmd (dc ++ ["-f"; KOKORO_COMPOSE_FILE cfg; "stop"]%string)
               (DOCKER_LOG cfg) 45000;;
      _log "stopped Kokoro"
  end.

Definition _stop_ollama : prog unit :=
  managed ← read ollama_managed;
  if negb managed then Ret tt
  else
    p ← read ollama_proc;
    modify (with_ollama_proc None);;
    modify (with_ollama_managed false);;
    match p with
    | None => Ret tt
    | Some h => stop_process h;; _log "stopped Ollama (managed)"
    end.

Definition _ensure_all (model : option string) : prog unit :=
  set_stage "ensure:ollama_server";;
  _ensure_ollama_server;;
  set_stage "ensure:stt";;
  _ensure_stt;;
  set_stage "ensure:kokoro";;
  _ensure_kokoro;;
  modify (fun s => with_warm_done false (with_warm_model model s));;
  (if truthy_str model
   then
     set_stage "ensure:ollama_warm";;
     _ollama_warm (default EmptyString model);;
     modify (with_warm_done true)
   else Ret tt);;
  set_stage "ready".

(** *** Reaper *)

(** The body of the [try] of an idle shutdown. *)
Definition idle_teardown (warm : option string) : prog unit :=
  (if truthy_str warm then _ollama_unload (default EmptyString warm) else Ret tt);;
  _stop_stt;;
  _stop_kokoro;;
  _stop_ollama.

(** One turn of the loop of [_reaper_thread]. *)
Definition reaper_iteration : prog unit :=
  call (Sleep 0.5%Q);;
  now ← _now;
  '(do_shutdown, warm) ← atomic (reaper_locked cfg now);
  if (do_shutdown : bool)
  then
    try_except (idle_teardown warm)
               (fun e => _log ("idle shutdown error: " +:+ str_exn e));;
    now' ← _now;
    modify (teardown_done_locked now')
  else Ret tt.

(** [_reaper_thread], unrolled [turns] times. *)
Fixpoint _reaper_thread (turns : nat) : prog unit :=
  match turns with
  | O => Ret tt
  | S n =>
      stop ← read shutdown_flag;
      if (stop : bool) then Ret tt else reaper_iteration;; _reaper_thread n
  end.

(** *** HTTP server *)

Definition _read_json (req : request) : json :=
  if content_length req <=? 0 then JDict []
  else
    match json_loads py (take (Z.to_nat (content_length req)) (rfile req)) with
    | Some j => j
    | None => JDict []
    end.

Definition _write_json (code : Z) (obj : jv) : prog unit :=
  call (SendResponse code obj).

(** [body.get(key)]; a body that is not an object has no [get]. *)
Definition body_get (body : json) (key : string) : prog (option pyval) :=
  match body with
  | JDict d => Ret (dict_get key d)
  | JOther _ => attribute_error "get"
  end.

Definition error_body (err : string) : jv :=
  VObj [("ok", VBool false); ("error", VStr err)]%string.

Definition ok_body : jv := VObj [("ok", VBool true)]%string.

Definition ensuring_body : jv :=
  VObj [("ok", VBool true); ("ensuring", VBool true)]%string.

Definition acquire_body (id : string) : jv :=
  VObj [("ok", VBool true); ("lease_id", VStr id);
        ("heartbeat_s", VMillis (DEFAULT_HEARTBEAT_S cfg));
        ("lease_ttl_s", VMillis (LEASE_TTL_S cfg))]%string.

Definition status_body (n_leases : nat) (ens : bool) (stg : string)
    (err : option string) (warm : option string) (done managed : bool)
    (stt tts ollama : bool) : jv :=
  VObj [("ok", VBool true);
        ("leases", VInt (Z.of_nat n_leases));
        ("ensuring", VBool ens);
        ("stage", VStr stg);
        ("last_error", jv_of_option_string err);
        ("idle_timeout_s", VMillis (IDLE_TIMEOUT_S cfg));
        ("lease_ttl_s", VMillis (LEASE_TTL_S cfg));
        ("services",
         VObj [("stt", VObj [("running", VBool stt);
                             ("health", VStr (STT_HEALTH_URL cfg))]);
               ("tts", VObj [("running", VBool tts);
                             ("voices_url", VStr (KOKORO_VOICES_URL cfg))]);
               ("ollama", VObj [("running", VBool ollama);
                                ("base_url", VStr (OLLAMA_API_BASE cfg));
                                ("managed", VBool managed)])]);
        ("warm", VObj [("model", jv_of_option_string warm);
                       ("done", VBool done);
                       ("keep_alive", VStr (OLLAMA_KEEP_ALIVE cfg))]);
        ("logs", VStr (LOG_DIR cfg))]%string.

Definition do_GET (req : request) : prog unit :=
  if negb (String.eqb (path req) "/status")
  then _write_json 404 (error_body "not_found")
  else
    '(n, ens, stg, err, warm, done, managed) ←
      read (fun s => (size (leases s), ensuring s, stage s, last_error s,
                      warm_model s, warm_done s, ollama_managed s));
    stt ← _stt_running;
    tts ← _kokoro_running;
    ollama ← _ollama_running;
    _write_json 200 (status_body n ens stg err warm done managed stt tts ollama).

(** The [with STATE.lock:] block of [/ensure]: test and set of [ensuring]. *)
Definition ensure_locked (s : DaemonState) : bool * DaemonState :=
  if ensuring s then (false, s)
  else (true, with_stage "starting" (with_last_error None (with_ensuring true s))).

(** The thread body started by [/ensure]. *)
Definition worker (model : option string) : prog unit :=
  try_finally
    (try_except (_ensure_all model)
       (fun e =>
          set_error (Some (str_exn e));;
          set_stage "error";;
          _log ("ensure error: " +:+ str_exn e)))
    (modify (with_ensuring false)).

(** [str(body.get("ollama_model") or [empty]).strip() or None] *)
Definition requested_model (v : option pyval) : option string :=
  let m := strip (str_or_empty v) in
  if String.eqb m EmptyString then None else Some m.

Definition do_POST (req : request) : prog unit :=
  if String.eqb (path req) "/lease/acquire" then
    let body := _read_json req in
    ms ← call WallClockMs;
    pid ← call GetPid;
    ident ← call GetIdent;
    let id := make_lease_id ms pid ident in
    now_seen ← _now;
    now_zero ← _now;
    modify (acquire_locked id body now_seen now_zero);;
    _write_json 200 (acquire_body id)
  else if String.eqb (path req) "/lease/heartbeat" then
    v ← body_get (_read_json req) "lease_id";
    let id := str_or_empty v in
    if String.eqb id EmptyString
    then _write_json 400 (error_body "missing_lease_id")
    else
      now ← _now;
      known ← atomic (heartbeat_locked id now);
      if (known : bool)
      then _write_json 200 ok_body
      else _write_json 404 (error_body "unknown_lease")
  else if String.eqb (path req) "/lease/release" then
    v ← body_get (_read_json req) "lease_id";
    let id := str_or_empty v in
    if String.eqb id EmptyString
    then _write_json 400 (error_body "missing_lease_id")
    else
      now ← _now;
      modify (release_locked id now);;
      _write_json 200 ok_body
  else if String.eqb (path req) "/ensure" then
    v ← body_get (_read_json req) "ollama_model";
    let model := requested_model v in
    admitted ← atomic ensure_locked;
    if (admitted : bool)
    then
      call (StartThread model);;
      _write_json 202 ensuring_body
    else _write_json 202 ensuring_body
  else _write_json 404 (error_body "not_found").

Definition swallow (p : prog unit) : prog unit :=
  try_except p (fun _ => Ret tt).

Definition _shutdown : prog unit :=
  modify (with_shutdown_flag true);;
  swallow (m ← read warm_model;
           if truthy_str m then _ollama_unload (default EmptyString m) else Ret tt);;
  swallow _stop_stt;;
  swallow _stop_kokoro;;
  swallow _stop_ollama.

End Daemon.

(** ** Threads *)

(** The daemon runs one thread per accepted connection, the reaper, one
    worker per admitted [/ensure], and the shutdown hook.  A step of the
    system is one atomic access or one call of one thread; the environment
    picks the thread and the answer. *)
Inductive kind : Type := Handler | Worker | Reaper | Hook.

#[export] Instance kind_eq_dec : EqDecision kind.
Proof. solve_decision. Defined.

Record thread : Type := mkThread {
  th_kind : kind;
  th_code : prog unit
}.

Record system : Type := mkSystem {
  shared : DaemonState;
  pool : list thread;
  history : list event
}.

Section Threads.
Context (cfg : Config) (py : Python).

(** The thread that a call starts, if any: [threading.Thread(target=worker)]. *)
Definition started {B : Type} (q : io B) : list thread :=
  match q with
  | StartThread model => [mkThread Worker (worker cfg py model)]
  | _ => []
  end.

Definition boot (now : Z) (turns : nat) : system :=
  mkSystem (DaemonState_init now) [mkThread Reaper (_reaper_thread cfg py turns)] [].

Inductive sys_step : system -> system -> Prop :=
| step_get (sys : system) (req : request) :
    sys_step sys
      (mkSystem (shared sys) (pool sys ++ [mkThread Handler (do_GET cfg py req)])
                (history sys))
| step_post (sys : system) (req : request) :
    sys_step sys
      (mkSystem (shared sys) (pool sys ++ [mkThread Handler (do_POST cfg py req)])
                (history sys))
| step_hook (sys : system) :
    sys_step sys
      (mkSystem (shared sys) (pool sys ++ [mkThread Hook (_shutdown cfg py)])
                (history sys))
| step_atomic (sys : system) (i : nat) (kd : kind) (B : Type)
    (f : DaemonState -> B * DaemonState) (k : B -> prog unit) :
    pool sys !! i = Some (mkThread kd (Atomic f k)) ->
    sys_step sys
      (mkSystem (f (shared sys)).2
                (<[i := mkThread kd (k (f (shared sys)).1)]> (pool sys))
                (history sys ++ [Wrote (f (shared sys)).2]))
| step_call (sys : system) (i : nat) (kd : kind) (B : Type)
    (q : io B) (k : B -> prog unit) (answer : B) :
    pool sys !! i = Some (mkThread kd (Call q k)) ->
    sys_step sys
      (mkSystem (shared sys)
                (<[i := mkThread kd (k answer)]> (pool sys) ++ started q)
                (history sys ++ [Called q answer])).

Definition reachable (sys : system) : Prop :=
  exists now turns, rtc sys_step (boot now turns) sys.

End Threads.

(** A thread has run to its end. *)
Definition finished {A : Type} (p : prog A) : Prop :=
  match p with
  | Ret _ | Throw _ => True
  | _ => False
  end.

(** An ensure pipeline is running in thread [t]. *)
Definition live_worker (t : thread) : Prop :=
  th_kind t = Worker /\ ~ finished (th_code t).

(** ** Properties of code, read off its tree *)

Definition is_start {B : Type} (q : io B) : Prop :=
  match q with StartThread _ => True | _ => False end.

(** Every atomic access of [p] relates the state before to the state after by
    [R], and every call of [p] satisfies [C]. *)
Fixpoint respects (R : DaemonState -> DaemonState -> Prop)
    (C : forall B : Type, io B -> Prop) {A : Type} (p : prog A) : Prop :=
  match p with
  | Ret _ | Throw _ => True
  | Atomic f k => forall s, R s (f s).2 /\ respects R C (k (f s).1)
  | Call q k => C _ q /\ forall b, respects R C (k b)
  end.

Definition is_response {B : Type} (q : io B) : Prop :=
  match q with SendResponse _ _ => True | _ => False end.

Definition is_urlopen {B : Type} (q : io B) : Prop :=
  match q with Urlopen _ _ _ _ => True | _ => False end.

(** A call other than starting a thread or answering the client. *)
Definition service_call (B : Type) (q : io B) : Prop :=
  ~ is_start q /\ ~ is_response q.

(** No run of [p] ends in an exception, whatever the environment answers. *)
Fixpoint never_throws {A : Type} (p : prog A) : Prop :=
  match p with
  | Ret _ => True
  | Throw _ => False
  | Atomic f k => forall s, never_throws (k (f s).1)
  | Call q k => forall b, never_throws (k b)
  end.

Definition keeps_ensuring (s s' : DaemonState) : Prop := ensuring s' = ensuring s.
Definition no_start (B : Type) (q : io B) : Prop := ~ is_start q.
Definition unchanged (s s' : DaemonState) : Prop := s' = s.
Definition any_call (B : Type) (q : io B) : Prop := True.

(** Code that never writes [ensuring] and never starts a thread. *)
Definition neutral {A : Type} (p : prog A) : Prop :=
  respects keeps_ensuring no_start p.

(** Code whose next action starts the worker of an admitted [/ensure]. *)
Definition admitted {A : Type} (free : prog A -> Prop) (p : prog A) : Prop :=
  match p with
  | Call q k => is_start q /\ forall b, free (k b)
  | _ => False
  end.

(** Code of a thread that holds no admission: it leaves [ensuring] alone, or
    it sets it from false to true and then starts the worker. *)
Fixpoint free {A : Type} (p : prog A) : Prop :=
  match p with
  | Ret _ | Throw _ => True
  | Atomic f k =>
      forall s,
        (ensuring (f s).2 = ensuring s /\ free (k (f s).1)) \/
        (ensuring s = false /\ ensuring (f s).2 = true /\
         admitted free (k (f s).1))
  | Call q k => ~ is_start q /\ forall b, free (k b)
  end.

(** Code of a running worker: it leaves [ensuring] alone until the access
    that clears it, which is its last action. *)
Fixpoint working {A : Type} (p : prog A) : Prop :=
  match p with
  | Ret _ | Throw _ => False
  | Atomic f k =>
      forall s,
        (ensuring (f s).2 = ensuring s /\ working (k (f s).1)) \/
        (ensuring (f s).2 = false /\ finished (k (f s).1))
  | Call q k => ~ is_start q /\ forall b, working (k b)
  end.

(** The thread holds the admission of the pipeline in flight. *)
Definition holds_admission (t : thread) : Prop :=
  match th_kind t with
  | Worker => working (th_code t)
  | _ => admitted free (th_code t)
  end.

Definition holds_nothing (t : thread) : Prop :=
  match th_kind t with
  | Worker => finished (th_code t)
  | _ => free (th_code t)
  end.

(** The invariant behind the single ensure: at most one thread, the [holder],
    holds the admission, and only while [ensuring] is set. *)
Definition single_ensure (sys : system) : Prop :=
  exists holder : option nat,
    (is_Some holder -> ensuring (shared sys) = true) /\
    (forall i, holder = Some i -> is_Some (pool sys !! i)) /\
    forall i t, pool sys !! i = Some t ->
      if decide (holder = Some i) then holds_admission t else holds_nothing t.

(** ** Observations on a run *)

(** The HTTP responses written during a run, in order. *)
Definition response_of (c : event) : list (Z * jv) :=
  match c with
  | Called q _ =>
      match q with
      | SendResponse code obj => [(code, obj)]
      | _ => []
      end
  | Wrote _ => []
  end.

Definition responses (cs : list event) : list (Z * jv) :=
  concat (map response_of cs).

(** The worker threads started during a run, by their requested model. *)
Definition start_of (c : event) : list (option string) :=
  match c with
  | Called q _ =>
      match q with
      | StartThread model => [model]
      | _ => []
      end
  | Wrote _ => []
  end.

Definition starts (cs : list event) : list (option string) :=
  concat (map start_of cs).

(** ** Linearised histories of the lease registry

    The registry and [last_zero_lease_time] are written only inside locked
    blocks, so a history of the daemon is, for them, a sequence of such blocks
    with the clock readings they used. *)
Inductive reg_event : Type :=
| EvAcquire (id : string) (body : json) (now_seen now_zero : Z)
| EvHeartbeat (id : string) (now : Z)
| EvRelease (id : string) (now : Z)
| EvTick (now : Z)
| EvTeardownDone (now : Z).

Definition ev_time (e : reg_event) : Z :=
  match e with
  | EvAcquire _ _ _ now_zero => now_zero
  | EvHeartbeat _ now => now
  | EvRelease _ now => now
  | EvTick now => now
  | EvTeardownDone now => now
  end.

(** The clock readings never go back along the history. *)
Fixpoint chronological_from (t : Z) (h : list reg_event) : bool :=
  match h with
  | [] => true
  | e :: h' => (t <=? ev_time e) && chronological_from (ev_time e) h'
  end.

Definition chronological (h : list reg_event) : bool :=
  match h with
  | [] => true
  | e :: h' => chronological_from (ev_time e) h'
  end.

Section Histories.
Context (cfg : Config).

Definition apply_event (s : DaemonState) (e : reg_event) : DaemonState :=
  match e with
  | EvAcquire id body now_seen now_zero => acquire_locked id body now_seen now_zero s
  | EvHeartbeat id now => (heartbeat_locked id now s).2
  | EvRelease id now => release_locked id now s
  | EvTick now => (reaper_locked cfg now s).2
  | EvTeardownDone now => teardown_done_locked now s
  end.

Definition replay (h : list reg_event) (s : DaemonState) : DaemonState :=
  fold_left apply_event h s.

(** [do_shutdown] of a reaper tick at [now]. *)
Definition tears_down (now : Z) (s : DaemonState) : bool :=
  (reaper_locked cfg now s).1.1.

(** The registry as it stands at time [t']: after every block stamped at or
    before [t']. *)
Definition registry_at (h : list reg_event) (s0 : DaemonState) (t' : Z)
    : gmap string Lease :=
  leases (replay (List.filter (fun e => ev_time e <=? t') h) s0).

(** The reading "teardown at [t] implies an empty registry throughout
    [[t - idle_timeout_s, t]]". *)
Definition empty_throughout_window : Prop :=
  forall (now0 : Z) (h : list reg_event) (t : Z),
    chronological (h ++ [EvTick t]) = true ->
    tears_down t (replay h (DaemonState_init now0)) = true ->
    forall t', t - IDLE_TIMEOUT_S cfg <= t' <= t ->
      registry_at (h ++ [EvTick t]) (DaemonState_init now0) t' = ∅.

End Histories.

(** The registry part of two states agrees; a write that is one of the locked
    blocks of the registry, or leaves it alone; a state whose registry is the
    replay of some history from the initial state. *)
Definition same_registry (s s' : DaemonState) : Prop :=
  leases s' = leases s /\ last_zero_lease_time s' = last_zero_lease_time s.

Definition registry_step (cfg : Config) (s s' : DaemonState) : Prop :=
  same_registry s s' \/ exists e, same_registry (apply_event cfg s e) s'.

Definition registry_replayed (cfg : Config) (s : DaemonState) : Prop :=
  exists now0 h, same_registry (replay cfg h (DaemonState_init now0)) s.

(** An answer of [urlopen] other than a 200 with a decodable body. *)
Definition failed_answer (py : Python) (a : exn + http_response) : Prop :=
  match a with
  | inl (Exception _) => True
  | inl (HTTPError code _ _) => code <> 200
  | inr resp =>
      status resp <> 200 \/ payload resp = None \/
      (exists raw, payload resp = Some raw /\ json_loads py raw = None)
  end.

(** ** Sample environments and inputs *)

Definition sample_body : dict :=
  [("ok", PBool true); ("voices", POpaque true "[...]"); ("version", PStr "0.5.1");
   ("lease_id", PStr "l1_2_3"); ("ollama_model", PStr " qwen3:8b ")]%string.

(** A decoder that reads every non-empty body as one fixed object, which
    serves as a healthy probe answer and as a request body. *)
Definition sample_python : Python := {|
  json_loads := fun raw =>
    match raw with
    | [] => None
    | _ => Some (JDict sample_body)
    end;
  repr_body := fun _ => "{...}"%string;
  repr_cmd := fun _ => "[...]"%string;
  str_seconds := fun ms => py_str_int (ms / 1000)
|}.

(** The answers that do not depend on the state of the services; the world is
    the monotonic clock, which every reading advances by one. *)
Definition sample_answer (up docker : bool) (B : Type) (q : io B) (w : Z) : B * Z :=
  match q in io T return T * Z with
  | Now => (w, w + 1)
  | WallClockMs => (1700000000000, w)
  | GetPid => (4242, w)
  | GetIdent => (140001, w)
  | Sleep _ => (tt, w)
  | BeforeDeadline _ => (2%nat, w)
  | Urlopen _ _ _ _ =>
      (if up then inr (mkResponse 200 (Some [Byte.x7b; Byte.x7d]))
       else inl (Exception "connection refused"), w)
  | CreateConnection _ _ _ =>
      (if up then inr tt else inl (Exception "connection refused"), w)
  | Which name => (if docker then Some name else None, w)
  | Popen _ _ _ => (inr 5001, w)
  | Poll _ => (None, w)
  | Terminate _ => (inr tt, w)
  | Wait _ _ => (inr tt, w)
  | Kill _ => (inr tt, w)
  | SubprocessRun _ _ _ => (inr 0, w)
  | Tail _ => ("..."%string, w)
  | Log _ => (tt, w)
  | SendResponse _ _ => (tt, w)
  | StartThread _ => (tt, w)
  end.

(** Every service already answers its probe; an orchestrator is installed. *)
Definition healthy_env : forall B : Type, io B -> Z -> B * Z := sample_answer true true.

(** Nothing answers; an orchestrator is installed. *)
Definition down_env : forall B : Type, io B -> Z -> B * Z := sample_answer false true.

Definition sample_lease : Lease := mkLease "l1_2_3" 0 (JDict []).

Definition sample_state : DaemonState :=
  with_leases {[ "l1_2_3"%string := sample_lease ]} (DaemonState_init 0).

Definition sample_post (p : string) : request := mkRequest p 2 [Byte.x7b; Byte.x7d].

(** The reading "a release of an id that is not in the map reports an outcome
    that differs from [ok]". *)
Definition release_reports_unknown (cfg : Config) (py : Python) : Prop :=
  forall (env : forall B : Type, io B -> Z -> B * Z)
         (req : request) (d : dict) (s : DaemonState) (w : Z),
    path req = "/lease/release"%string ->
    _read_json py req = JDict d ->
    str_or_empty (dict_get "lease_id" d) <> EmptyString ->
    leases s !! str_or_empty (dict_get "lease_id" d) = None ->
    responses (events (exec env (do_POST cfg py req) s w)) <> [(200, ok_body)].

(** A block that stamps [last_zero_lease_time] because a lease is live: an
    acquisition, or a reaper tick that still finds a lease after expiry. *)
Definition sees_lease (cfg : Config) (s : DaemonState) (e : reg_event) : Prop :=
  match e with
  | EvAcquire _ _ _ _ => True
  | EvTick now => leases (reaper_locked cfg now s).2 <> ∅
  | _ => False
  end.

(** A client acquires a lease at time 0 and is never heard of again; the
    reaper ticks every 500 ms. *)
Definition abandoned_lease_history : list reg_event :=
  EvAcquire "l1_2_3" (JDict []) 0 0
    :: map (fun k => EvTick (500 * Z.of_nat k)) (seq 1 79).

Fixpoint has_underscore (s : string) : bool :=
  match s with
  | EmptyString => false
  | String c s' => Ascii.eqb c "_" || has_underscore s'
  end.

(** ** Stages *)

(** The values of [stage] listed by the specification. *)
Definition spec_stage_values : list string :=
  ["idle"; "starting"; "ensure:llm_server"; "ensure:stt"; "ensure:tts";
   "ensure:llm_warm"; "ready"; "error"]%string.

(** The values the code writes. *)
Definition stage_values : list string :=
  ["idle"; "starting"; "ensure:ollama_server"; "ensure:stt"; "ensure:kokoro";
   "ensure:ollama_warm"; "ready"; "error"]%string.

(** The stage is one of the values the code writes, if it was before. *)
Definition keeps_stage_known (s s' : DaemonState) : Prop :=
  In (stage s) stage_values -> In (stage s') stage_values.

(** The stages of a complete pipeline, in order. *)
Definition pipeline (model : option string) : list string :=
  (["ensure:ollama_server"; "ensure:stt"; "ensure:kokoro"]%string
   ++ (if truthy_str model then ["ensure:ollama_warm"%string] else [])
   ++ ["ready"%string])%list.

(** The value of [stage] after each atomic access of a run. *)
Definition stage_of (c : event) : list string :=
  match c with
  | Wrote s => [stage s]
  | Called _ _ => []
  end.

Definition stages_of (cs : list event) : list string := concat (map stage_of cs).

(** The successive values a field takes, starting from [cur]: a value is
    listed when it differs from the one before. *)
Fixpoint changes (cur : string) (l : list string) : list string :=
  match l with
  | [] => []
  | x :: l' => if String.eqb x cur then changes cur l' else x :: changes x l'
  end.

(** The progression of [stage] during a run that starts in state [s]. *)
Definition stage_changes (s : DaemonState) (cs : list event) : list string :=
  changes (stage s) (stages_of cs).

(** Everything but the process handles is the same. *)
Definition same_but_handles (s s' : DaemonState) : Prop :=
  ensuring s' = ensuring s /\ stage s' = stage s /\ last_error s' = last_error s /\
  leases s' = leases s /\ last_zero_lease_time s' = last_zero_lease_time s /\
  warm_model s' = warm_model s /\ warm_done s' = warm_done s /\
  shutdown_flag s' = shutdown_flag s.

(** A request to the model server's [generate] endpoint (warm or unload). *)
Definition is_post {B : Type} (q : io B) : Prop :=
  match q with
  | Urlopen m _ _ _ => m = "POST"%string
  | _ => False
  end.

Definition not_post (B : Type) (q : io B) : Prop := service_call B q /\ ~ is_post q.

(** The state the admission block of [/ensure] leaves to the worker. *)
Definition admitted_state (s : DaemonState) : DaemonState := (ensure_locked s).2.

(** The reading "a run with no model requested leaves [warm_model] and
    [warm_done] unchanged". *)
Definition warm_untouched_without_model (cfg : Config) (py : Python) : Prop :=
  forall (env : forall B : Type, io B -> Z -> B * Z) (s : DaemonState) (w : Z),
    let r := exec env (_ensure_all cfg py None) s w in
    warm_model (final r) = warm_model s /\ warm_done (final r) = warm_done s.

Definition warmed_state : DaemonState :=
  with_warm_done true (with_warm_model (Some "qwen3:8b"%string) (DaemonState_init 0)).

(** The requests sent to a [generate] endpoint during a run. *)
Definition post_of (c : event) : list (string * option jv) :=
  match c with
  | Called q _ =>
      match q with
      | Urlopen m u b _ => if String.eqb m "POST" then [(u, b)] else []
      | _ => []
      end
  | Wrote _ => []
  end.

Definition posts (cs : list event) : list (string * option jv) :=
  concat (map post_of cs).

(** The one [generate] request of a warm-up. *)
Definition warm_post (cfg : Config) (model : option string) : string * option jv :=
  (OLLAMA_GENERATE_URL cfg,
   Some (generate_payload (default EmptyString model) (VStr (OLLAMA_KEEP_ALIVE cfg)))).

(** The state satisfies [P] and every thread body respects [R]. *)
Definition guarded (R : DaemonState -> DaemonState -> Prop) (P : DaemonState -> Prop)
    (sys : system) : Prop :=
  P (shared sys) /\ Forall (fun t => respects R any_call (th_code t)) (pool sys).

(** The reading "[stage] only ever takes the values listed by the
    specification". *)
Definition stage_always_in_spec_set (cfg : Config) (py : Python) : Prop :=
  forall sys, reachable cfg py sys -> In (stage (shared sys)) spec_stage_values.

(** ** Stopping services *)

(** The processes a run terminates, waits for or kills. *)
Definition signal_of (c : event) : list proc :=
  match c with
  | Called q _ =>
      match q with
      | Terminate p => [p]
      | Wait p _ => [p]
      | Kill p => [p]
      | _ => []
      end
  | Wrote _ => []
  end.

Definition signalled (cs : list event) : list proc := concat (map signal_of cs).

(** The command lines a run executes through [subprocess.run]. *)
Definition command_of (c : event) : list (list string) :=
  match c with
  | Called q _ =>
      match q with
      | SubprocessRun cmd _ _ => [cmd]
      | _ => []
      end
  | Wrote _ => []
  end.

Definition ran (cs : list event) : list (list string) := concat (map command_of cs).

(** The commands of a run that carry the word [verb] ([up], [stop]). *)
Definition ran_with (verb : string) (cs : list event) : list (list string) :=
  List.filter (fun cmd => existsb (String.eqb verb) cmd) (ran cs).

Definition is_signal {B : Type} (q : io B) : Prop :=
  match q with
  | Terminate _ | Wait _ _ | Kill _ => True
  | _ => False
  end.

Definition is_run {B : Type} (q : io B) : Prop :=
  match q with SubprocessRun _ _ _ => True | _ => False end.

(** A call that neither signals a process nor runs a command. *)
Definition quiet (B : Type) (q : io B) : Prop :=
  service_call B q /\ ~ is_signal q /\ ~ is_run q.

(** The reading "the daemon stops the TTS service only if it started it":
    in a life of the daemon in which only the reaper ran, a compose [stop]
    is preceded by a compose [up]. *)
Definition tts_stopped_only_if_started (cfg : Config) (py : Python) : Prop :=
  forall (env : forall B : Type, io B -> Z -> B * Z) (turns : nat) (now0 w : Z),
    let cs := events (exec env (_reaper_thread cfg py turns) (DaemonState_init now0) w) in
    ran_with "stop" cs <> [] -> ran_with "up" cs <> [].

(** ** Ownership of processes *)

(** The process a call brings to life: the answer of a successful
    [subprocess.Popen]. *)
Definition spawn_call {B : Type} (q : io B) : B -> list proc :=
  match q in io T return T -> list proc with
  | Popen _ _ _ => fun b => match b with inr h => [h] | inl _ => [] end
  | _ => fun _ => []
  end.

Definition spawn_of (c : event) : list proc :=
  match c with
  | Called q b => spawn_call q b
  | Wrote _ => []
  end.

Definition spawned (cs : list event) : list proc := concat (map spawn_of cs).

(** The process a call terminates, waits for or kills. *)
Definition target_call {B : Type} (q : io B) : list proc :=
  match q with
  | Terminate p => [p]
  | Wait p _ => [p]
  | Kill p => [p]
  | _ => []
  end.

Definition no_signal (B : Type) (q : io B) : Prop := ~ is_signal q.

(** Sets of processes, and the handles of a state being among them. *)
Definition procs : Type := proc -> Prop.

Definition sub (H H' : procs) : Prop := forall h, H h -> H' h.

Definition handles_known (H : procs) (s : DaemonState) : Prop :=
  (forall h, stt_proc s = Some h -> H h) /\
  (forall h, ollama_proc s = Some h -> H h).

(** A write that stores no new handle. *)
Definition keeps_handles (s s' : DaemonState) : Prop :=
  (forall h, stt_proc s' = Some h -> stt_proc s = Some h) /\
  (forall h, ollama_proc s' = Some h -> ollama_proc s = Some h).

(** [owns H p Q]: started when the daemon has spawned the processes [H], and
    run among threads that may spawn more and that keep the handles of the
    state among the spawned processes, [p] signals only spawned processes,
    stores only handles of spawned processes, and returns a value [a] with
    [Q a H'], where [H'] are the processes spawned by then. *)
Fixpoint owns {A : Type} (H : procs) (p : prog A) (Q : A -> procs -> Prop) : Prop :=
  match p with
  | Ret a => forall H', sub H H' -> Q a H'
  | Throw _ => True
  | Atomic f k =>
      forall H', sub H H' -> forall s, handles_known H' s ->
        handles_known H' (f s).2 /\ owns H' (k (f s).1) Q
  | Call q k =>
      forall H', sub H H' ->
        (forall h, In h (target_call q) -> H' h) /\
        forall b, owns (fun h => H' h \/ In h (spawn_call q b)) (k b) Q
  end.

Definition any_post {A : Type} : A -> procs -> Prop := fun _ _ => True.

(** Every signal of a history goes to a process that a [Popen] of the same
    history returned before. *)
Definition signals_own (cs : list event) : Prop :=
  forall pre c post, cs = pre ++ c :: post ->
    forall h, In h (signal_of c) -> In h (spawned pre).

Definition owned (sys : system) : Prop :=
  let H := fun h => In h (spawned (history sys)) in
  handles_known H (shared sys) /\
  Forall (fun t => owns H (th_code t) any_post) (pool sys) /\
  signals_own (history sys).

(** ** Clients of the lease registry *)

(** The clock and identity readings of a [/lease/acquire] served from world
    [w]: wall-clock milliseconds, pid, thread ident, the two monotonic
    readings, and the world after them. *)
Record acquire_readings (W : Type) : Type := mkReadings {
  rd_ms : Z; rd_pid : Z; rd_ident : Z; rd_seen : Z; rd_zero : Z; rd_world : W
}.
Arguments mkReadings {W}.
Arguments rd_ms {W}.
Arguments rd_pid {W}.
Arguments rd_ident {W}.
Arguments rd_seen {W}.
Arguments rd_zero {W}.
Arguments rd_world {W}.

Definition readings {W : Type} (env : forall B : Type, io B -> W -> B * W) (w : W)
    : acquire_readings W :=
  let '(ms, w1) := env _ WallClockMs w in
  let '(pid, w2) := env _ GetPid w1 in
  let '(ident, w3) := env _ GetIdent w2 in
  let '(seen, w4) := env _ Now w3 in
  let '(zero, w5) := env _ Now w4 in
  mkReadings ms pid ident seen zero w5.

(** [meta or {}] *)
Definition meta_of (body : json) : json :=
  if json_truthy body then body else JDict [].

(** A request on [p] whose body decodes to an object naming lease [id]. *)
Definition names_lease (py : Python) (req : request) (p id : string) : Prop :=
  path req = p /\
  exists d, _read_json py req = JDict d /\ str_or_empty (dict_get "lease_id" d) = id.

(** A decoder that reads every non-empty body as an object naming lease
    [id]. *)
Definition lease_python (id : string) : Python := {|
  json_loads := fun raw =>
    match raw with
    | [] => None
    | _ => Some (JDict [("lease_id"%string, PStr id)])
    end;
  repr_body := fun _ => "{...}"%string;
  repr_cmd := fun _ => "[...]"%string;
  str_seconds := fun ms => py_str_int (ms / 1000)
|}.

(** The healthy environment with a wall clock that is the world and advances
    at every reading of either clock. *)
Definition ticking_env (B : Type) (q : io B) (w : Z) : B * Z :=
  match q in io T return T * Z with
  | WallClockMs => (w, w + 1)
  | q' => healthy_env _ q' w
  end.

(** A decoder that reads every non-empty body as a JSON list. *)
Definition list_python : Python := {|
  json_loads := fun raw =>
    match raw with
    | [] => None
    | _ => Some (JOther (POpaque true "[1, 2]"))
    end;
  repr_body := fun _ => "[...]"%string;
  repr_cmd := fun _ => "[...]"%string;
  str_seconds := fun ms => py_str_int (ms / 1000)
|}.

(** ** What a run does to the outside *)

(** The command lines handed to [subprocess.Popen] during a run. *)
Definition launch_of (c : event) : list (list string) :=
  match c with
  | Called q _ =>
      match q with
      | Popen cmd _ _ => [cmd]
      | _ => []
      end
  | Wrote _ => []
  end.

Definition launched (cs : list event) : list (list string) := concat (map launch_of cs).

(** A call that spawns, signals, runs, posts, answers and starts nothing: a
    reading of the clock, a sleep, a look-up of a binary, a poll of a child,
    a read of a log, a line added to the daemon log, a TCP connection, a
    [GET] without a body. *)
Definition passive (B : Type) (q : io B) : Prop :=
  match q with
  | Now | Sleep _ | BeforeDeadline _ | Which _ | Poll _ | Tail _ | Log _ => True
  | CreateConnection _ _ _ => True
  | Urlopen m _ b _ => m = "GET"%string /\ b = None
  | _ => False
  end.

(** A run from [s] that leaves the state and the outside as they are. *)
Definition harmless {A W : Type} (s : DaemonState) (r : run A W) : Prop :=
  final r = s /\ launched (events r) = [] /\ spawned (events r) = [] /\
  ran (events r) = [] /\ signalled (events r) = [] /\ posts (events r) = [] /\
  responses (events r) = [] /\ starts (events r) = [].

(** The three services: the probe and the ensure function of each. *)
Definition drivers (cfg : Config) (py : Python) : list (prog bool * prog unit) :=
  [(_stt_running cfg py, _ensure_stt cfg py);
   (_kokoro_running cfg py, _ensure_kokoro cfg py);
   (_ollama_running cfg py, _ensure_ollama_server cfg py)].

(** The configuration [c] with [OLLAMA_MANAGE_SERVER] and
    [OLLAMA_MANAGE_MODEL_UNLOAD] set as given. *)
Definition with_manage (server unload : bool) (c : Config) : Config := {|
  IDLE_TIMEOUT_S := IDLE_TIMEOUT_S c;
  LEASE_TTL_S := LEASE_TTL_S c;
  DEFAULT_HEARTBEAT_S := DEFAULT_HEARTBEAT_S c;
  STT_HEALTH_URL := STT_HEALTH_URL c;
  STT_READY_TIMEOUT_S := STT_READY_TIMEOUT_S c;
  KOKORO_HOST := KOKORO_HOST c;
  KOKORO_PORT := KOKORO_PORT c;
  KOKORO_VOICES_URL := KOKORO_VOICES_URL c;
  KOKORO_READY_TIMEOUT_S := KOKORO_READY_TIMEOUT_S c;
  KOKORO_COMPOSE_FILE := KOKORO_COMPOSE_FILE c;
  OLLAMA_API_BASE := OLLAMA_API_BASE c;
  OLLAMA_VERSION_URL := OLLAMA_VERSION_URL c;
  OLLAMA_GENERATE_URL := OLLAMA_GENERATE_URL c;
  OLLAMA_CMD := OLLAMA_CMD c;
  OLLAMA_MANAGE_SERVER := server;
  OLLAMA_MANAGE_MODEL_UNLOAD := unload;
  OLLAMA_READY_TIMEOUT_S := OLLAMA_READY_TIMEOUT_S c;
  OLLAMA_WARM_TIMEOUT_S := OLLAMA_WARM_TIMEOUT_S c;
  OLLAMA_KEEP_ALIVE := OLLAMA_KEEP_ALIVE c;
  LOG_DIR := LOG_DIR c;
  STT_LOG := STT_LOG c;
  OLLAMA_LOG := OLLAMA_LOG c;
  DOCKER_LOG := DOCKER_LOG c;
  PYTHON_EXE := PYTHON_EXE c;
  STT_SCRIPT := STT_SCRIPT c
|}.

(** Nothing answers and no orchestrator is installed. *)
Definition bare_env : forall B : Type, io B -> Z -> B * Z := sample_answer false false.

(** Nothing answers, and every command the daemon runs fails with return
    code 1. *)
Definition failing_env (B : Type) (q : io B) (w : Z) : B * Z :=
  match q in io T return T * Z with
  | SubprocessRun _ _ _ => (inr 1, w)
  | q' => down_env _ q' w
  end.

(** [compose -f <file> up -d] with the orchestrator command [dc]. *)
Definition compose_up (cfg : Config) (dc : list string) : list string :=
  dc ++ ["-f"; KOKORO_COMPOSE_FILE cfg; "up"; "-d"]%string.

(** ** Polling *)

(** The durations a run sleeps, in order. *)
Definition sleep_of (c : event) : list Q :=
  match c with
  | Called q _ =>
      match q with
      | Sleep d => [d]
      | _ => []
      end
  | Wrote _ => []
  end.

Definition sleeps (cs : list event) : list Q := concat (map sleep_of cs).

Definition no_sleep (B : Type) (q : io B) : Prop :=
  match q with
  | Sleep _ => False
  | _ => True
  end.

Definition any_write (s s' : DaemonState) : Prop := True.

Fixpoint nondecreasing (l : list Q) : Prop :=
  match l with
  | a :: l' =>
      match l' with
      | b :: _ => (a <= b)%Q /\ nondecreasing l'
      | [] => True
      end
  | [] => True
  end.

(** ** The admission of an ensure pipeline *)

(** Either no thread holds the admission and [ensuring] is clear, or exactly
    one does and [ensuring] is set. *)
Definition ensure_balanced (sys : system) : Prop :=
  exists holder : option nat,
    (is_Some holder <-> ensuring (shared sys) = true) /\
    (forall i, holder = Some i -> is_Some (pool sys !! i)) /\
    forall i t, pool sys !! i = Some t ->
      if decide (holder = Some i) then holds_admission t else holds_nothing t.

(** A thread that is about to start the worker of an admitted [/ensure]. *)
Definition about_to_start (t : thread) : Prop :=
  th_kind t <> Worker /\
  match th_code t with
  | Call q _ => is_start q
  | _ => False
  end.

(** ** What handlers and workers leave alone *)

(** A call a request handler may make: a reading of a clock or of an
    identity, a probe, the answer to the client, the start of the worker. *)
Definition handler_call (B : Type) (q : io B) : Prop :=
  match q with
  | Now | WallClockMs | GetPid | GetIdent => True
  | SendResponse _ _ | StartThread _ => True
  | CreateConnection _ _ _ => True
  | Urlopen m _ b _ => m = "GET"%string /\ b = None
  | _ => False
  end.

(** A call the ensure worker may make: anything but a signal to a process,
    an answer to a client and the start of a thread. *)
Definition worker_call (B : Type) (q : io B) : Prop :=
  ~ is_signal q /\ ~ is_start q /\ ~ is_response q.

(** The state but for the lease registry. *)
Definition same_but_registry (s s' : DaemonState) : Prop :=
  ensuring s' = ensuring s /\ stage s' = stage s /\ last_error s' = last_error s /\
  stt_proc s' = stt_proc s /\ ollama_proc s' = ollama_proc s /\
  ollama_managed s' = ollama_managed s /\
  warm_model s' = warm_model s /\ warm_done s' = warm_done s /\
  shutdown_flag s' = shutdown_flag s.

(** The lease registry and the shutdown flag. *)
Definition same_registry_and_flag (s s' : DaemonState) : Prop :=
  leases s' = leases s /\ last_zero_lease_time s' = last_zero_lease_time s /\
  shutdown_flag s' = shutdown_flag s.

(** ** The client of the daemon ([services/daemon_client.py]) *)

(** A decoded JSON value as the client sees it.  Objects are association
    lists in which a key occurs once. *)
#[local] Unset Elimination Schemes.
Inductive cj : Type :=
| CNull
| CBool (b : bool)
| CInt (z : Z)
| CMillis (ms : Z)
| CStr (s : string)
| CArr (items : list cj)
| CObj (fields : list (string * cj)).
#[local] Set Elimination Schemes.

(** What the client decodes from a document the daemon wrote. *)
Fixpoint cj_of_jv (v : jv) : cj :=
  match v with
  | VNull => CNull
  | VBool b => CBool b
  | VInt z => CInt z
  | VMillis ms => CMillis ms
  | VStr s => CStr s
  | VObj fields => CObj (map (fun kv => (kv.1, cj_of_jv kv.2)) fields)
  end.

(** [bool(v)] *)
Definition cj_truthy (v : cj) : bool :=
  match v with
  | CNull => false
  | CBool b => b
  | CInt z => negb (z =? 0)
  | CMillis ms => negb (ms =? 0)
  | CStr s => negb (String.eqb s EmptyString)
  | CArr l => match l with [] => false | _ => true end
  | CObj l => match l with [] => false | _ => true end
  end.

Fixpoint fields_get (key : string) (l : list (string * cj)) : cj :=
  match l with
  | [] => CNull
  | (k, v) :: l' => if String.eqb k key then v else fields_get key l'
  end.

(** [v.get(key)]: [None] for a missing key, [AttributeError] when [v] is not
    an object. *)
Definition cj_get (key : string) (v : cj) : exn + cj :=
  match v with
  | CObj l => inr (fields_get key l)
  | _ => inl (Exception "AttributeError: 'get'")
  end.

(** [v or {}] *)
Definition or_empty (v : cj) : cj := if cj_truthy v then v else CObj [].

(** [v is True], [v is False] *)
Definition is_true (v : cj) : bool := match v with CBool true => true | _ => false end.
Definition is_false (v : cj) : bool := match v with CBool false => true | _ => false end.

(** The second component of what [_http] returns: [None], a decoded
    document, or the pair [(r.status, None)] that the conditional expression
    yields for an empty body. *)
Inductive cbody : Type :=
| BNone
| BJson (v : cj)
| BPair (st : Z).

Definition cbody_truthy (b : cbody) : bool :=
  match b with
  | BNone => false
  | BJson v => cj_truthy v
  | BPair _ => true
  end.

(** [body.get(key)] on the second component. *)
Definition cbody_get (key : string) (b : cbody) : exn + cj :=
  match b with
  | BJson v => cj_get key v
  | BPair _ => inl (Exception "AttributeError: 'get'")
  | BNone => inl (Exception "AttributeError: 'get'")
  end.

(** Builtins of the client's runtime: the JSON decoder and [str()] of a
    decoded value inside a message. *)
Record ClientPython : Type := {
  c_loads : list Byte.byte -> option cj;
  c_str : cj -> string
}.

Record ClientConfig : Type := {
  DAEMON_HOST : string;
  DAEMON_PORT : Z;
  DAEMON_URL : string;
  CLIENT_HEARTBEAT_S : Z;
  STATUS_POLL_TIMEOUT_S : Z;
  CLIENT_PYTHON_EXE : string
}.

Definition default_client : ClientConfig := {|
  DAEMON_HOST := "127.0.0.1";
  DAEMON_PORT := 8790;
  DAEMON_URL := "http://127.0.0.1:8790";
  CLIENT_HEARTBEAT_S := 5000;
  STATUS_POLL_TIMEOUT_S := 180000;
  CLIENT_PYTHON_EXE := "python"
|}.

(** What one pass of the polling loop of [ensure_stack] decides. *)
Inductive verdict : Type :=
| Ready
| Again.

Section Client.
Context (ccfg : ClientConfig) (cpy : ClientPython).

(** [_http]: every exception, an HTTP error status included, gives
    [(0, None)]. *)
Definition _http (method path : string) (body : option jv) (timeout : Z)
    : prog (Z * cbody) :=
  try_except
    (r ← call_raising (Urlopen method (DAEMON_URL ccfg +:+ path) body timeout);
     raw ← read_payload (payload r);
     if is_empty_bytes raw then Ret (status r, BPair (status r))
     else
       match c_loads cpy raw with
       | Some v => Ret (status r, BJson v)
       | None => Throw (Exception "JSONDecodeError")
       end)
    (fun _ => Ret (0, BNone)).

Definition client_tcp_port_open (host : string) (port timeout : Z) : prog bool :=
  try_except (call_raising (CreateConnection host port timeout);; Ret true)
             (fun _ => Ret false).

Definition _spawn_daemon_hidden : prog unit :=
  call_raising (Popen [CLIENT_PYTHON_EXE ccfg; "-m"; "services.service_daemon"]%string
                  "DEVNULL" "DEVNULL");;
  Ret tt.

Fixpoint daemon_wait_loop (n : nat) : prog unit :=
  match n with
  | O => Throw (Exception "service daemon did not start (port not reachable)")
  | S n' =>
      up ← client_tcp_port_open (DAEMON_HOST ccfg) (DAEMON_PORT ccfg) 150;
      if up then Ret tt
      else call (Sleep 0.08%Q);; daemon_wait_loop n'
  end.

Definition ensure_daemon_running : prog unit :=
  up ← client_tcp_port_open (DAEMON_HOST ccfg) (DAEMON_PORT ccfg) 150;
  if up then Ret tt
  else
    _spawn_daemon_hidden;;
    n ← call (BeforeDeadline 4000);
    daemon_wait_loop n.

(** A decoded value inside an f-string: a string stands for itself, [None],
    the booleans and the integers have their usual names, and the runtime
    renders the rest. *)
Definition cj_str (v : cj) : string :=
  match v with
  | CStr s => s
  | CNull => "None"
  | CBool true => "True"
  | CBool false => "False"
  | CInt z => py_str_int z
  | _ => c_str cpy v
  end.

(** The three [(services.get(name) or {}).get("running") is True] tests,
    joined by [and]. *)
Definition service_running (name : string) (services : cj) : exn + bool :=
  match cj_get name services with
  | inl e => inl e
  | inr v =>
      match cj_get "running" (or_empty v) with
      | inl e => inl e
      | inr r => inr (is_true r)
      end
  end.

Definition services_ready (services : cj) : exn + bool :=
  match service_running "stt" services with
  | inl e => inl e
  | inr false => inr false
  | inr true =>
      match service_running "tts" services with
      | inl e => inl e
      | inr false => inr false
      | inr true => service_running "ollama" services
      end
  end.

(** The body of [if code == 200 and body:] in [ensure_stack]. *)
Definition judge_status (ollama_model : option string) (body : cbody) : exn + verdict :=
  match cbody_get "last_error" body with
  | inl e => inl e
  | inr err =>
      match (if cj_truthy err
             then match cbody_get "ensuring" body with
                  | inl e => inl e
                  | inr v => inr (is_false v)
                  end
             else inr false) with
      | inl e => inl e
      | inr true =>
          match cbody_get "stage" body, cbody_get "logs" body with
          | inr stg, inr logs =>
              inl (Exception ("daemon ensure failed at stage=" +:+ cj_str stg
                              +:+ newline +:+ cj_str err
                              +:+ newline +:+ "logs=" +:+ cj_str logs))
          | inl e, _ => inl e
          | _, inl e => inl e
          end
      | inr false =>
          match cbody_get "services" body with
          | inl e => inl e
          | inr sv =>
              match services_ready (or_empty sv) with
              | inl e => inl e
              | inr ready =>
                  match cbody_get "warm" body with
                  | inl e => inl e
                  | inr wm =>
                      match (if truthy_str ollama_model
                             then match cj_get "done" (or_empty wm) with
                                  | inl e => inl e
                                  | inr d => inr (is_true d)
                                  end
                             else inr true) with
                      | inl e => inl e
                      | inr warm_done =>
                          if ready && warm_done
                          then match cbody_get "ensuring" body with
                               | inl e => inl e
                               | inr v => inr (if is_false v then Ready else Again)
                               end
                          else inr Again
                      end
                  end
              end
          end
      end
  end.

(** One answer of [GET /status] as the loop of [ensure_stack] takes it. *)
Definition judge (ollama_model : option string) (code : Z) (body : cbody)
    : exn + verdict :=
  if (code =? 200) && cbody_truthy body then judge_status ollama_model body
  else inr Again.

(** [str(body)] of the second component of [_http]. *)
Definition str_cbody (b : cbody) : string :=
  match b with
  | BNone => "None"
  | BJson v => cj_str v
  | BPair st => "(" +:+ py_str_int st +:+ ", None)"
  end.

(** The polling loop of [ensure_stack], for as many turns as the deadline
    allows, and the last pull for diagnostics. *)
Fixpoint status_loop (ollama_model : option string) (n : nat) : prog unit :=
  match n with
  | O =>
      '(_, body) ← _http "GET" "/status" None 1200;
      Throw (Exception ("stack ensure timed out" +:+ newline +:+ "status="
                         +:+ str_cbody body))
  | S n' =>
      '(code, body) ← _http "GET" "/status" None 1200;
      match judge ollama_model code body with
      | inl e => Throw e
      | inr Ready => Ret tt
      | inr Again => call (Sleep 0.15%Q);; status_loop ollama_model n'
      end
  end.

Definition ensure_request (ollama_model : option string) : jv :=
  VObj [("ollama_model"%string, VStr (default EmptyString ollama_model))].

Definition ensure_stack (ollama_model : option string) : prog unit :=
  ensure_daemon_running;;
  _http "POST" "/ensure" (Some (ensure_request ollama_model)) 1200;;
  n ← call (BeforeDeadline (STATUS_POLL_TIMEOUT_S ccfg));
  status_loop ollama_model n.

End Client.

(** A client runtime for examples: it decodes nothing and renders strings as
    they are. *)
Definition sample_client_python : ClientPython := {|
  c_loads := fun _ => None;
  c_str := fun v => match v with CStr s => s | _ => "?"%string end
|}.

(** * Properties *)

(** ** Running programs *)

Section ExecFacts.
Context {W : Type} (env : forall B : Type, io B -> W -> B * W).

Lemma exec_bind {A B : Type} (p : prog A) (k : A -> prog B) s w :
  exec env (bind p k) s w =
  let r1 := exec env p s w in
  match outcome r1 with
  | inl e => mkRun (inl e) (final r1) (world r1) (events r1)
  | inr a =>
      let r2 := exec env (k a) (final r1) (world r1) in
      mkRun (outcome r2) (final r2) (world r2) (events r1 ++ events r2)
  end.
Proof.
  revert s w. induction p as [a|e|C f k' IH|C q k' IH]; intros s w; simpl.
  - destruct (exec env (k a) s w); reflexivity.
  - reflexivity.
  - destruct (f s) as [b s']. rewrite IH. simpl.
    destruct (outcome (exec env (k' b) s' w)); reflexivity.
  - destruct (env C q w) as [b w']. rewrite IH. simpl.
    destruct (outcome (exec env (k' b) s w')); reflexivity.
Qed.

Lemma exec_try_except {A : Type} (p : prog A) (h : exn -> prog A) s w :
  exec env (try_except p h) s w =
  let r1 := exec env p s w in
  match outcome r1 with
  | inr a => mkRun (inr a) (final r1) (world r1) (events r1)
  | inl e =>
      let r2 := exec env (h e) (final r1) (world r1) in
      mkRun (outcome r2) (final r2) (world r2) (events r1 ++ events r2)
  end.
Proof.
  revert s w. induction p as [a|e|C f k' IH|C q k' IH]; intros s w; simpl.
  - reflexivity.
  - destruct (exec env (h e) s w); reflexivity.
  - destruct (f s) as [b s']. rewrite IH. simpl.
    destruct (outcome (exec env (k' b) s' w)); reflexivity.
  - destruct (env C q w) as [b w']. rewrite IH. simpl.
    destruct (outcome (exec env (k' b) s w')); reflexivity.
Qed.

(** What [respects] gives for a run: the relation between the first state
    and every later one, and the property of every call made. *)
Lemma exec_respects (R : DaemonState -> DaemonState -> Prop)
    (C : forall B : Type, io B -> Prop) {A : Type} (p : prog A) s w :
  (forall x, R x x) -> (forall x y z, R x y -> R y z -> R x z) ->
  respects R C p ->
  R s (final (exec env p s w)) /\
  Forall (fun c => match c with Called q _ => C _ q | Wrote s' => R s s' end)
         (events (exec env p s w)).
Proof.
  intros Hrefl Htrans. revert s w.
  induction p as [a|e|B f k IH|B q k IH]; intros s w Hp; simpl.
  - split; [apply Hrefl | constructor].
  - split; [apply Hrefl | constructor].
  - destruct (Hp s) as [HR Hk]. destruct (f s) as [b s']; simpl in *.
    destruct (IH b s' w Hk) as [H1 H2].
    split; [eapply Htrans; eauto |].
    constructor; [exact HR |].
    eapply Forall_impl; [exact H2 |].
    intros [D q a|s'']; simpl; [auto | intros H; eapply Htrans; eauto].
  - destruct Hp as [HC Hk]. destruct (env B q w) as [b w']. simpl.
    destruct (IH b s w' (Hk b)) as [H1 H2]. split; [exact H1 | constructor; assumption].
Qed.

End ExecFacts.

(** ** Structural rules for [respects] *)

Section Respects.
Context (R : DaemonState -> DaemonState -> Prop) (C : forall B : Type, io B -> Prop).

Lemma respects_bind {A B : Type} (p : prog A) (k : A -> prog B) :
  respects R C p -> (forall a, respects R C (k a)) -> respects R C (bind p k).
Proof.
  intros Hp Hk. induction p as [a|e|D f k' IH|D q k' IH]; simpl in *.
  - apply Hk.
  - exact I.
  - intros s. destruct (Hp s) as [H1 H2]. split; [exact H1 | apply IH, H2].
  - destruct Hp as [H1 H2]. split; [exact H1 | intros b; apply IH, H2].
Qed.

Lemma respects_try_except {A : Type} (p : prog A) (h : exn -> prog A) :
  respects R C p -> (forall e, respects R C (h e)) -> respects R C (try_except p h).
Proof.
  intros Hp Hh. induction p as [a|e|D f k' IH|D q k' IH]; simpl in *.
  - exact I.
  - apply Hh.
  - intros s. destruct (Hp s) as [H1 H2]. split; [exact H1 | apply IH, H2].
  - destruct Hp as [H1 H2]. split; [exact H1 | intros b; apply IH, H2].
Qed.

Lemma respects_atomic {B : Type} (f : DaemonState -> B * DaemonState) :
  (forall s, R s (f s).2) -> respects R C (atomic f).
Proof. intros H s. split; [apply H | exact I]. Qed.

Lemma respects_read {B : Type} (f : DaemonState -> B) :
  (forall s, R s s) -> respects R C (read f).
Proof. intros H. apply respects_atomic. exact H. Qed.

Lemma respects_modify (f : DaemonState -> DaemonState) :
  (forall s, R s (f s)) -> respects R C (modify f).
Proof. intros H. apply respects_atomic. exact H. Qed.

Lemma respects_call {B : Type} (q : io B) : C _ q -> respects R C (call q).
Proof. intros H. split; [exact H | intros b; exact I]. Qed.

Lemma respects_call_raising {B : Type} (q : io (exn + B)) :
  C _ q -> respects R C (call_raising q).
Proof.
  intros H. unfold call_raising. apply respects_bind.
  - apply respects_call, H.
  - intros [e|b]; exact I.
Qed.

Lemma respects_try_finally {A : Type} (p : prog A) (fin : prog unit) :
  respects R C p -> respects R C fin -> respects R C (try_finally p fin).
Proof.
  intros Hp Hf. unfold try_finally. apply respects_bind.
  - apply respects_try_except; [exact Hp |].
    intros e. apply respects_bind; [exact Hf | intros; exact I].
  - intros a. apply respects_bind; [exact Hf | intros; exact I].
Qed.

End Respects.

Create HintDb resp discriminated.

(** One rule of the proof that a program respects a relation: walk the tree,
    split on the data the code branches on, and use the facts already
    recorded in the database [resp] for the functions it calls. *)
Ltac resp_step :=
  match goal with
  | |- respects _ _ (Ret _) => exact I
  | |- respects _ _ (Throw _) => exact I
  | |- respects _ _ (attribute_error _) => exact I
  | |- respects _ _ (bind _ _) => apply respects_bind; [| intros ?]
  | |- respects _ _ (try_except _ _) => apply respects_try_except; [| intros ?]
  | |- respects _ _ (try_finally _ _) => apply respects_try_finally
  | |- respects _ _ (swallow _) => apply respects_try_except; [| intros ?]
  | |- respects _ _ (read _) => apply respects_read; solve [eauto with resp]
  | |- respects _ _ (modify _) => apply respects_modify; solve [eauto with resp]
  | |- respects _ _ (atomic _) => apply respects_atomic; solve [eauto with resp]
  | |- respects _ _ (call _) => apply respects_call; solve [eauto with resp]
  | |- respects _ _ (call_raising _) =>
      apply respects_call_raising; solve [eauto with resp]
  | |- respects _ _ (match ?x with _ => _ end) => destruct x
  | |- respects _ _ _ => solve [eauto with resp]
  end.

Ltac resp := repeat resp_step.

(** ** Probes and helpers write nothing *)

Section ProbeCode.
Context (cfg : Config) (py : Python).
Context (R : DaemonState -> DaemonState -> Prop) (C : forall B : Type, io B -> Prop).
Hypothesis R_refl : forall s, R s s.
Hypothesis C_get : forall u t, C _ (Urlopen "GET" u None t).
Hypothesis C_misc :
  forall (B : Type) (q : io B),
    service_call B q -> ~ is_urlopen q -> ~ is_signal q -> C B q.
Hypothesis C_signal : forall (B : Type) (q : io B), is_signal q -> C B q.

#[local] Hint Resolve R_refl C_get : resp.
#[local] Hint Extern 2 (C _ _) => (apply C_misc; [split | |]; simpl; tauto) : resp.
#[local] Hint Extern 2 (C _ _) => (apply C_signal; exact I) : resp.

Lemma respects_log msg : respects R C (_log msg).
Proof. unfold _log. resp. Qed.

Lemma respects_tail p : respects R C (_tail p).
Proof. unfold _tail. resp. Qed.

Lemma respects_now : respects R C _now.
Proof. unfold _now. resp. Qed.

Lemma respects_read_payload p : respects R C (read_payload p).
Proof. unfold read_payload. resp. Qed.

Lemma respects_loads raw : respects R C (loads py raw).
Proof. unfold loads. resp. Qed.

#[local] Hint Resolve respects_log respects_tail respects_now respects_read_payload
  respects_loads : resp.

Lemma respects_http_json m u b t :
  C _ (Urlopen m u b t) -> respects R C (_http_json py m u b t).
Proof. intros HC. unfold _http_json. resp. Qed.

Lemma respects_tcp_port_open h p t : respects R C (_tcp_port_open h p t).
Proof. unfold _tcp_port_open. resp. Qed.

#[local] Hint Resolve respects_http_json respects_tcp_port_open : resp.

Lemma respects_stt_running : respects R C (_stt_running cfg py).
Proof. unfold _stt_running. resp. Qed.

Lemma respects_kokoro_running : respects R C (_kokoro_running cfg py).
Proof. unfold _kokoro_running. resp. Qed.

Lemma respects_ollama_running : respects R C (_ollama_running cfg py).
Proof. unfold _ollama_running. resp. Qed.

#[local] Hint Resolve respects_stt_running respects_kokoro_running
  respects_ollama_running : resp.

Lemma respects_wait_loop check n step :
  respects R C check -> respects R C (wait_loop check n step).
Proof.
  intros Hc. revert step. induction n as [|n IH]; intros step; cbn [wait_loop]; resp.
Qed.

Lemma respects_wait_ready check t :
  respects R C check -> respects R C (_wait_ready check t).
Proof. intros Hc. unfold _wait_ready. resp. apply respects_wait_loop, Hc. Qed.

Lemma respects_run_cmd cmd l t : respects R C (_run_cmd py cmd l t).
Proof. unfold _run_cmd. resp. Qed.

Lemma respects_docker_compose_cmd : respects R C _docker_compose_cmd.
Proof. unfold _docker_compose_cmd. resp. Qed.

#[local] Hint Resolve respects_wait_ready respects_run_cmd
  respects_docker_compose_cmd : resp.

Lemma respects_stt_ready_loop n : respects R C (stt_ready_loop cfg py n).
Proof. induction n as [|n IH]; cbn [stt_ready_loop]; resp. Qed.

Lemma respects_popen_hidden cmd o e : respects R C (_popen_hidden cmd o e).
Proof. unfold _popen_hidden. resp. Qed.

Lemma respects_stop_process p : respects R C (stop_process p).
Proof. unfold stop_process. resp. Qed.

Lemma respects_stop_kokoro : respects R C (_stop_kokoro cfg py).
Proof. unfold _stop_kokoro. resp. Qed.

End ProbeCode.

#[export] Hint Extern 1 (service_call _ _) => (split; simpl; tauto) : resp.
#[export] Hint Extern 1 (~ is_urlopen _) => (simpl; tauto) : resp.
#[export] Hint Extern 1 (~ is_signal _) => (simpl; tauto) : resp.
#[export] Hint Resolve respects_log respects_tail respects_now respects_read_payload
  respects_loads respects_http_json respects_tcp_port_open respects_stt_running
  respects_kokoro_running respects_ollama_running respects_wait_ready
  respects_run_cmd respects_docker_compose_cmd respects_stt_ready_loop
  respects_popen_hidden respects_stop_process respects_stop_kokoro : resp.

(** ** Service-level code touches only the process handles *)

Section ServiceCode.
Context (cfg : Config) (py : Python).
Context (R : DaemonState -> DaemonState -> Prop) (C : forall B : Type, io B -> Prop).
Hypothesis R_refl : forall s, R s s.
Hypothesis R_stt_proc : forall x s, R s (with_stt_proc x s).
Hypothesis R_ollama_proc : forall x s, R s (with_ollama_proc x s).
Hypothesis R_ollama_managed : forall x s, R s (with_ollama_managed x s).
Hypothesis C_get : forall u t, C _ (Urlopen "GET" u None t).
Hypothesis C_post : forall u b t, C _ (Urlopen "POST" u b t).
Hypothesis C_misc :
  forall (B : Type) (q : io B),
    service_call B q -> ~ is_urlopen q -> ~ is_signal q -> C B q.
Hypothesis C_signal : forall (B : Type) (q : io B), is_signal q -> C B q.

#[local] Hint Resolve R_refl R_stt_proc R_ollama_proc R_ollama_managed C_get C_post
  : resp.
#[local] Hint Extern 2 (C _ _) => (apply C_misc; [split | |]; simpl; tauto) : resp.
#[local] Hint Extern 2 (C _ _) => (apply C_signal; exact I) : resp.

Lemma respects_ollama_warm m : respects R C (_ollama_warm cfg py m).
Proof. unfold _ollama_warm. resp. Qed.

Lemma respects_ollama_unload m : respects R C (_ollama_unload cfg py m).
Proof. unfold _ollama_unload. resp. Qed.

#[local] Hint Resolve respects_ollama_unload : resp.

Lemma respects_ensure_stt : respects R C (_ensure_stt cfg py).
Proof. unfold _ensure_stt. resp. Qed.

Lemma respects_ensure_kokoro : respects R C (_ensure_kokoro cfg py).
Proof. unfold _ensure_kokoro. resp. Qed.

Lemma respects_ensure_ollama_server : respects R C (_ensure_ollama_server cfg py).
Proof. unfold _ensure_ollama_server. resp. Qed.

Lemma respects_stop_stt : respects R C _stop_stt.
Proof. unfold _stop_stt. resp. Qed.

Lemma respects_stop_ollama : respects R C _stop_ollama.
Proof. unfold _stop_ollama. resp. Qed.

#[local] Hint Resolve respects_stop_stt respects_stop_ollama : resp.

Lemma respects_idle_teardown warm : respects R C (idle_teardown cfg py warm).
Proof. unfold idle_teardown. resp. Qed.

End ServiceCode.

#[export] Hint Resolve respects_ensure_stt respects_ensure_kokoro
  respects_ensure_ollama_server respects_ollama_warm respects_ollama_unload
  respects_stop_stt respects_stop_ollama respects_idle_teardown : resp.

(** ** Lease registry *)

Lemma exec_write_json {W : Type} (env : forall B : Type, io B -> W -> B * W)
    code obj s w :
  final (exec env (_write_json code obj) s w) = s /\
  outcome (exec env (_write_json code obj) s w) = inr tt /\
  responses (events (exec env (_write_json code obj) s w)) = [(code, obj)].
Proof.
  unfold _write_json, call. simpl.
  destruct (env unit (SendResponse code obj) w) as [[] w']. simpl. auto.
Qed.






(** ** Lease ids *)

Lemma string_of_uint_no_underscore (d : Decimal.uint) :
  has_underscore (NilEmpty.string_of_uint d) = false.
Proof. induction d; simpl; auto. Qed.

Lemma py_str_int_no_underscore (z : Z) : has_underscore (py_str_int z) = false.
Proof.
  unfold py_str_int, NilZero.string_of_int, NilZero.string_of_uint.
  destruct (Z.to_int z) as [d|d]; destruct d; simpl;
    auto using string_of_uint_no_underscore.
Qed.

Lemma norm_not_nil (d : Decimal.signed_int) :
  Decimal.norm d <> Decimal.Pos Decimal.Nil /\ Decimal.norm d <> Decimal.Neg Decimal.Nil.
Proof.
  destruct d as [u|u]; simpl.
  - split; [| discriminate]. intros H. injection H as H.
    exact (DecimalFacts.unorm_nonnil u H).
  - destruct (Decimal.nzhead u); split; discriminate.
Qed.

Lemma py_str_int_inj (z z' : Z) : py_str_int z = py_str_int z' -> z = z'.
Proof.
  unfold py_str_int. intros H. apply DecimalZ.to_int_inj.
  assert (Hn : forall x, Z.to_int x = Decimal.norm (Z.to_int x)).
  { intros x. rewrite <- DecimalZ.to_of. rewrite DecimalZ.of_to. reflexivity. }
  apply (f_equal NilZero.int_of_string) in H.
  rewrite (Hn z), (Hn z') in H.
  rewrite !NilZero.isi in H by apply norm_not_nil.
  rewrite (Hn z), (Hn z'). congruence.
Qed.

(** Two texts without underscore, each followed by an underscore: equal
    wholes have equal parts. *)
Lemma split_at_underscore (a a' r r' : string) :
  has_underscore a = false -> has_underscore a' = false ->
  a +:+ String "_" r = a' +:+ String "_" r' -> a = a' /\ r = r'.
Proof.
  revert a'. induction a as [|c a IH]; intros [|c' a'] Ha Ha' H; simpl in *.
  - injection H as H. auto.
  - injection H as Hc H. subst c'. simpl in Ha'. discriminate.
  - injection H as Hc H. subst c. simpl in Ha. discriminate.
  - injection H as Hc H. subst c'.
    apply orb_false_iff in Ha as [_ Ha]. apply orb_false_iff in Ha' as [_ Ha'].
    destruct (IH a' Ha Ha' H) as [-> ->]. auto.
Qed.

(** The id is an injective function of the wall-clock millisecond, the pid
    and the thread identifier: two acquisitions get the same id exactly when
    all three coincide. *)
Lemma make_lease_id_inj (ms pid ident ms' pid' ident' : Z) :
  make_lease_id ms pid ident = make_lease_id ms' pid' ident' ->
  ms = ms' /\ pid = pid' /\ ident = ident'.
Proof.
  unfold make_lease_id. intros H. simpl in H. injection H as H.
  apply split_at_underscore in H as [H1 H]; auto using py_str_int_no_underscore.
  apply split_at_underscore in H as [H2 H3]; auto using py_str_int_no_underscore.
  auto using py_str_int_inj.
Qed.

(** C8 fails on the code.  Two [/lease/acquire] requests served within the
    same wall-clock millisecond by threads with the same identifier (the
    identifier of a finished handler thread is reused) are given the same
    [lease_id]; the second acquisition overwrites the first, and the map
    holds one lease for two clients. *)
Theorem C8_same_millisecond_collision :
  let r1 := exec healthy_env
              (do_POST default_config sample_python (sample_post "/lease/acquire"))
              (DaemonState_init 0) 100 in
  let r2 := exec healthy_env
              (do_POST default_config sample_python (sample_post "/lease/acquire"))
              (final r1) (world r1) in
  responses (events r1)
    = [(200, acquire_body default_config "l1700000000000_4242_140001")] /\
  responses (events r2) = responses (events r1) /\
  size (leases (final r1)) = 1%nat /\
  size (leases (final r2)) = 1%nat.
Proof. vm_compute. auto. Qed.

(** ** Idle gating *)

Section IdleGating.
Context (cfg : Config).

Lemma replay_app h1 h2 s : replay cfg (h1 ++ h2) s = replay cfg h2 (replay cfg h1 s).
Proof. unfold replay. apply fold_left_app. Qed.

Lemma chronological_from_snoc t h e :
  chronological_from t (h ++ [e]) = true ->
  chronological_from t h = true /\ t <= ev_time e /\
  Forall (fun e' => ev_time e' <= ev_time e) h.
Proof.
  revert t. induction h as [|x h IH]; intros t H; simpl in *.
  - apply andb_true_iff in H as [H _]. apply Z.leb_le in H. auto.
  - apply andb_true_iff in H as [H1 H2]. apply Z.leb_le in H1.
    destruct (IH _ H2) as (H3 & H4 & H5).
    rewrite H3. split; [apply andb_true_iff; split; [apply Z.leb_le; lia | reflexivity] |].
    split; [lia |]. constructor; [lia | exact H5].
Qed.

Lemma chronological_snoc h e :
  chronological (h ++ [e]) = true ->
  chronological h = true /\ Forall (fun e' => ev_time e' <= ev_time e) h.
Proof.
  destruct h as [|x h]; simpl; intros H; [auto |].
  destruct (chronological_from_snoc _ _ _ H) as (H1 & H2 & H3). auto.
Qed.

(** Every block leaves the stamp alone or sets it to its own reading. *)
Lemma stamp_kept_or_set s e :
  last_zero_lease_time (apply_event cfg s e) = last_zero_lease_time s \/
  last_zero_lease_time (apply_event cfg s e) = ev_time e.
Proof.
  destruct e as [id body a b|id now|id now|now|now]; simpl; auto.
  - unfold heartbeat_locked. destruct (leases s !! id); auto.
  - unfold release_locked. case_decide; auto.
  - unfold reaper_locked. case_decide; auto.
Qed.

Lemma stamp_set_when_lease_seen s e :
  sees_lease cfg s e -> last_zero_lease_time (apply_event cfg s e) = ev_time e.
Proof.
  destruct e as [id body a b|id now|id now|now|now]; simpl; try tauto.
  unfold reaper_locked. case_decide as Hsz; simpl; [| auto].
  intros H. apply map_size_empty_iff in Hsz. contradiction.
Qed.

(** Along a chronological history the stamp is never older than a block that
    saw a lease. *)
Lemma stamp_bounds_lease_sightings h s0 :
  chronological h = true ->
  forall h1 e h2, h = h1 ++ e :: h2 ->
    sees_lease cfg (replay cfg h1 s0) e ->
    ev_time e <= last_zero_lease_time (replay cfg h s0).
Proof.
  induction h as [|x h IH] using rev_ind; intros Hc h1 e h2 Heq Hsee.
  - destruct h1; discriminate.
  - destruct (chronological_snoc _ _ Hc) as [Hc' Hle].
    rewrite replay_app. simpl.
    destruct h2 as [|y h2 _] using rev_ind.
    + apply app_inj_tail in Heq as [-> ->].
      rewrite stamp_set_when_lease_seen by exact Hsee. lia.
    + rewrite app_comm_cons, app_assoc in Heq.
      apply app_inj_tail in Heq as [-> ->].
      specialize (IH Hc' h1 e h2 eq_refl Hsee).
      assert (He : ev_time e <= ev_time y).
      { rewrite Forall_forall in Hle. apply Hle. set_solver. }
      destruct (stamp_kept_or_set (replay cfg (h1 ++ e :: h2) s0) y) as [-> | ->]; lia.
Qed.


End IdleGating.



(** ** The status endpoint *)

Lemma never_throws_bind {A B : Type} (p : prog A) (k : A -> prog B) :
  never_throws p -> (forall a, never_throws (k a)) -> never_throws (bind p k).
Proof.
  intros Hp Hk. induction p as [a|e|D f k' IH|D q k' IH]; simpl in *; auto.
Qed.

(** A [try] whose handler cannot raise cannot raise. *)
Lemma never_throws_try_except {A : Type} (p : prog A) (h : exn -> prog A) :
  (forall e, never_throws (h e)) -> never_throws (try_except p h).
Proof. intros Hh. induction p as [a|e|D f k' IH|D q k' IH]; simpl in *; auto. Qed.

Lemma never_throws_exec {W : Type} (env : forall B : Type, io B -> W -> B * W)
    {A : Type} (p : prog A) s w :
  never_throws p -> exists a, outcome (exec env p s w) = inr a.
Proof.
  revert s w. induction p as [a|e|D f k IH|D q k IH]; intros s w Hp; simpl in *.
  - eauto.
  - contradiction.
  - specialize (Hp s). destruct (f s) as [b s']. apply IH, Hp.
  - destruct (env D q w) as [b w']. simpl. apply IH, Hp.
Qed.

Lemma responses_app (a b : list event) :
  responses (a ++ b) = responses a ++ responses b.
Proof. unfold responses. rewrite map_app, concat_app. reflexivity. Qed.

Lemma responses_wrote (s : DaemonState) (l : list event) :
  responses (Wrote s :: l) = responses l.
Proof. reflexivity. Qed.

Lemma starts_app (a b : list event) : starts (a ++ b) = starts a ++ starts b.
Proof. unfold starts. rewrite map_app, concat_app. reflexivity. Qed.

Lemma no_responses_of_service_calls (cs : list event) :
  Forall (fun c => match c with Called q _ => service_call _ q | Wrote _ => True end)
         cs ->
  responses cs = [] /\ starts cs = [].
Proof.
  induction 1 as [|c cs Hc _ [IH1 IH2]]; [auto |].
  unfold responses, starts in *. simpl. rewrite IH1, IH2.
  destruct c as [B q b|s]; [| auto]. destruct Hc as [H1 H2].
  destruct q; simpl in *; try tauto; auto.
Qed.

(** How a program that cannot raise and writes nothing composes. *)
Lemma exec_bind_pure {W : Type} (env : forall B : Type, io B -> W -> B * W)
    {A B : Type} (p : prog A) (k : A -> prog B) s w :
  never_throws p -> respects unchanged service_call p ->
  exists a w1 cs,
    outcome (exec env p s w) = inr a /\
    responses cs = [] /\
    exec env (bind p k) s w =
      let r2 := exec env (k a) s w1 in
      mkRun (outcome r2) (final r2) (world r2) (cs ++ events r2).
Proof.
  intros Ht Hr.
  destruct (never_throws_exec env p s w Ht) as [a Ha].
  destruct (exec_respects env unchanged service_call p s w) as [Hs Hc]; auto.
  { unfold unchanged. congruence. }
  { unfold unchanged. congruence. }
  exists a, (world (exec env p s w)), (events (exec env p s w)).
  split; [exact Ha |].
  split.
  { apply no_responses_of_service_calls. eapply Forall_impl; [exact Hc |].
    intros [D q b|s']; auto. }
  rewrite exec_bind. cbv zeta. rewrite Ha. unfold unchanged in Hs. rewrite Hs.
  reflexivity.
Qed.

Section Status.
Context (cfg : Config) (py : Python).

Lemma http_json_never_throws m u b t : never_throws (_http_json py m u b t).
Proof.
  unfold _http_json. apply never_throws_try_except.
  intros [code msg pl|msg]; [| exact I].
  apply never_throws_try_except. intros e. exact I.
Qed.

Lemma tcp_port_open_never_throws h p t : never_throws (_tcp_port_open h p t).
Proof. unfold _tcp_port_open. apply never_throws_try_except. intros e. exact I. Qed.

Lemma stt_running_never_throws : never_throws (_stt_running cfg py).
Proof.
  unfold _stt_running.
  refine (never_throws_bind _ _ (http_json_never_throws _ _ _ _) _).
  intros [code body]. exact I.
Qed.

Lemma kokoro_running_never_throws : never_throws (_kokoro_running cfg py).
Proof.
  unfold _kokoro_running.
  refine (never_throws_bind _ _ (tcp_port_open_never_throws _ _ _) _).
  intros [|]; cbn [negb]; [| exact I].
  refine (never_throws_bind _ _ (http_json_never_throws _ _ _ _) _).
  intros [code body]. exact I.
Qed.

Lemma ollama_running_never_throws : never_throws (_ollama_running cfg py).
Proof.
  unfold _ollama_running.
  refine (never_throws_bind _ _ (http_json_never_throws _ _ _ _) _).
  intros [code body]. exact I.
Qed.

(** What [_http_json] makes of each answer of [urlopen]. *)
Lemma http_json_outcome {W : Type} (env : forall B : Type, io B -> W -> B * W)
    m u b t s w :
  let r := exec env (_http_json py m u b t) s w in
  final r = s /\
  match (env _ (Urlopen m u b t) w).1 with
  | inl (Exception _) => outcome r = inr (0, None)
  | inl (HTTPError code _ None) => outcome r = inr (code, None)
  | inl (HTTPError code _ (Some raw)) =>
      outcome r = inr (code, if is_empty_bytes raw then None else json_loads py raw)
  | inr resp =>
      match payload resp with
      | None => outcome r = inr (0, None)
      | Some raw =>
          outcome r = inr (status resp,
                           if is_empty_bytes raw then None else json_loads py raw)
      end
  end.
Proof.
  unfold _http_json, call_raising, call, read_payload, loads. cbn [bind try_except exec].
  destruct (env _ (Urlopen m u b t) w) as [[[code msg [raw|]|msg]|[st [raw|]]] w1];
    cbn; auto.
  - destruct raw; cbn; auto. destruct (json_loads py _); cbn; auto.
  - destruct raw; cbn; auto. destruct (json_loads py _); cbn; auto.
Qed.

(** A probe answers [false] unless the service answered 200 with a JSON
    object. *)
Lemma http_json_failed {W : Type} (env : forall B : Type, io B -> W -> B * W)
    u t s w (test : option json -> bool) :
  test None = false ->
  failed_answer py (env _ (Urlopen "GET" u None t) w).1 ->
  let r := exec env (_http_json py "GET" u None t) s w in
  exists code body, outcome r = inr (code, body) /\ (code =? 200) && test body = false.
Proof.
  intros Htest H. cbv zeta.
  pose proof (http_json_outcome env "GET" u None t s w) as [_ Ho].
  unfold failed_answer in H.
  destruct ((env _ (Urlopen "GET" u None t) w).1)
    as [[code msg [raw|]|msg]|[st [raw|]]]; cbn in *;
    eexists _, _; (split; [exact Ho |]); rewrite ?Htest.
  - apply Z.eqb_neq in H. rewrite H. reflexivity.
  - apply Z.eqb_neq in H. rewrite H. reflexivity.
  - reflexivity.
  - destruct H as [H|[H|(raw' & H1 & H2)]].
    + apply Z.eqb_neq in H. rewrite H. reflexivity.
    + discriminate.
    + injection H1 as ->. rewrite H2.
      destruct (is_empty_bytes raw'), (st =? 200); rewrite ?Htest; reflexivity.
  - reflexivity.
Qed.

Lemma stt_running_false_verdict {W : Type}
    (env : forall B : Type, io B -> W -> B * W) s w :
  failed_answer py (env _ (Urlopen "GET" (STT_HEALTH_URL cfg) None 600) w).1 ->
  outcome (exec env (_stt_running cfg py) s w) = inr false.
Proof.
  intros H. unfold _stt_running. rewrite exec_bind. cbv zeta.
  destruct (http_json_failed env (STT_HEALTH_URL cfg) 600 s w body_is_ok eq_refl H)
    as (code & body & Ho & Hv).
  rewrite Ho. cbn. rewrite Hv. reflexivity.
Qed.

Lemma ollama_running_false_verdict {W : Type}
    (env : forall B : Type, io B -> W -> B * W) s w :
  failed_answer py (env _ (Urlopen "GET" (OLLAMA_VERSION_URL cfg) None 600) w).1 ->
  outcome (exec env (_ollama_running cfg py) s w) = inr false.
Proof.
  intros H. unfold _ollama_running. rewrite exec_bind. cbv zeta.
  destruct (http_json_failed env (OLLAMA_VERSION_URL cfg) 600 s w (body_has "version")
              eq_refl H) as (code & body & Ho & Hv).
  rewrite Ho. cbn. rewrite Hv. reflexivity.
Qed.

Lemma kokoro_running_false_verdict {W : Type}
    (env : forall B : Type, io B -> W -> B * W) s w :
  match env _ (CreateConnection (KOKORO_HOST cfg) (KOKORO_PORT cfg) 250) w with
  | (inl _, _) => True
  | (inr _, w1) =>
      failed_answer py (env _ (Urlopen "GET" (KOKORO_VOICES_URL cfg) None 800) w1).1
  end ->
  outcome (exec env (_kokoro_running cfg py) s w) = inr false.
Proof.
  intros H. unfold _kokoro_running, _tcp_port_open, call_raising, call.
  cbn [bind try_except exec].
  destruct (env _ (CreateConnection (KOKORO_HOST cfg) (KOKORO_PORT cfg) 250) w)
    as [[e|[]] w1]; cbn [bind try_except exec negb fst snd outcome]; [reflexivity |].
  rewrite exec_bind. cbv zeta.
  destruct (http_json_failed env (KOKORO_VOICES_URL cfg) 800 s w1 (body_has "voices")
              eq_refl H) as (code & body & Ho & Hv).
  rewrite Ho. cbn. rewrite Hv. reflexivity.
Qed.


End Status.


(** ** The ensure pipeline *)

Lemma stages_of_app (a b : list event) : stages_of (a ++ b) = stages_of a ++ stages_of b.
Proof. unfold stages_of. rewrite map_app, concat_app. reflexivity. Qed.

Lemma posts_app (a b : list event) : posts (a ++ b) = posts a ++ posts b.
Proof. unfold posts. rewrite map_app, concat_app. reflexivity. Qed.

Lemma changes_app_const (cur : string) (l1 l2 : list string) :
  Forall (fun x => x = cur) l1 -> changes cur (l1 ++ l2) = changes cur l2.
Proof.
  induction 1 as [|x l1 Hx _ IH]; simpl; [reflexivity |].
  subst x. rewrite String.eqb_refl. exact IH.
Qed.

Lemma same_but_handles_refl s : same_but_handles s s.
Proof. unfold same_but_handles. tauto. Qed.

Lemma same_but_handles_trans s1 s2 s3 :
  same_but_handles s1 s2 -> same_but_handles s2 s3 -> same_but_handles s1 s3.
Proof. unfold same_but_handles. intuition congruence. Qed.

(** The side conditions of a frame fact about service code. *)
Ltac driver_side :=
  unfold same_but_handles, not_post; simpl; try tauto;
  try (intros; split; [split |]; simpl; try tauto; discriminate);
  try (intros B q Hs Hu; split; [exact Hs |]; destruct q; simpl in *; tauto).

Lemma stages_of_wrote s l : stages_of (Wrote s :: l) = stage s :: stages_of l.
Proof. reflexivity. Qed.

Lemma posts_wrote s l : posts (Wrote s :: l) = posts l.
Proof. reflexivity. Qed.

Lemma starts_wrote s l : starts (Wrote s :: l) = starts l.
Proof. reflexivity. Qed.

Lemma changes_step (cur x : string) (l rest : list string) :
  x <> cur -> Forall (fun y => y = x) l ->
  changes cur (x :: l ++ rest) = x :: changes x rest.
Proof.
  intros Hne Hl. simpl. apply String.eqb_neq in Hne. rewrite Hne.
  rewrite changes_app_const by exact Hl. reflexivity.
Qed.

Lemma changes_const (cur : string) (l : list string) :
  Forall (fun y => y = cur) l -> changes cur l = [].
Proof.
  intros Hl. rewrite <- (app_nil_r l). rewrite changes_app_const by exact Hl.
  reflexivity.
Qed.

Lemma changes_step_last (cur x : string) (l : list string) :
  x <> cur -> Forall (fun y => y = x) l -> changes cur (x :: l) = [x].
Proof.
  intros Hne Hl. rewrite <- (app_nil_r l). rewrite changes_step by assumption.
  reflexivity.
Qed.

Lemma changes_cons (cur x : string) (rest : list string) :
  changes cur (x :: rest)
  = (if String.eqb x cur then [] else [x]) ++ changes x rest.
Proof.
  simpl. destruct (String.eqb x cur) eqn:E; [| reflexivity].
  apply String.eqb_eq in E. subst x. reflexivity.
Qed.

(** Evaluate the comparisons of two literal strings. *)
Ltac eval_eqb :=
  repeat match goal with
  | |- context [String.eqb ?a ?b] =>
      let v := eval vm_compute in (String.eqb a b) in
      match v with
      | true => change (String.eqb a b) with true
      | false => change (String.eqb a b) with false
      end
  end.

Ltac changes_norm :=
  repeat first [ rewrite changes_cons
               | rewrite changes_app_const by assumption
               | rewrite changes_const by assumption ];
  cbn [changes app]; eval_eqb; cbn [app].

(** Read the observations off the events of a finished case. *)
Ltac pipeline_leaf :=
  rewrite ?stages_of_wrote, ?posts_wrote, ?responses_wrote, ?starts_wrote,
    ?stages_of_app, ?posts_app, ?responses_app, ?starts_app,
    ?stages_of_wrote, ?posts_wrote, ?responses_wrote, ?starts_wrote,
    ?stages_of_app, ?posts_app, ?responses_app, ?starts_app,
    ?stages_of_wrote, ?posts_wrote, ?responses_wrote, ?starts_wrote,
    ?stages_of_app, ?posts_app, ?responses_app, ?starts_app,
    ?stages_of_wrote, ?posts_wrote, ?responses_wrote, ?starts_wrote,
    ?stages_of_app, ?posts_app, ?responses_app, ?starts_app,
    ?stages_of_wrote, ?posts_wrote, ?responses_wrote, ?starts_wrote;
  cbn [stage with_stage with_warm_done with_warm_model ensuring last_error leases
       warm_model warm_done];
  repeat match goal with
  | H : posts _ = _ |- _ => rewrite H
  | H : responses _ = _ |- _ => rewrite H
  | H : starts _ = _ |- _ => rewrite H
  end;
  repeat match goal with
  | H : stage ?x = _ |- context [stage ?x] => rewrite H
  end;
  rewrite <- ?app_assoc; cbn [app stages_of concat map stage_of];
  repeat split; try congruence.

Ltac pipeline_count model :=
  unfold pipeline; destruct (truthy_str model); cbn [app take length];
  (split; [lia |]); (split; [changes_norm; reflexivity |]);
  left; repeat split; try lia; congruence.

Section Pipeline.
Context (cfg : Config) (py : Python).
Context {W : Type} (env : forall B : Type, io B -> W -> B * W).

(** A piece of service code that sends no [POST]: during its run the stage
    stays what it was, nothing but the process handles changes, and no
    [generate] request goes out. *)
Lemma driver_facts {A : Type} (p : prog A) s w :
  respects same_but_handles not_post p ->
  let r := exec env p s w in
  same_but_handles s (final r) /\
  Forall (fun x => x = stage s) (stages_of (events r)) /\
  posts (events r) = [] /\ responses (events r) = [] /\ starts (events r) = [].
Proof.
  intros Hp r.
  pose proof (exec_respects env same_but_handles not_post p s w
                same_but_handles_refl same_but_handles_trans Hp) as [H1 H2].
  fold r in H1, H2. split; [exact H1 |].
  induction H2 as [|c cs Hc _ (IH1 & IH2 & IH3 & IH4)];
    [repeat split; constructor |].
  unfold stages_of, posts, responses, starts in *. simpl.
  rewrite IH2, IH3, IH4. rewrite !app_nil_r.
  destruct c as [D q b|s']; simpl.
  - destruct Hc as [[Hs Hr] Hpost].
    destruct q; simpl in *; try tauto; try (repeat split; auto; fail).
    destruct (String.eqb method "POST") eqn:E; [| repeat split; auto].
    apply String.eqb_eq in E. contradiction.
  - repeat split; auto. constructor; [apply Hc | exact IH1].
Qed.

Lemma ensure_ollama_server_driver :
  respects same_but_handles not_post (_ensure_ollama_server cfg py).
Proof.
  apply respects_ensure_ollama_server; driver_side.
Qed.

Lemma ensure_stt_driver : respects same_but_handles not_post (_ensure_stt cfg py).
Proof.
  apply respects_ensure_stt; driver_side.
Qed.

Lemma ensure_kokoro_driver : respects same_but_handles not_post (_ensure_kokoro cfg py).
Proof.
  apply respects_ensure_kokoro; driver_side.
Qed.

(** The run of the warm-up request. *)
Lemma ollama_warm_run m s w :
  let r := exec env (_ollama_warm cfg py m) s w in
  final r = s /\
  Forall (fun x => x = stage s) (stages_of (events r)) /\
  posts (events r)
    = [(OLLAMA_GENERATE_URL cfg,
        Some (generate_payload m (VStr (OLLAMA_KEEP_ALIVE cfg))))] /\
  responses (events r) = [] /\ starts (events r) = [].
Proof.
  unfold _ollama_warm, _http_json, call_raising, call, read_payload, loads.
  cbn [bind try_except exec].
  destruct (env _ (Urlopen "POST" (OLLAMA_GENERATE_URL cfg)
                     (Some (generate_payload m (VStr (OLLAMA_KEEP_ALIVE cfg))))
                     (OLLAMA_WARM_TIMEOUT_S cfg)) w)
    as [[[code msg [raw|]|msg]|[st [raw|]]] w1]; cbn.
  - destruct raw; cbn; [destruct (code =? 200); cbn; repeat split; constructor |].
    destruct (json_loads py _); cbn; destruct (code =? 200); cbn;
      repeat split; constructor.
  - destruct (code =? 200); cbn; repeat split; constructor.
  - repeat split; constructor.
  - destruct raw; cbn; [destruct (st =? 200); cbn; repeat split; constructor |].
    destruct (json_loads py _); cbn; destruct (st =? 200); cbn;
      repeat split; constructor.
  - repeat split; constructor.
Qed.

(** What a run of [_ensure_all] looks like, case by case.  [n] counts the
    stages entered before a failure. *)
Lemma ensure_all_cases model s w :
  let r := exec env (_ensure_all cfg py model) s w in
  ensuring (final r) = ensuring s /\ last_error (final r) = last_error s /\
  leases (final r) = leases s /\
  responses (events r) = [] /\ starts (events r) = [] /\
  match outcome r with
  | inr _ =>
      stage_changes s (events r) = changes (stage s) (pipeline model) /\
      stage (final r) = "ready"%string /\
      warm_model (final r) = model /\
      warm_done (final r) = truthy_str model /\
      posts (events r) = if truthy_str model then [warm_post cfg model] else []
  | inl e =>
      exists n : nat,
        (1 <= n < length (pipeline model))%nat /\
        stage_changes s (events r) = changes (stage s) (take n (pipeline model)) /\
        ((n <= 3)%nat /\ warm_model (final r) = warm_model s /\
         warm_done (final r) = warm_done s /\ posts (events r) = []
         \/
         n = 4%nat /\ truthy_str model = true /\ warm_model (final r) = model /\
         warm_done (final r) = false /\ posts (events r) = [warm_post cfg model])
  end.
Proof.
  cbv zeta. unfold _ensure_all, stage_changes, set_stage, modify, atomic.
  cbn [bind exec fst snd outcome final world events].
  (* ensure:ollama_server *)
  rewrite exec_bind. cbv zeta.
  pose proof (driver_facts (_ensure_ollama_server cfg py)
                (with_stage "ensure:ollama_server" s) w
                ensure_ollama_server_driver) as (F1 & S1 & P1 & R1 & T1).
  destruct (exec env (_ensure_ollama_server cfg py)
              (with_stage "ensure:ollama_server" s) w) as [[e1|[]] s1 w1 ev1];
    cbn [outcome final world events] in *;
    unfold same_but_handles in F1; cbn in F1, S1;
    destruct F1 as (F1a & F1b & F1c & F1d & F1e & F1f & F1g & F1h).
  { pipeline_leaf. exists 1%nat. pipeline_count model. }
  (* ensure:stt *)
  cbn [bind exec fst snd outcome final world events].
  rewrite exec_bind. cbv zeta.
  pose proof (driver_facts (_ensure_stt cfg py) (with_stage "ensure:stt" s1) w1
                ensure_stt_driver) as (F2 & S2 & P2 & R2 & T2).
  destruct (exec env (_ensure_stt cfg py) (with_stage "ensure:stt" s1) w1)
    as [[e2|[]] s2 w2 ev2];
    cbn [outcome final world events] in *;
    unfold same_but_handles in F2; cbn in F2, S2;
    destruct F2 as (F2a & F2b & F2c & F2d & F2e & F2f & F2g & F2h).
  { pipeline_leaf. exists 2%nat. pipeline_count model. }
  (* ensure:kokoro *)
  cbn [bind exec fst snd outcome final world events].
  rewrite exec_bind. cbv zeta.
  pose proof (driver_facts (_ensure_kokoro cfg py) (with_stage "ensure:kokoro" s2) w2
                ensure_kokoro_driver) as (F3 & S3 & P3 & R3 & T3).
  destruct (exec env (_ensure_kokoro cfg py) (with_stage "ensure:kokoro" s2) w2)
    as [[e3|[]] s3 w3 ev3];
    cbn [outcome final world events] in *;
    unfold same_but_handles in F3; cbn in F3, S3;
    destruct F3 as (F3a & F3b & F3c & F3d & F3e & F3f & F3g & F3h).
  { pipeline_leaf. exists 3%nat. pipeline_count model. }
  (* the warm state and the warm-up *)
  cbn [bind exec fst snd outcome final world events].
  destruct (truthy_str model) eqn:Hm.
  - cbn [bind exec fst snd outcome final world events].
    rewrite !exec_bind. cbv zeta.
    pose proof (ollama_warm_run (default EmptyString model)
                  (with_stage "ensure:ollama_warm"
                     (with_warm_done false (with_warm_model model s3))) w3)
      as (F4 & S4 & P4 & R4 & T4).
    destruct (exec env (_ollama_warm cfg py (default EmptyString model))
                (with_stage "ensure:ollama_warm"
                   (with_warm_done false (with_warm_model model s3))) w3)
      as [[e4|[]] s4 w4 ev4];
      cbn [outcome final world events] in *; cbn in S4; subst s4.
    + pipeline_leaf. exists 4%nat. unfold pipeline. rewrite Hm. cbn [app take length].
      split; [lia |]. split; [changes_norm; reflexivity |].
      right. repeat split; reflexivity.
    + cbn [bind exec fst snd outcome final world events].
      pipeline_leaf. unfold pipeline. rewrite Hm. cbn [app].
      changes_norm. reflexivity.
  - cbn [bind exec fst snd outcome final world events].
    pipeline_leaf. unfold pipeline. rewrite Hm. cbn [app].
    changes_norm. reflexivity.
Qed.

(** The run of the worker thread around the run of the pipeline. *)
Lemma worker_run model s w :
  let r0 := exec env (_ensure_all cfg py model) s w in
  let r := exec env (worker cfg py model) s w in
  outcome r = inr tt /\
  match outcome r0 with
  | inr _ =>
      final r = with_ensuring false (final r0) /\
      events r = events r0 ++ [Wrote (with_ensuring false (final r0))]
  | inl e =>
      let s1 := with_last_error (Some (str_exn e)) (final r0) in
      let s2 := with_stage "error" s1 in
      let s3 := with_ensuring false s2 in
      final r = s3 /\
      events r = events r0 ++
        [Wrote s1; Wrote s2; Called (Log ("ensure error: " +:+ str_exn e)) tt; Wrote s3]
  end.
Proof.
  cbv zeta. unfold worker, try_finally.
  rewrite exec_bind, !exec_try_except. cbv zeta.
  destruct (exec env (_ensure_all cfg py model) s w) as [[e|[]] s' w' ev'];
    cbn [outcome final world events].
  - unfold set_error, set_stage, modify, atomic, _log, call.
    cbn [bind exec fst snd outcome final world events].
    destruct (env unit (Log ("ensure error: " +:+ str_exn e)) w') as [[] w''].
    cbn. rewrite <- !app_assoc. auto.
  - unfold modify, atomic. cbn. auto.
Qed.

Lemma changes_app (cur : string) (l1 l2 : list string) :
  changes cur (l1 ++ l2)
  = changes cur l1 ++ changes (fold_left (fun _ x => x) l1 cur) l2.
Proof.
  revert cur. induction l1 as [|x l1 IH]; intros cur; simpl; [reflexivity |].
  destruct (String.eqb x cur) eqn:E.
  - apply String.eqb_eq in E. subst x. apply IH.
  - simpl. rewrite IH. reflexivity.
Qed.

Lemma changes_last (cur : string) (l : list string) :
  fold_left (fun _ x => x) (changes cur l) cur = fold_left (fun _ x => x) l cur.
Proof.
  revert cur. induction l as [|x l IH]; intros cur; simpl; [reflexivity |].
  destruct (String.eqb x cur) eqn:E.
  - apply String.eqb_eq in E. subst x. apply IH.
  - simpl. apply IH.
Qed.

Lemma exec_last_stage {A : Type} (p : prog A) s w :
  fold_left (fun _ x => x) (stages_of (events (exec env p s w))) (stage s)
  = stage (final (exec env p s w)).
Proof.
  revert s w. induction p as [a|e|B f k IH|B q k IH]; intros s w; simpl; auto.
  - destruct (f s) as [b s']. simpl. apply IH.
  - destruct (env B q w) as [b w']. simpl. apply IH.
Qed.

(** The progression of [stage] in a run of the worker. *)
Lemma worker_stage_changes model s w :
  stage s = "starting"%string ->
  let r0 := exec env (_ensure_all cfg py model) s w in
  let r := exec env (worker cfg py model) s w in
  match outcome r0 with
  | inr _ => stage_changes s (events r) = pipeline model
  | inl e =>
      exists n : nat,
        (1 <= n < length (pipeline model))%nat /\
        stage_changes s (events r) = take n (pipeline model) ++ ["error"%string]
  end.
Proof.
  intros Hs. cbv zeta.
  pose proof (ensure_all_cases model s w) as (_ & _ & _ & _ & _ & Hc).
  pose proof (worker_run model s w) as [_ Hw].
  pose proof (exec_last_stage (_ensure_all cfg py model) s w) as Hl.
  cbv zeta in Hc, Hw.
  destruct (outcome (exec env (_ensure_all cfg py model) s w)) as [e|[]].
  - destruct Hc as (n & Hn & Hch & _). destruct Hw as [_ Hev]. exists n.
    split; [exact Hn |].
    unfold stage_changes in *. rewrite Hev, stages_of_app, changes_app.
    cbn [stages_of map concat stage_of app stage with_stage with_last_error
         with_ensuring].
    rewrite <- Hl.
    rewrite <- (changes_last (stage s)
                  (stages_of (events (exec env (_ensure_all cfg py model) s w)))).
    rewrite Hch, Hs. unfold pipeline in *.
    destruct (truthy_str model); cbn in Hn;
      destruct n as [|[|[|[|[|n]]]]]; try lia; reflexivity.
  - destruct Hc as (Hch & Hst & _). destruct Hw as [_ Hev].
    unfold stage_changes in *. rewrite Hev, stages_of_app, changes_app, Hch.
    rewrite Hl, Hst. cbn [stages_of map concat stage_of app stage with_ensuring].
    rewrite Hst, Hs. unfold pipeline. destruct (truthy_str model); reflexivity.
Qed.

End Pipeline.

(** The run of a [POST /ensure] handler. *)
Lemma ensure_request_run (cfg : Config) (py : Python) {W : Type}
    (env : forall B : Type, io B -> W -> B * W)
    (req : request) (d : dict) (s : DaemonState) (w : W) :
  path req = "/ensure"%string ->
  _read_json py req = JDict d ->
  let r := exec env (do_POST cfg py req) s w in
  outcome r = inr tt /\
  responses (events r) = [(202, ensuring_body)] /\
  (ensuring s = true -> final r = s /\ starts (events r) = []) /\
  (ensuring s = false ->
   final r = admitted_state s /\
   starts (events r) = [requested_model (dict_get "ollama_model" d)]).
Proof.
  intros Hpath Hbody. cbv zeta.
  unfold do_POST. rewrite Hpath, Hbody. simpl body_get.
  cbn [String.eqb Ascii.eqb Bool.eqb bind].
  unfold _write_json, admitted_state, ensure_locked. unfold atomic, call.
  cbn [bind exec].
  destruct (ensuring s) eqn:He; cbn [fst snd bind exec].
  - destruct (env unit (SendResponse 202 ensuring_body) w) as [[] w1]. cbn.
    split; [reflexivity |]. split; [reflexivity |].
    split; intros H; [auto | discriminate H].
  - destruct (env unit (StartThread (requested_model (dict_get "ollama_model" d))) w)
      as [[] w1].
    destruct (env unit (SendResponse 202 ensuring_body) w1) as [[] w2]. cbn.
    split; [reflexivity |]. split; [reflexivity |].
    split; intros H; [discriminate H | auto].
Qed.

(** C5.  When the pipeline of an admitted run fails with exception [e], the
    worker ends with [stage = error], [last_error = str(e)] and [ensuring]
    cleared, and does not raise.  After the failure it only records the
    error, logs it and clears [ensuring]: its events are those of the one
    pass of the pipeline followed by this bookkeeping, and [stage] went
    through an initial part of the pipeline, each stage once, and then to
    [error].  The request that admitted the run was answered 202 by the
    handler, which starts the worker and does not wait for it. *)
Theorem C5_failure_reported (cfg : Config) (py : Python) {W : Type}
    (env : forall B : Type, io B -> W -> B * W)
    (req : request) (d : dict) (s0 : DaemonState) (w0 : W)
    (model : option string) (s : DaemonState) (w : W) (e : exn) :
  path req = "/ensure"%string ->
  _read_json py req = JDict d ->
  ensuring s0 = false ->
  stage s = "starting"%string ->
  outcome (exec env (_ensure_all cfg py model) s w) = inl e ->
  let rh := exec env (do_POST cfg py req) s0 w0 in
  let r0 := exec env (_ensure_all cfg py model) s w in
  let r := exec env (worker cfg py model) s w in
  (responses (events rh) = [(202, ensuring_body)] /\
   starts (events rh) = [requested_model (dict_get "ollama_model" d)] /\
   ensuring (final rh) = true /\ stage (final rh) = "starting"%string /\
   last_error (final rh) = None) /\
  outcome r = inr tt /\
  stage (final r) = "error"%string /\
  last_error (final r) = Some (str_exn e) /\
  ensuring (final r) = false /\
  events r = events r0 ++
    [Wrote (with_last_error (Some (str_exn e)) (final r0));
     Wrote (with_stage "error" (with_last_error (Some (str_exn e)) (final r0)));
     Called (Log ("ensure error: " +:+ str_exn e)) tt;
     Wrote (final r)] /\
  exists n : nat,
    (1 <= n < length (pipeline model))%nat /\
    stage_changes s (events r) = take n (pipeline model) ++ ["error"%string] /\
    NoDup (stage_changes s (events r)).
Proof.
  intros Hpath Hbody Hens Hs Hfail. cbv zeta.
  split.
  { destruct (ensure_request_run cfg py env req d s0 w0 Hpath Hbody)
      as (_ & Hr & _ & Had).
    destruct (Had Hens) as [Hf Hst]. rewrite Hf.
    unfold admitted_state, ensure_locked. rewrite Hens. auto. }
  pose proof (worker_run cfg py env model s w) as [Ho Hw].
  pose proof (worker_stage_changes cfg py env model s w Hs) as Hc.
  cbv zeta in Hw, Hc. rewrite Hfail in Hw, Hc.
  destruct Hw as [Hf Hev]. destruct Hc as (n & Hn & Hch).
  split; [exact Ho |]. rewrite Hf.
  repeat (split; [reflexivity |]).
  split; [exact Hev |].
  exists n. split; [exact Hn |]. split; [exact Hch |].
  rewrite Hch. unfold pipeline in *.
  destruct (truthy_str model); cbn in Hn;
    destruct n as [|[|[|[|[|n]]]]]; try lia; compute_done.
Qed.

Lemma C5_failure_reported_witness :
  exists e,
    outcome (exec down_env (_ensure_all default_config sample_python (Some "qwen3:8b"%string))
               (admitted_state (DaemonState_init 0)) 100) = inl e /\
    stage (final (exec down_env (worker default_config sample_python (Some "qwen3:8b"%string))
                    (admitted_state (DaemonState_init 0)) 100)) = "error"%string.
Proof.
  eexists. split; [vm_compute; reflexivity |].
  eapply (C5_failure_reported default_config sample_python down_env
            (sample_post "/ensure") sample_body (DaemonState_init 0) 100
            (Some "qwen3:8b"%string) (admitted_state (DaemonState_init 0)) 100).
  - reflexivity.
  - reflexivity.
  - reflexivity.
  - reflexivity.
  - vm_compute. reflexivity.
Defined.

(** C9, as the code has it.  Once the three services are up, every run
    writes [warm_model := model] and [warm_done := false], whether or not a
    model was requested; only when a model was requested does it send the
    warm request, and set [warm_done := true] when that succeeds.  A run
    that fails before that point leaves both fields as they were. *)
Theorem C9_warm_writes (cfg : Config) (py : Python) {W : Type}
    (env : forall B : Type, io B -> W -> B * W)
    (model : option string) (s : DaemonState) (w : W) :
  let r := exec env (_ensure_all cfg py model) s w in
  (outcome r = inr tt ->
   warm_model (final r) = model /\
   warm_done (final r) = truthy_str model /\
   posts (events r) = if truthy_str model then [warm_post cfg model] else []) /\
  (forall e, outcome r = inl e ->
   (warm_model (final r) = warm_model s /\ warm_done (final r) = warm_done s /\
    posts (events r) = [])
   \/
   (truthy_str model = true /\ warm_model (final r) = model /\
    warm_done (final r) = false /\ posts (events r) = [warm_post cfg model])) /\
  (truthy_str model = false -> posts (events r) = []).
Proof.
  cbv zeta.
  pose proof (ensure_all_cases cfg py env model s w) as (_ & _ & _ & _ & _ & Hc).
  cbv zeta in Hc.
  destruct (outcome (exec env (_ensure_all cfg py model) s w)) as [e|[]].
  - destruct Hc as (n & Hn & _ & Hcases).
    split; [discriminate |]. split.
    + intros e' _. destruct Hcases as [(_ & H1 & H2 & H3)|(_ & H1 & H2 & H3 & H4)]; auto.
    + intros Hm. destruct Hcases as [(_ & _ & _ & H3)|(_ & H1 & _)]; [exact H3 | congruence].
  - destruct Hc as (_ & _ & H1 & H2 & H3).
    split; [auto |]. split; [discriminate |].
    intros Hm. rewrite Hm in H3. exact H3.
Qed.

(** C9 as stated fails: with every service up and no model requested, a run
    that starts with a warmed model ends with [warm_model = None] and
    [warm_done = false]. *)
Lemma C9_warm_state_reset_without_model :
  ~ warm_untouched_without_model default_config sample_python.
Proof.
  intros H. destruct (H healthy_env warmed_state 100) as [H1 _].
  vm_compute in H1. discriminate H1.
Qed.

(** ** Every thread body, relative to what each of its writes does *)

Section AllCode.
Context (cfg : Config) (py : Python).
Context (R : DaemonState -> DaemonState -> Prop) (C : forall B : Type, io B -> Prop).
Hypothesis R_refl : forall s, R s s.
Hypothesis R_stt_proc : forall x s, R s (with_stt_proc x s).
Hypothesis R_ollama_proc : forall x s, R s (with_ollama_proc x s).
Hypothesis R_ollama_managed : forall x s, R s (with_ollama_managed x s).
Hypothesis R_stage : forall x s, In x stage_values -> R s (with_stage x s).
Hypothesis R_last_error : forall x s, R s (with_last_error x s).
Hypothesis R_warm_reset :
  forall m s, R s (with_warm_done false (with_warm_model m s)).
Hypothesis R_warm_done : forall s, R s (with_warm_done true s).
Hypothesis R_ensuring_cleared : forall s, R s (with_ensuring false s).
Hypothesis R_ensure_locked : forall s, R s (ensure_locked s).2.
Hypothesis R_acquire : forall id body a b s, R s (acquire_locked id body a b s).
Hypothesis R_heartbeat : forall id now s, R s (heartbeat_locked id now s).2.
Hypothesis R_release : forall id now s, R s (release_locked id now s).
Hypothesis R_reaper : forall now s, R s (reaper_locked cfg now s).2.
Hypothesis R_teardown_done : forall now s, R s (teardown_done_locked now s).
Hypothesis R_shutdown_flag : forall s, R s (with_shutdown_flag true s).
Hypothesis C_get : forall u t, C _ (Urlopen "GET" u None t).
Hypothesis C_post : forall u b t, C _ (Urlopen "POST" u b t).
Hypothesis C_misc :
  forall (B : Type) (q : io B),
    service_call B q -> ~ is_urlopen q -> ~ is_signal q -> C B q.
Hypothesis C_signal : forall (B : Type) (q : io B), is_signal q -> C B q.
Hypothesis C_response : forall code obj, C _ (SendResponse code obj).
Hypothesis C_start : forall m, C _ (StartThread m).

#[local] Hint Resolve R_refl R_stt_proc R_ollama_proc R_ollama_managed R_stage
  R_last_error R_warm_reset R_warm_done R_ensuring_cleared R_ensure_locked R_acquire
  R_heartbeat R_release R_reaper R_teardown_done R_shutdown_flag
  C_get C_post C_response C_start : resp.
#[local] Hint Extern 2 (C _ _) => (apply C_misc; [split | |]; simpl; tauto) : resp.
#[local] Hint Extern 2 (C _ _) => (apply C_signal; exact I) : resp.
#[local] Hint Extern 1 (In _ stage_values) => (simpl; auto 10) : resp.

Lemma respects_set_stage x : In x stage_values -> respects R C (set_stage x).
Proof. intros Hx. unfold set_stage. resp. Qed.

Lemma respects_set_error x : respects R C (set_error x).
Proof. unfold set_error. resp. Qed.

Lemma respects_write_json code obj : respects R C (_write_json code obj).
Proof. unfold _write_json. resp. Qed.

#[local] Hint Resolve respects_set_stage respects_set_error respects_write_json : resp.

Lemma respects_ensure_all model : respects R C (_ensure_all cfg py model).
Proof. unfold _ensure_all. resp. Qed.

#[local] Hint Resolve respects_ensure_all : resp.

Lemma respects_worker model : respects R C (worker cfg py model).
Proof. unfold worker. resp. Qed.

Lemma respects_reaper_iteration : respects R C (reaper_iteration cfg py).
Proof. unfold reaper_iteration. resp. Qed.

#[local] Hint Resolve respects_reaper_iteration : resp.

Lemma respects_reaper_thread n : respects R C (_reaper_thread cfg py n).
Proof. induction n as [|n IH]; cbn [_reaper_thread]; resp. Qed.

Lemma respects_body_get body key : respects R C (body_get body key).
Proof. unfold body_get. resp. Qed.

#[local] Hint Resolve respects_body_get : resp.

Lemma respects_do_GET req : respects R C (do_GET cfg py req).
Proof. unfold do_GET. resp. Qed.

Lemma respects_do_POST req : respects R C (do_POST cfg py req).
Proof. unfold do_POST. resp. Qed.

Lemma respects_shutdown : respects R C (_shutdown cfg py).
Proof. unfold _shutdown. resp. Qed.

End AllCode.

(** ** Invariants of the running daemon *)

Section SystemInvariant.
Context (cfg : Config) (py : Python).
Context (R : DaemonState -> DaemonState -> Prop) (P : DaemonState -> Prop).
Hypothesis R_keeps : forall s s', R s s' -> P s -> P s'.
Hypothesis code_get : forall req, respects R any_call (do_GET cfg py req).
Hypothesis code_post : forall req, respects R any_call (do_POST cfg py req).
Hypothesis code_hook : respects R any_call (_shutdown cfg py).
Hypothesis code_worker : forall m, respects R any_call (worker cfg py m).
Hypothesis code_reaper : forall n, respects R any_call (_reaper_thread cfg py n).

Lemma guarded_step sys sys' :
  sys_step cfg py sys sys' -> guarded R P sys -> guarded R P sys'.
Proof.
  intros Hstep [HP Hpool].
  destruct Hstep as [sys req|sys req|sys|sys i kd B f k Hi|sys i kd B q k b Hi];
    unfold guarded; simpl.
  - split; [exact HP |]. apply Forall_app. split; [exact Hpool |].
    constructor; [apply code_get | constructor].
  - split; [exact HP |]. apply Forall_app. split; [exact Hpool |].
    constructor; [apply code_post | constructor].
  - split; [exact HP |]. apply Forall_app. split; [exact Hpool |].
    constructor; [apply code_hook | constructor].
  - pose proof (Forall_lookup_1 _ _ _ _ Hpool Hi) as Ht. simpl in Ht.
    destruct (Ht (shared sys)) as [HR Hk].
    split; [eapply R_keeps; eauto |].
    apply Forall_insert; [exact Hpool | exact Hk].
  - pose proof (Forall_lookup_1 _ _ _ _ Hpool Hi) as Ht. simpl in Ht.
    destruct Ht as [_ Hk].
    split; [exact HP |]. apply Forall_app. split.
    + apply Forall_insert; [exact Hpool | apply Hk].
    + destruct q; simpl; constructor; [apply code_worker | constructor].
Qed.

Lemma guarded_reachable sys :
  (forall now, P (DaemonState_init now)) -> reachable cfg py sys -> P (shared sys).
Proof.
  intros Hinit (now & turns & Hrtc).
  assert (Hg : guarded R P sys); [| exact (proj1 Hg)].
  revert sys Hrtc. apply rtc_ind_r.
  - split; [apply Hinit |]. simpl. constructor; [apply code_reaper | constructor].
  - intros y z _ Hstep IH. eapply guarded_step; eauto.
Qed.

End SystemInvariant.

(** ** The registry of the running daemon is the replay of a history

    The threads of the daemon write the lease map and [last_zero_lease_time]
    only through the five locked blocks, so in every reachable state both are
    what some history of blocks gives from the initial state; this is what
    the idle-gating theorem is stated on. *)

Lemma apply_event_registry (cfg : Config) (s1 s2 : DaemonState) (e : reg_event) :
  same_registry s1 s2 ->
  same_registry (apply_event cfg s1 e) (apply_event cfg s2 e).
Proof.
  intros [Hl Hz]. unfold same_registry.
  destruct e as [id body a b|id now|id now|now|now]; simpl.
  - unfold acquire_locked. simpl. rewrite Hl. auto.
  - unfold heartbeat_locked. rewrite Hl.
    destruct (leases s1 !! id); simpl; rewrite ?Hl; auto.
  - unfold release_locked. simpl. rewrite Hl.
    case_decide; simpl; rewrite ?Hl; auto.
  - unfold reaper_locked. simpl. rewrite Hl.
    case_decide; simpl; rewrite ?Hl; auto.
  - unfold teardown_done_locked. simpl. auto.
Qed.

Lemma registry_step_code (cfg : Config) (py : Python) :
  (forall req, respects (registry_step cfg) any_call (do_GET cfg py req)) /\
  (forall req, respects (registry_step cfg) any_call (do_POST cfg py req)) /\
  respects (registry_step cfg) any_call (_shutdown cfg py) /\
  (forall m, respects (registry_step cfg) any_call (worker cfg py m)) /\
  (forall n, respects (registry_step cfg) any_call (_reaper_thread cfg py n)).
Proof.
  assert (Hsame : forall s s', leases s' = leases s ->
             last_zero_lease_time s' = last_zero_lease_time s -> registry_step cfg s s')
    by (intros s s' H1 H2; left; split; assumption).
  assert (Hev : forall e s, registry_step cfg s (apply_event cfg s e))
    by (intros e s; right; exists e; split; reflexivity).
  assert (Hlock : forall s, registry_step cfg s (ensure_locked s).2).
  { intros s. unfold ensure_locked. destruct (ensuring s); apply Hsame; reflexivity. }
  assert (Hcall : forall (B : Type) (q : io B), any_call B q) by (intros; exact I).
  split; [| split; [| split; [| split]]]; intros;
    first [ apply respects_do_GET | apply respects_do_POST | apply respects_shutdown
          | apply respects_worker | apply respects_reaper_thread ];
    auto; try (intros; apply Hsame; reflexivity);
    intros;
    first [ exact (Hev (EvAcquire _ _ _ _) _) | exact (Hev (EvHeartbeat _ _) _)
          | exact (Hev (EvRelease _ _) _) | exact (Hev (EvTick _) _)
          | exact (Hev (EvTeardownDone _) _) ].
Qed.

Lemma registry_replays (cfg : Config) (py : Python) (sys : system) :
  reachable cfg py sys -> registry_replayed cfg (shared sys).
Proof.
  destruct (registry_step_code cfg py) as (Hget & Hpost & Hhook & Hworker & Hreaper).
  apply (guarded_reachable cfg py (registry_step cfg) (registry_replayed cfg)); auto.
  - intros s s' [[Hl Hz]|[e [Hl Hz]]] (now0 & h & [Hl0 Hz0]).
    + exists now0, h. split; congruence.
    + exists now0, (h ++ [e]). unfold replay. rewrite fold_left_app. simpl.
      fold (replay cfg h (DaemonState_init now0)).
      destruct (apply_event_registry cfg _ _ e (conj Hl0 Hz0)) as [H1 H2].
      split; congruence.
  - intros now. exists now, []. split; reflexivity.
Qed.

(** ** Stages *)

Lemma keeps_stage_known_code (cfg : Config) (py : Python) :
  (forall req, respects keeps_stage_known any_call (do_GET cfg py req)) /\
  (forall req, respects keeps_stage_known any_call (do_POST cfg py req)) /\
  respects keeps_stage_known any_call (_shutdown cfg py) /\
  (forall m, respects keeps_stage_known any_call (worker cfg py m)) /\
  (forall n, respects keeps_stage_known any_call (_reaper_thread cfg py n)).
Proof.
  assert (Hsame : forall s s', stage s' = stage s -> keeps_stage_known s s')
    by (unfold keeps_stage_known; intros s s' ->; auto).
  assert (Hreaper : forall now s, keeps_stage_known s (reaper_locked cfg now s).2).
  { intros now s. apply Hsame. unfold reaper_locked. case_decide; reflexivity. }
  assert (Hdone : forall now s, keeps_stage_known s (teardown_done_locked now s)).
  { intros now s _. simpl. auto. }
  assert (Hlock : forall s, keeps_stage_known s (ensure_locked s).2).
  { intros s H. unfold ensure_locked. destruct (ensuring s); simpl; auto. }
  assert (Hhb : forall id now s, keeps_stage_known s (heartbeat_locked id now s).2).
  { intros id now s. apply Hsame. unfold heartbeat_locked.
    destruct (leases s !! id); reflexivity. }
  assert (Hrel : forall id now s, keeps_stage_known s (release_locked id now s)).
  { intros id now s. apply Hsame. unfold release_locked. case_decide; reflexivity. }
  assert (Hstage : forall x s, In x stage_values -> keeps_stage_known s (with_stage x s)).
  { intros x s Hx _. exact Hx. }
  assert (Hcall : forall (B : Type) (q : io B), any_call B q) by (intros; exact I).
  split; [| split; [| split; [| split]]]; intros;
    first [ apply respects_do_GET | apply respects_do_POST | apply respects_shutdown
          | apply respects_worker | apply respects_reaper_thread ];
    auto; try (intros; apply Hsame; reflexivity).
Qed.




(** ** Single ensure *)

Lemma neutral_free {A : Type} (p : prog A) : neutral p -> free p.
Proof.
  unfold neutral. induction p as [a|e|B f k IH|B q k IH]; simpl; auto.
  - intros Hp s. destruct (Hp s) as [H1 H2]. left. split; [exact H1 | apply IH, H2].
  - intros [H1 H2]. split; [exact H1 | intros b; apply IH, H2].
Qed.

Lemma free_bind {A B : Type} (p : prog A) (k : A -> prog B) :
  neutral p -> (forall a, free (k a)) -> free (bind p k).
Proof.
  unfold neutral. intros Hp Hk.
  induction p as [a|e|D f k' IH|D q k' IH]; simpl in *; auto.
  - intros s. destruct (Hp s) as [H1 H2]. left. split; [exact H1 | apply IH, H2].
  - destruct Hp as [H1 H2]. split; [exact H1 | intros b; apply IH, H2].
Qed.

(** A neutral body wrapped in [try ... finally: ensuring = False] is the
    code of a running worker. *)
Lemma working_try_finally (p : prog unit) :
  neutral p -> working (try_finally p (modify (with_ensuring false))).
Proof.
  unfold neutral, try_finally. intros Hp.
  induction p as [a|e|D f k IH|D q k IH]; simpl in *.
  - intros s. right. simpl. auto.
  - intros s. right. simpl. auto.
  - intros s. destruct (Hp s) as [H1 H2]. left. split; [exact H1 | apply IH, H2].
  - destruct Hp as [H1 H2]. split; [exact H1 | intros b; apply IH, H2].
Qed.

Section SingleEnsure.
Context (cfg : Config) (py : Python).

Lemma neutral_code :
  (forall req, neutral (do_GET cfg py req)) /\
  neutral (_shutdown cfg py) /\
  (forall m, neutral (_ensure_all cfg py m)) /\
  (forall n, neutral (_reaper_thread cfg py n)).
Proof.
  assert (Hsame : forall s s', ensuring s' = ensuring s -> keeps_ensuring s s')
    by (unfold keeps_ensuring; auto).
  assert (Hreaper : forall now s, keeps_ensuring s (reaper_locked cfg now s).2).
  { intros now s. apply Hsame. unfold reaper_locked. case_decide; reflexivity. }
  assert (Hmisc : forall (B : Type) (q : io B),
             service_call B q -> ~ is_urlopen q -> no_start B q)
    by (intros B q [H _] _; exact H).
  assert (Hsig : forall (B : Type) (q : io B), is_signal q -> no_start B q)
    by (intros B q Hq; unfold no_start; destruct q; simpl in *; tauto).
  assert (Hresp : forall code obj, no_start _ (SendResponse code obj))
    by (intros code obj []).
  assert (Hget : forall u t, no_start _ (Urlopen "GET" u None t)) by (intros u t []).
  assert (Hpost : forall u b t, no_start _ (Urlopen "POST" u b t)) by (intros u b t []).
  unfold neutral.
  split; [| split; [| split]]; intros;
    first [ apply respects_do_GET | apply respects_shutdown
          | apply respects_ensure_all | apply respects_reaper_thread ];
    auto; try (intros; apply Hsame; reflexivity).
Qed.

Lemma working_worker model : working (worker cfg py model).
Proof.
  unfold worker. apply working_try_finally.
  destruct neutral_code as (_ & _ & Hall & _).
  unfold neutral in *. apply respects_try_except; [apply Hall |].
  intros e. unfold set_error, set_stage, _log.
  repeat (apply respects_bind; [| intros ?]);
    first [ apply respects_modify; intros s; reflexivity
          | apply respects_call; intros [] ].
Qed.

Lemma free_write_json code obj : free (_write_json code obj).
Proof. split; [intros [] | intros b; exact I]. Qed.

Lemma free_do_POST req : free (do_POST cfg py req).
Proof.
  assert (Hsame : forall s s', ensuring s' = ensuring s -> keeps_ensuring s s')
    by (unfold keeps_ensuring; auto).
  assert (Hnow : neutral _now) by (split; [intros [] | intros b; exact I]).
  assert (Hcall : forall (B : Type) (q : io B), ~ is_start q -> neutral (call q))
    by (intros B q Hq; split; [exact Hq | intros b; exact I]).
  assert (Hget : forall body key, neutral (body_get body key))
    by (intros [d|v] key; exact I).
  unfold do_POST.
  destruct (String.eqb (path req) "/lease/acquire").
  { repeat (apply free_bind; [first [exact Hnow | apply Hcall; intros []] | intros ?]).
    apply free_bind; [| intros ?; apply free_write_json].
    apply respects_modify. intros s. apply Hsame. reflexivity. }
  destruct (String.eqb (path req) "/lease/heartbeat").
  { apply free_bind; [apply Hget | intros v].
    destruct (String.eqb _ EmptyString); [apply free_write_json |].
    apply free_bind; [exact Hnow | intros now].
    apply free_bind; [| intros [|]; apply free_write_json].
    apply respects_atomic. intros s. apply Hsame. unfold heartbeat_locked.
    destruct (leases s !! _); reflexivity. }
  destruct (String.eqb (path req) "/lease/release").
  { apply free_bind; [apply Hget | intros v].
    destruct (String.eqb _ EmptyString); [apply free_write_json |].
    apply free_bind; [exact Hnow | intros now].
    apply free_bind; [| intros ?; apply free_write_json].
    apply respects_modify. intros s. apply Hsame. unfold release_locked.
    case_decide; reflexivity. }
  destruct (String.eqb (path req) "/ensure"); [| apply free_write_json].
  apply free_bind; [apply Hget | intros v].
  unfold atomic. cbn [bind]. intros s. unfold ensure_locked.
  destruct (ensuring s) eqn:He; cbn [fst snd].
  - left. split; [exact He | apply free_write_json].
  - right. split; [reflexivity |]. split; [reflexivity |].
    split; [exact I | intros b; apply free_write_json].
Qed.

End SingleEnsure.

Section SingleEnsureInvariant.
Context (cfg : Config) (py : Python).

Lemma started_none {B : Type} (q : io B) : ~ is_start q -> started cfg py q = [].
Proof. destruct q; simpl; tauto. Qed.

Lemma started_one {B : Type} (q : io B) :
  is_start q -> exists m, started cfg py q = [mkThread Worker (worker cfg py m)].
Proof. destruct q; simpl; try tauto. eauto. Qed.

Lemma single_ensure_add s pool0 h h' t :
  holds_nothing t ->
  single_ensure (mkSystem s pool0 h) -> single_ensure (mkSystem s (pool0 ++ [t]) h').
Proof.
  intros Ht (holder & H1 & H2 & H3). simpl in *.
  exists holder. simpl. split; [exact H1 |]. split.
  - intros i Hi. destruct (H2 i Hi) as [x Hx]. exists x. apply lookup_app_l_Some, Hx.
  - intros i t' Hl. apply lookup_app_Some in Hl as [Hl|[Hge Hl]]; [apply H3, Hl |].
    case_decide as Hd.
    + destruct (H2 i Hd) as [x Hx]. apply lookup_lt_Some in Hx. lia.
    + destruct (i - length pool0)%nat; simpl in Hl; [congruence | discriminate].
Qed.

Lemma single_ensure_step sys sys' :
  sys_step cfg py sys sys' -> single_ensure sys -> single_ensure sys'.
Proof.
  intros Hstep Hinv.
  destruct Hstep as [sys req|sys req|sys|sys i kd B f k Hi|sys i kd B q k b Hi].
  - destruct sys. eapply single_ensure_add; [| exact Hinv].
    apply neutral_free, neutral_code.
  - destruct sys. eapply single_ensure_add; [| exact Hinv]. apply free_do_POST.
  - destruct sys. eapply single_ensure_add; [| exact Hinv].
    apply neutral_free, neutral_code.
  - destruct Hinv as (holder & H1 & H2 & H3).
    pose proof (H3 i _ Hi) as Hti.
    pose proof (lookup_lt_Some _ _ _ Hi) as Hlt.
    destruct (decide (holder = Some i)) as [Hh|Hh].
    + (* the holder makes an atomic access *)
      unfold holds_admission in Hti. simpl in Hti.
      destruct kd; try contradiction.
      destruct (Hti (shared sys)) as [[He Hk]|[He Hk]].
      * exists holder. simpl. split; [rewrite He; exact H1 |]. split.
        { intros j Hj. rewrite list_lookup_insert_is_Some. apply (H2 j Hj). }
        intros j t Hl. apply list_lookup_insert_Some in Hl as [(-> & <- & _)|[Hne Hl]].
        { rewrite decide_True by exact Hh. exact Hk. }
        apply H3, Hl.
      * exists None. simpl. split; [intros [x Hx]; discriminate |].
        split; [discriminate |].
        intros j t Hl. apply list_lookup_insert_Some in Hl as [(-> & <- & _)|[Hne Hl]].
        { exact Hk. }
        specialize (H3 j t Hl). rewrite decide_False in H3 by congruence.
        exact H3.
    + (* another thread makes an atomic access *)
      unfold holds_nothing in Hti. simpl in Hti.
      assert (Hfree : kd <> Worker /\ free (Atomic f k))
        by (destruct kd; try contradiction; split; auto; discriminate).
      destruct Hfree as [Hkd Hfree].
      destruct (Hfree (shared sys)) as [[He Hk]|(He & He' & Hk)].
      * exists holder. simpl. split; [rewrite He; exact H1 |]. split.
        { intros j Hj. rewrite list_lookup_insert_is_Some. apply (H2 j Hj). }
        intros j t Hl. apply list_lookup_insert_Some in Hl as [(-> & <- & _)|[Hne Hl]].
        { rewrite decide_False by exact Hh. unfold holds_nothing. simpl.
          destruct kd; try congruence; exact Hk. }
        apply H3, Hl.
      * assert (Hnone : holder = None).
        { destruct holder as [h|]; [| reflexivity].
          rewrite H1 in He by eauto. discriminate. }
        subst holder. exists (Some i). simpl. split; [intros _; exact He' |]. split.
        { intros j [= <-]. rewrite list_lookup_insert_is_Some. eauto. }
        intros j t Hl. apply list_lookup_insert_Some in Hl as [(-> & <- & _)|[Hne Hl]].
        { rewrite decide_True by reflexivity. unfold holds_admission. simpl.
          destruct kd; try congruence; exact Hk. }
        rewrite decide_False by congruence.
        specialize (H3 j t Hl). simpl in H3. exact H3.
  - destruct Hinv as (holder & H1 & H2 & H3).
    pose proof (H3 i _ Hi) as Hti.
    pose proof (lookup_lt_Some _ _ _ Hi) as Hlt.
    destruct (decide (holder = Some i)) as [Hh|Hh].
    + unfold holds_admission in Hti. simpl in Hti.
      destruct (decide (kd = Worker)) as [->|Hkd].
      * (* the running worker makes a call *)
        destruct Hti as [Hq Hk]. rewrite (started_none q Hq), app_nil_r.
        exists holder. simpl. split; [exact H1 |]. split.
        { intros j Hj. rewrite list_lookup_insert_is_Some. apply (H2 j Hj). }
        intros j t Hl. apply list_lookup_insert_Some in Hl as [(-> & <- & _)|[Hne Hl]].
        { rewrite decide_True by exact Hh. apply Hk. }
        apply H3, Hl.
      * (* the admitted handler starts the worker *)
        assert (Hadm : admitted free (Call q k))
          by (destruct kd; first [congruence | exact Hti]).
        destruct Hadm as [Hq Hk]. destruct (started_one q Hq) as [m Hm]. rewrite Hm.
        exists (Some (length (pool sys))). simpl.
        split; [intros _; apply H1; rewrite Hh; eauto |]. split.
        { intros j [= <-]. rewrite lookup_app_r by (rewrite length_insert; lia).
          rewrite length_insert, Nat.sub_diag. simpl. eauto. }
        intros j t Hl. apply lookup_app_Some in Hl as [Hl|[Hge Hl]].
        { pose proof (lookup_lt_Some _ _ _ Hl) as Hj. rewrite length_insert in Hj.
          rewrite decide_False by (intros [= Hx]; lia).
          apply list_lookup_insert_Some in Hl as [(-> & <- & _)|[Hne Hl]].
          - unfold holds_nothing. simpl. destruct kd; try congruence; apply Hk.
          - specialize (H3 j t Hl). rewrite decide_False in H3 by congruence.
            exact H3. }
        rewrite length_insert in Hge, Hl.
        destruct (j - length (pool sys))%nat eqn:Hj; simpl in Hl; [| discriminate].
        injection Hl as <-. rewrite decide_True by (f_equal; lia).
        apply working_worker.
    + unfold holds_nothing in Hti. simpl in Hti.
      assert (Hfree : kd <> Worker /\ free (Call q k))
        by (destruct kd; try contradiction; split; auto; discriminate).
      destruct Hfree as [Hkd [Hq Hk]]. rewrite (started_none q Hq), app_nil_r.
      exists holder. simpl. split; [exact H1 |]. split.
      { intros j Hj. rewrite list_lookup_insert_is_Some. apply (H2 j Hj). }
      intros j t Hl. apply list_lookup_insert_Some in Hl as [(-> & <- & _)|[Hne Hl]].
      { rewrite decide_False by exact Hh. unfold holds_nothing. simpl.
        destruct kd; try congruence; apply Hk. }
      apply H3, Hl.
Qed.

Lemma single_ensure_reachable sys : reachable cfg py sys -> single_ensure sys.
Proof.
  intros (now & turns & Hrtc). revert sys Hrtc. apply rtc_ind_r.
  - exists None. simpl. split; [intros [x Hx]; discriminate |].
    split; [discriminate |].
    intros [|i] t Hl; simpl in Hl; [| discriminate].
    injection Hl as <-. simpl. apply neutral_free, neutral_code.
  - intros y z _ Hstep IH. eapply single_ensure_step; eauto.
Qed.

End SingleEnsureInvariant.

(** C1.  In every reachable state of the daemon at most one worker thread is
    running an ensure pipeline, and one runs only while [ensuring] is set.
    The handler of [POST /ensure] tests and sets [ensuring] in one atomic
    block: a request that finds [ensuring] set is answered 202, starts no
    thread and leaves the state as it is; of two requests served one after
    the other from a state with [ensuring] clear, the first starts the worker
    and the second does not, and both are answered 202. *)
Theorem C1_single_ensure (cfg : Config) (py : Python) {W : Type}
    (env : forall B : Type, io B -> W -> B * W)
    (sys : system) (req req' : request) (d d' : dict) (s : DaemonState) (w : W) :
  reachable cfg py sys ->
  path req = "/ensure"%string -> _read_json py req = JDict d ->
  path req' = "/ensure"%string -> _read_json py req' = JDict d' ->
  (forall i j ti tj,
     pool sys !! i = Some ti -> pool sys !! j = Some tj ->
     live_worker ti -> live_worker tj -> i = j) /\
  (forall i t, pool sys !! i = Some t -> live_worker t ->
     ensuring (shared sys) = true) /\
  (ensuring s = true ->
   let r := exec env (do_POST cfg py req) s w in
   responses (events r) = [(202, ensuring_body)] /\
   starts (events r) = [] /\ final r = s) /\
  (ensuring s = false ->
   let r1 := exec env (do_POST cfg py req) s w in
   let r2 := exec env (do_POST cfg py req') (final r1) (world r1) in
   responses (events r1) = [(202, ensuring_body)] /\
   responses (events r2) = [(202, ensuring_body)] /\
   starts (events r1) = [requested_model (dict_get "ollama_model" d)] /\
   starts (events r2) = [] /\
   final r1 = admitted_state s /\ final r2 = final r1).
Proof.
  intros Hreach Hpath Hbody Hpath' Hbody'.
  destruct (single_ensure_reachable cfg py sys Hreach) as (holder & H1 & H2 & H3).
  assert (Hlive : forall i t, pool sys !! i = Some t -> live_worker t -> holder = Some i).
  { intros i t Hl [Hk Hn]. specialize (H3 i t Hl).
    destruct (decide (holder = Some i)) as [Hh|Hh]; [exact Hh |].
    unfold holds_nothing in H3. rewrite Hk in H3. contradiction. }
  split.
  { intros i j ti tj Hi Hj Hli Hlj.
    pose proof (Hlive i ti Hi Hli) as Ei. pose proof (Hlive j tj Hj Hlj) as Ej.
    congruence. }
  split.
  { intros i t Hi Hl. apply H1. rewrite (Hlive i t Hi Hl). eauto. }
  split.
  - intros Hens. cbv zeta.
    destruct (ensure_request_run cfg py env req d s w Hpath Hbody)
      as (_ & Hr & Hset & _).
    destruct (Hset Hens) as [Hf Hst]. auto.
  - intros Hens. cbv zeta.
    destruct (ensure_request_run cfg py env req d s w Hpath Hbody)
      as (_ & Hr1 & _ & Hclear).
    destruct (Hclear Hens) as [Hf1 Hst1].
    destruct (ensure_request_run cfg py env req' d'
                (final (exec env (do_POST cfg py req) s w))
                (world (exec env (do_POST cfg py req) s w)) Hpath' Hbody')
      as (_ & Hr2 & Hset & _).
    assert (Hnow : ensuring (final (exec env (do_POST cfg py req) s w)) = true).
    { rewrite Hf1. unfold admitted_state, ensure_locked. rewrite Hens. reflexivity. }
    destruct (Hset Hnow) as [Hf2 Hst2]. auto 10.
Qed.

Lemma C1_single_ensure_witness :
  let r1 := exec healthy_env (do_POST default_config sample_python (sample_post "/ensure"))
              (DaemonState_init 0) 100 in
  let r2 := exec healthy_env (do_POST default_config sample_python (sample_post "/ensure"))
              (final r1) (world r1) in
  starts (events r1) = [Some "qwen3:8b"%string] /\ starts (events r2) = [].
Proof.
  assert (Hr : reachable default_config sample_python
                 (boot default_config sample_python 0 1))
    by (exists 0, 1%nat; apply rtc_refl).
  destruct (C1_single_ensure default_config sample_python healthy_env
              (boot default_config sample_python 0 1)
              (sample_post "/ensure") (sample_post "/ensure") sample_body sample_body
              (DaemonState_init 0) 100 Hr eq_refl eq_refl eq_refl eq_refl)
    as (_ & _ & _ & H).
  destruct (H eq_refl) as (_ & _ & H1 & H2 & _).
  split; [exact H1 | exact H2].
Defined.

(** ** Ownership on teardown *)

(** C3 as stated fails for the TTS service.  A daemon that was started a
    while ago and never asked to ensure anything reaches the idle timeout;
    its reaper then runs the compose [stop] command although no compose [up]
    was ever run. *)
Lemma C3_tts_stopped_without_start :
  ~ tts_stopped_only_if_started default_config sample_python.
Proof.
  intros H. specialize (H healthy_env 1%nat 0 100000).
  cbv zeta in H. vm_compute in H. apply H; [discriminate | reflexivity].
Qed.

Lemma signalled_app (a b : list event) : signalled (a ++ b) = signalled a ++ signalled b.
Proof. unfold signalled. rewrite map_app, concat_app. reflexivity. Qed.

Lemma ran_app (a b : list event) : ran (a ++ b) = ran a ++ ran b.
Proof. unfold ran. rewrite map_app, concat_app. reflexivity. Qed.

(** Step through a run: unfold the program and split on each answer of the
    environment. *)
Ltac run_step env :=
  cbn [bind try_except exec fst snd outcome final world events];
  match goal with
  | |- context [env ?B ?q ?w] =>
      let a := fresh "a" in
      let w' := fresh "w" in
      destruct (env B q w) as [a w'];
      try (destruct a as [?|?]);
      repeat match goal with u : unit |- _ => destruct u end
  end.

Section Teardown.
Context (cfg : Config) (py : Python).
Context {W : Type} (env : forall B : Type, io B -> W -> B * W).

(** Code that only makes quiet calls and writes nothing. *)
Lemma quiet_facts {A : Type} (p : prog A) s w :
  respects unchanged quiet p ->
  let r := exec env p s w in
  final r = s /\ signalled (events r) = [] /\ ran (events r) = [].
Proof.
  intros Hp r.
  assert (Hrefl : forall x, unchanged x x) by reflexivity.
  assert (Htrans : forall x y z, unchanged x y -> unchanged y z -> unchanged x z)
    by (unfold unchanged; congruence).
  pose proof (exec_respects env unchanged quiet p s w Hrefl Htrans Hp) as [H1 H2].
  fold r in H1, H2. split; [exact H1 |].
  induction H2 as [|c cs Hc _ [IH1 IH2]]; [auto |].
  unfold signalled, ran in *. simpl. rewrite IH1, IH2, !app_nil_r.
  destruct c as [D q b|s']; [| auto].
  destruct Hc as (_ & Hs & Hr). destruct q; simpl in *; tauto.
Qed.

Lemma ollama_unload_quiet m : respects unchanged quiet (_ollama_unload cfg py m).
Proof.
  apply respects_ollama_unload.
  intros u b t. split; [split |]; simpl; tauto.
Qed.

Lemma log_quiet msg : respects unchanged quiet (_log msg).
Proof. split; [| intros b; exact I]. split; [split |]; simpl; tauto. Qed.

(** [stop_process] signals its process only, and never raises. *)
Lemma stop_process_run h s w :
  let r := exec env (stop_process h) s w in
  outcome r = inr tt /\ final r = s /\ ran (events r) = [] /\
  forall p, In p (signalled (events r)) -> p = h.
Proof.
  unfold stop_process, call_raising, call. repeat (run_step env); cbn;
    (split; [reflexivity |]); (split; [reflexivity |]); (split; [reflexivity |]);
    intros p; simpl; intuition.
Qed.

Lemma stop_stt_run s w :
  let r := exec env _stop_stt s w in
  outcome r = inr tt /\ final r = with_stt_proc None s /\ ran (events r) = [] /\
  forall p, In p (signalled (events r)) -> stt_proc s = Some p.
Proof.
  unfold _stop_stt, read, modify, atomic.
  cbn [bind exec fst snd outcome final world events].
  destruct (stt_proc s) as [h|]; [| cbn; intuition].
  rewrite exec_bind. cbv zeta.
  pose proof (stop_process_run h (with_stt_proc None s) w) as (Ho & Hf & Hr & Hs).
  destruct (exec env (stop_process h) (with_stt_proc None s) w) as [o f w1 ev].
  cbn [outcome final world events] in *. subst o f.
  unfold _log, call. run_step env. cbn.
  unfold ran, signalled in *. simpl. rewrite !map_app, !concat_app, Hr. simpl.
  rewrite app_nil_r.
  repeat split; auto. intros p Hp. f_equal. symmetry. apply Hs, Hp.
Qed.

Lemma stop_ollama_run s w :
  let r := exec env _stop_ollama s w in
  outcome r = inr tt /\ ran (events r) = [] /\
  stt_proc (final r) = stt_proc s /\
  forall p, In p (signalled (events r)) ->
    ollama_managed s = true /\ ollama_proc s = Some p.
Proof.
  unfold _stop_ollama, read, modify, atomic.
  cbn [bind exec fst snd outcome final world events].
  destruct (ollama_managed s) eqn:Hm; cbn [negb]; [| cbn; intuition].
  cbn [bind exec fst snd outcome final world events].
  destruct (ollama_proc s) as [h|] eqn:Hp; [| cbn; intuition].
  rewrite exec_bind. cbv zeta.
  pose proof (stop_process_run h
                (with_ollama_managed false (with_ollama_proc None s)) w)
    as (Ho & Hf & Hr & Hs).
  destruct (exec env (stop_process h)
              (with_ollama_managed false (with_ollama_proc None s)) w)
    as [o f w1 ev].
  cbn [outcome final world events] in *. subst o f.
  unfold _log, call. run_step env. cbn.
  unfold ran, signalled in *. simpl. rewrite !map_app, !concat_app, Hr. simpl.
  rewrite app_nil_r.
  repeat split; auto. f_equal. symmetry. apply Hs. assumption.
Qed.

(** [_stop_kokoro] looks for an orchestrator and, when it finds one, runs the
    compose [stop] command; it never looks at the state. *)
Lemma stop_kokoro_run s w :
  let r := exec env (_stop_kokoro cfg py) s w in
  outcome r = inr tt /\ final r = s /\ signalled (events r) = [] /\
  ran (events r) =
    match env _ (Which "docker") w with
    | (Some _, _) =>
        [["docker"; "compose"; "-f"; KOKORO_COMPOSE_FILE cfg; "stop"]%string]
    | (None, w1) =>
        match env _ (Which "docker-compose") w1 with
        | (Some _, _) =>
            [["docker-compose"; "-f"; KOKORO_COMPOSE_FILE cfg; "stop"]%string]
        | (None, _) => []
        end
    end.
Proof.
  unfold _stop_kokoro, _docker_compose_cmd, _run_cmd, _log, call_raising, call.
  cbn [bind try_except exec fst snd outcome final world events].
  destruct (env _ (Which "docker") w) as [[found|] w1].
  - repeat (run_step env); cbn; auto.
  - cbn [bind try_except exec fst snd outcome final world events].
    destruct (env _ (Which "docker-compose") w1) as [[found|] w2].
    + repeat (run_step env); cbn; auto.
    + cbn. auto.
Qed.

Lemma exec_swallow_ok (p : prog unit) s w :
  outcome (exec env p s w) = inr tt -> exec env (swallow p) s w = exec env p s w.
Proof.
  intros Ho. unfold swallow. rewrite exec_try_except. cbv zeta. rewrite Ho.
  destruct (exec env p s w) as [o f w1 ev]. simpl in *. subst o. reflexivity.
Qed.

(** The run of the unload request, when there is one. *)
Lemma unload_run (warm : option string) s w :
  let r := exec env (if truthy_str warm
                     then _ollama_unload cfg py (default EmptyString warm)
                     else Ret tt) s w in
  outcome r = inr tt /\ final r = s /\ signalled (events r) = [] /\ ran (events r) = [].
Proof.
  destruct (truthy_str warm); [| cbn; auto].
  pose proof (quiet_facts (_ollama_unload cfg py (default EmptyString warm)) s w
                (ollama_unload_quiet _)) as (Hf & Hs & Hr).
  cbv zeta. split; [| auto].
  assert (Hn : never_throws (_ollama_unload cfg py (default EmptyString warm))).
  { unfold _ollama_unload. destruct (negb _); [exact I |].
    refine (never_throws_bind _ _ (http_json_never_throws py _ _ _ _) _).
    intros a. exact I. }
  destruct (never_throws_exec env _ s w Hn) as [[] Ha]. exact Ha.
Qed.

(** The three stops in a row, from state [s1] which has the handles of [s]. *)
Lemma stops_run s w :
  let r := exec env (_stop_stt;; _stop_kokoro cfg py;; _stop_ollama) s w in
  outcome r = inr tt /\
  (forall p, In p (signalled (events r)) ->
     stt_proc s = Some p \/ (ollama_managed s = true /\ ollama_proc s = Some p)) /\
  exists w1, ran (events r) = ran (events (exec env (_stop_kokoro cfg py) s w1)).
Proof.
  cbv zeta. rewrite exec_bind. cbv zeta.
  pose proof (stop_stt_run s w) as (Ho1 & Hf1 & Hr1 & Hs1).
  destruct (exec env _stop_stt s w) as [o1 f1 w1 ev1].
  cbn [outcome final world events] in *. subst o1 f1.
  rewrite exec_bind. cbv zeta.
  pose proof (stop_kokoro_run (with_stt_proc None s) w1) as (Ho2 & Hf2 & Hs2 & Hr2).
  pose proof (stop_kokoro_run s w1) as (_ & _ & _ & Hr2').
  cbv zeta in Hr2, Hr2'. rewrite <- Hr2 in Hr2'.
  destruct (exec env (_stop_kokoro cfg py) (with_stt_proc None s) w1)
    as [o2 f2 w2 ev2].
  cbn [outcome final world events] in *. subst o2 f2.
  pose proof (stop_ollama_run (with_stt_proc None s) w2) as (Ho3 & Hr3 & _ & Hs3).
  destruct (exec env _stop_ollama (with_stt_proc None s) w2) as [o3 f3 w3 ev3].
  cbn [outcome final world events] in *. subst o3.
  split; [reflexivity |]. split.
  - intros p. rewrite !signalled_app, Hs2. simpl. rewrite !in_app_iff.
    intros [Hp|Hp]; [left; apply Hs1, Hp | right; apply Hs3, Hp].
  - exists w1. rewrite !ran_app, Hr1, Hr3, app_nil_r. simpl. symmetry. exact Hr2'.
Qed.

Lemma idle_teardown_run (warm : option string) s w :
  let r := exec env (idle_teardown cfg py warm) s w in
  outcome r = inr tt /\
  (forall p, In p (signalled (events r)) ->
     stt_proc s = Some p \/ (ollama_managed s = true /\ ollama_proc s = Some p)) /\
  exists w1, ran (events r) = ran (events (exec env (_stop_kokoro cfg py) s w1)).
Proof.
  cbv zeta. unfold idle_teardown. rewrite exec_bind. cbv zeta.
  pose proof (unload_run warm s w) as (Ho & Hf & Hs & Hr).
  destruct (exec env (if truthy_str warm
                      then _ollama_unload cfg py (default EmptyString warm)
                      else Ret tt) s w) as [o f w1 ev].
  cbn [outcome final world events] in *. subst o f.
  pose proof (stops_run s w1) as (Ho2 & Hs2 & w2 & Hr2). cbv zeta in *.
  destruct (exec env (_stop_stt;; _stop_kokoro cfg py;; _stop_ollama) s w1)
    as [o2 f2 w3 ev2].
  cbn [outcome final world events] in *.
  split; [exact Ho2 |]. split.
  - intros p. rewrite signalled_app, Hs. simpl. apply Hs2.
  - exists w2. rewrite ran_app, Hr. simpl. exact Hr2.
Qed.

Lemma shutdown_run s w :
  let r := exec env (_shutdown cfg py) s w in
  outcome r = inr tt /\ shutdown_flag (final r) = true /\
  (forall p, In p (signalled (events r)) ->
     stt_proc s = Some p \/ (ollama_managed s = true /\ ollama_proc s = Some p)) /\
  exists w1, ran (events r) = ran (events (exec env (_stop_kokoro cfg py) s w1)).
Proof.
  cbv zeta. unfold _shutdown, modify, atomic.
  cbn [bind exec fst snd outcome final world events].
  set (s0 := with_shutdown_flag true s).
  (* the unload *)
  rewrite exec_bind. cbv zeta.
  assert (Hu : forall w0,
    let r := exec env (m ← read warm_model;
                       if truthy_str m
                       then _ollama_unload cfg py (default EmptyString m)
                       else Ret tt) s0 w0 in
    outcome r = inr tt /\ final r = s0 /\ signalled (events r) = [] /\
    ran (events r) = []).
  { intros w0. unfold read, atomic.
    cbn [bind exec fst snd outcome final world events].
    pose proof (unload_run (warm_model s0) s0 w0) as (Ho & Hf & Hs & Hr).
    cbv zeta in *. auto. }
  rewrite exec_swallow_ok by apply Hu.
  destruct (Hu w) as (Ho0 & Hf0 & Hs0 & Hr0). cbv zeta in *.
  destruct (exec env (m ← read warm_model;
                      if truthy_str m
                      then _ollama_unload cfg py (default EmptyString m)
                      else Ret tt) s0 w) as [o0 f0 w0 ev0].
  cbn [outcome final world events] in *. subst o0 f0.
  (* the three stops *)
  rewrite exec_bind. cbv zeta.
  rewrite exec_swallow_ok by apply stop_stt_run.
  pose proof (stop_stt_run s0 w0) as (Ho1 & Hf1 & Hr1 & Hs1).
  destruct (exec env _stop_stt s0 w0) as [o1 f1 w1 ev1].
  cbn [outcome final world events] in *. subst o1 f1.
  rewrite exec_bind. cbv zeta.
  rewrite exec_swallow_ok by apply stop_kokoro_run.
  pose proof (stop_kokoro_run (with_stt_proc None s0) w1) as (Ho2 & Hf2 & Hs2 & Hr2).
  pose proof (stop_kokoro_run s w1) as (_ & _ & _ & Hr2').
  cbv zeta in Hr2, Hr2'. rewrite <- Hr2 in Hr2'.
  destruct (exec env (_stop_kokoro cfg py) (with_stt_proc None s0) w1)
    as [o2 f2 w2 ev2].
  cbn [outcome final world events] in *. subst o2 f2.
  rewrite exec_swallow_ok by apply stop_ollama_run.
  pose proof (stop_ollama_run (with_stt_proc None s0) w2)
    as (Ho3 & Hr3 & Hf3 & Hs3).
  assert (Hflag : shutdown_flag
                    (final (exec env _stop_ollama (with_stt_proc None s0) w2)) = true).
  { pose proof (exec_respects env same_but_handles any_call _stop_ollama
                  (with_stt_proc None s0) w2 same_but_handles_refl
                  same_but_handles_trans) as [Hsame _].
    - apply respects_stop_ollama; unfold same_but_handles; simpl; try tauto;
        intros; exact I.
    - unfold same_but_handles in Hsame. simpl in Hsame. tauto. }
  destruct (exec env _stop_ollama (with_stt_proc None s0) w2) as [o3 f3 w3 ev3].
  cbn [outcome final world events] in *. subst o3.
  split; [reflexivity |]. split; [exact Hflag |]. split.
  - intros p. unfold signalled at 1. simpl. fold (signalled (ev0 ++ ev1 ++ ev2 ++ ev3)).
    rewrite !signalled_app, Hs0, Hs2. simpl. rewrite !in_app_iff.
    intros [Hp|Hp]; [left; apply (Hs1 p Hp) | right; apply (Hs3 p Hp)].
  - exists w1. unfold ran at 1. simpl. fold (ran (ev0 ++ ev1 ++ ev2 ++ ev3)).
    rewrite !ran_app, Hr0, Hr1, Hr3, app_nil_r. simpl. symmetry. exact Hr2'.
Qed.

End Teardown.

Lemma nothing_in_list {A : Type} (l : list A) : (forall x, In x l -> False) -> l = [].
Proof. destruct l as [|x l]; [reflexivity |]. intros H. destruct (H x). left. reflexivity. Qed.

(** ** Processes the daemon spawned *)

Create HintDb own discriminated.

Lemma sub_refl (H : procs) : sub H H.
Proof. intros h Hh. exact Hh. Qed.

Lemma sub_trans (H1 H2 H3 : procs) : sub H1 H2 -> sub H2 H3 -> sub H1 H3.
Proof. intros H12 H23 h Hh. apply H23, H12, Hh. Qed.

Lemma sub_spawn (H H' : procs) (l : list proc) :
  sub H H' -> sub H (fun h => H' h \/ In h l).
Proof. intros Hs h Hh. left. apply Hs, Hh. Qed.

Lemma owns_mono {A : Type} (H H' : procs) (p : prog A) Q :
  owns H p Q -> sub H H' -> owns H' p Q.
Proof.
  intros Hp Hs. destruct p as [a|e|B f k|B q k]; simpl in *.
  - intros H2 H2s. apply Hp. eapply sub_trans; eauto.
  - exact I.
  - intros H2 H2s. apply Hp. eapply sub_trans; eauto.
  - intros H2 H2s. apply Hp. eapply sub_trans; eauto.
Qed.

Lemma owns_bind {A B : Type} (p : prog A) (k : A -> prog B) Q Q' :
  forall H, owns H p Q ->
  (forall a H', sub H H' -> Q a H' -> owns H' (k a) Q') ->
  owns H (bind p k) Q'.
Proof.
  induction p as [a|e|D f k' IH|D q k' IH]; intros H Hp Hk; simpl in *.
  - apply Hk; [apply sub_refl | apply Hp, sub_refl].
  - exact I.
  - intros H' Hs s Hkn. destruct (Hp H' Hs s Hkn) as [H1 H2].
    split; [exact H1 |]. apply IH; [exact H2 |].
    intros a H2' Hs' HQ. apply Hk; [eapply sub_trans; eauto | exact HQ].
  - intros H' Hs. destruct (Hp H' Hs) as [H1 H2].
    split; [exact H1 |]. intros b. apply IH; [apply H2 |].
    intros a H2' Hs' HQ. apply Hk; [| exact HQ].
    eapply sub_trans; [| exact Hs']. apply sub_spawn, Hs.
Qed.

Lemma owns_try_except {A : Type} (p : prog A) (h : exn -> prog A) Q :
  forall H, owns H p Q ->
  (forall e H', sub H H' -> owns H' (h e) Q) ->
  owns H (try_except p h) Q.
Proof.
  induction p as [a|e|D f k' IH|D q k' IH]; intros H Hp Hh; simpl in *.
  - exact Hp.
  - apply Hh, sub_refl.
  - intros H' Hs s Hkn. destruct (Hp H' Hs s Hkn) as [H1 H2].
    split; [exact H1 |]. apply IH; [exact H2 |].
    intros e H2' Hs'. apply Hh. eapply sub_trans; eauto.
  - intros H' Hs. destruct (Hp H' Hs) as [H1 H2].
    split; [exact H1 |]. intros b. apply IH; [apply H2 |].
    intros e H2' Hs'. apply Hh.
    eapply sub_trans; [| exact Hs']. apply sub_spawn, Hs.
Qed.

(** Code that stores no handle and signals no process owns whatever it is
    given. *)
Lemma owns_plain {A : Type} (p : prog A) :
  respects keeps_handles no_signal p -> forall H, owns H p any_post.
Proof.
  induction p as [a|e|D f k IH|D q k IH]; intros Hp H; simpl in *.
  - intros H' _. exact I.
  - exact I.
  - intros H' Hs s [Hk1 Hk2]. destruct (Hp s) as [[HR1 HR2] Hrest].
    split; [split; intros h Hh; auto |]. apply IH, Hrest.
  - intros H' Hs. destruct Hp as [Hq Hrest]. split.
    + intros h Hh. destruct q; simpl in *; try contradiction;
        exfalso; apply Hq; exact I.
    + intros b. apply IH, Hrest.
Qed.

Lemma owns_seq {A B : Type} (p : prog A) (k : A -> prog B) Q H :
  owns H p any_post -> (forall a H', sub H H' -> owns H' (k a) Q) ->
  owns H (bind p k) Q.
Proof. intros Hp Hk. eapply owns_bind; [exact Hp |]. intros a H' Hs _. apply Hk, Hs. Qed.

Lemma owns_try_finally (p fin : prog unit) H :
  owns H p any_post -> (forall H', owns H' fin any_post) ->
  owns H (try_finally p fin) any_post.
Proof.
  intros Hp Hf. unfold try_finally.
  apply owns_seq.
  - apply owns_try_except; [exact Hp |]. intros e H' _.
    apply owns_seq; [apply Hf | intros; exact I].
  - intros a H' _. apply owns_seq; [apply Hf |]. intros [] H2 _ H3 _. exact I.
Qed.

(** *** Writes that store no handle *)

Lemma keeps_handles_same s s' :
  stt_proc s' = stt_proc s -> ollama_proc s' = ollama_proc s -> keeps_handles s s'.
Proof. intros H1 H2. unfold keeps_handles. rewrite H1, H2. auto. Qed.

Lemma keeps_handles_refl s : keeps_handles s s.
Proof. apply keeps_handles_same; reflexivity. Qed.

Lemma keeps_handles_stt_none s : keeps_handles s (with_stt_proc None s).
Proof. split; simpl; [discriminate | auto]. Qed.

Lemma keeps_handles_ollama_none s : keeps_handles s (with_ollama_proc None s).
Proof. split; simpl; [auto | discriminate]. Qed.

Lemma keeps_handles_managed x s : keeps_handles s (with_ollama_managed x s).
Proof. apply keeps_handles_same; reflexivity. Qed.

Lemma keeps_handles_stage x s : keeps_handles s (with_stage x s).
Proof. apply keeps_handles_same; reflexivity. Qed.

Lemma keeps_handles_last_error x s : keeps_handles s (with_last_error x s).
Proof. apply keeps_handles_same; reflexivity. Qed.

Lemma keeps_handles_warm_reset m s :
  keeps_handles s (with_warm_done false (with_warm_model m s)).
Proof. apply keeps_handles_same; reflexivity. Qed.

Lemma keeps_handles_warm_done x s : keeps_handles s (with_warm_done x s).
Proof. apply keeps_handles_same; reflexivity. Qed.

Lemma keeps_handles_ensuring x s : keeps_handles s (with_ensuring x s).
Proof. apply keeps_handles_same; reflexivity. Qed.

Lemma keeps_handles_shutdown_flag x s : keeps_handles s (with_shutdown_flag x s).
Proof. apply keeps_handles_same; reflexivity. Qed.

Lemma keeps_handles_ensure_locked s : keeps_handles s (ensure_locked s).2.
Proof. unfold ensure_locked. destruct (ensuring s); apply keeps_handles_same; reflexivity. Qed.

Lemma keeps_handles_acquire id body a b s :
  keeps_handles s (acquire_locked id body a b s).
Proof. apply keeps_handles_same; reflexivity. Qed.

Lemma keeps_handles_heartbeat id now s : keeps_handles s (heartbeat_locked id now s).2.
Proof.
  unfold heartbeat_locked. destruct (leases s !! id); apply keeps_handles_same; reflexivity.
Qed.

Lemma keeps_handles_release id now s : keeps_handles s (release_locked id now s).
Proof. unfold release_locked. case_decide; apply keeps_handles_same; reflexivity. Qed.

Lemma keeps_handles_reaper cfg now s : keeps_handles s (reaper_locked cfg now s).2.
Proof. unfold reaper_locked. case_decide; apply keeps_handles_same; reflexivity. Qed.

Lemma keeps_handles_teardown_done now s : keeps_handles s (teardown_done_locked now s).
Proof. apply keeps_handles_same; reflexivity. Qed.

#[export] Hint Resolve keeps_handles_refl keeps_handles_stt_none
  keeps_handles_ollama_none keeps_handles_managed keeps_handles_stage
  keeps_handles_last_error keeps_handles_warm_reset keeps_handles_warm_done
  keeps_handles_ensuring keeps_handles_shutdown_flag keeps_handles_ensure_locked
  keeps_handles_acquire keeps_handles_heartbeat keeps_handles_release
  keeps_handles_reaper keeps_handles_teardown_done : resp.
#[export] Hint Extern 1 (no_signal _ _) => (unfold no_signal; simpl; tauto) : resp.

(** One rule of the proof that a program owns the processes it signals. *)
Ltac own_step :=
  match goal with
  | |- owns _ (Ret _) any_post => intros ? ?; exact I
  | |- owns _ (Throw _) _ => exact I
  | |- owns _ (attribute_error _) _ => exact I
  | |- owns _ (bind _ _) _ => apply owns_seq; [| intros ? ? ?]
  | |- owns _ (try_except _ _) _ => apply owns_try_except; [| intros ? ? ?]
  | |- owns _ (swallow _) _ => apply owns_try_except; [| intros ? ? ?]
  | |- owns _ (try_finally _ _) _ => apply owns_try_finally; [| intros ?]
  | |- owns _ (match ?x with _ => _ end) _ => destruct x
  | |- owns _ _ any_post => solve [eauto with own]
  | |- owns _ _ any_post => apply owns_plain; solve [resp]
  end.

Ltac own := repeat own_step.

Section Ownership.
Context (cfg : Config) (py : Python).

Lemma owns_stop_process (H : procs) h : H h -> owns H (stop_process h) any_post.
Proof.
  intros Hh. unfold stop_process, call_raising, call. simpl.
  intros H1 Hs1. split; [intros x [<-|[]]; auto |].
  intros [e|[]]; simpl.
  - intros H2 Hs2. split; [intros x [<-|[]]; apply Hs2; left; auto |].
    intros [e'|[]]; simpl; intros; exact I.
  - intros H2 Hs2. split; [intros x [<-|[]]; apply Hs2; left; auto |].
    intros [e|[]]; simpl.
    + intros H3 Hs3. split; [intros x [<-|[]]; apply Hs3; left; apply Hs2; left; auto |].
      intros [e'|[]]; simpl; intros; exact I.
    + intros; exact I.
Qed.

Lemma owns_stop_stt (H : procs) : owns H _stop_stt any_post.
Proof.
  unfold _stop_stt, read, modify, atomic. cbn [owns bind fst snd].
  intros H1 Hs1 s Hk1. split; [exact Hk1 |].
  intros H2 Hs2 s2 Hk2. split; [split; simpl; [discriminate | apply Hk2] |].
  destruct (stt_proc s) as [h|] eqn:Hp; [| intros ? ?; exact I].
  apply owns_seq.
  - apply owns_stop_process, Hs2, (proj1 Hk1 _ Hp).
  - intros [] H3 _. apply owns_plain. resp.
Qed.

Lemma owns_stop_ollama (H : procs) : owns H _stop_ollama any_post.
Proof.
  unfold _stop_ollama, read, modify, atomic. cbn [owns bind fst snd].
  intros H1 Hs1 s Hk1. split; [exact Hk1 |].
  destruct (ollama_managed s); cbn [owns bind fst snd negb]; [| intros ? ?; exact I].
  intros H2 Hs2 s2 Hk2. split; [exact Hk2 |].
  intros H3 Hs3 s3 Hk3. split; [split; simpl; [apply Hk3 | discriminate] |].
  intros H4 Hs4 s4 Hk4. split; [exact Hk4 |].
  destruct (ollama_proc s2) as [h|] eqn:Hp; [| intros ? ?; exact I].
  apply owns_seq.
  - apply owns_stop_process, Hs4, Hs3, (proj2 Hk2 _ Hp).
  - intros [] H5 _. apply owns_plain. resp.
Qed.

Lemma owns_popen_hidden (H : procs) cmd o e :
  owns H (_popen_hidden cmd o e) (fun h H' => H' h).
Proof.
  unfold _popen_hidden, call_raising, call. simpl.
  intros H1 Hs1. split; [intros h [] |].
  intros [x|h]; simpl; [exact I |].
  intros H2 Hs2. apply Hs2. right. left. reflexivity.
Qed.

Lemma owns_ensure_stt (H : procs) : owns H (_ensure_stt cfg py) any_post.
Proof.
  unfold _ensure_stt.
  apply owns_seq; [apply owns_plain; resp | intros up H1 Hs1].
  destruct up; [intros ? ?; exact I |].
  apply owns_seq; [apply owns_plain; resp | intros p0 H2 Hs2].
  apply owns_seq; [apply owns_plain; resp | intros [] H3 Hs3].
  apply owns_seq; [apply owns_plain; resp | intros p1 H4 Hs4].
  apply owns_seq; [| intros [] H5 Hs5; apply owns_plain; resp].
  destruct p1 as [h1|]; [intros ? ?; exact I |].
  eapply owns_bind; [apply owns_popen_hidden |].
  intros h H5 Hs5 Hh. unfold modify, read, atomic. cbn [owns bind fst snd].
  intros H6 Hs6 s [Hk1 Hk2].
  split; [split; simpl; [intros x [= <-]; apply Hs6, Hh | exact Hk2] |].
  intros H7 Hs7 s7 Hk7. split; [exact Hk7 |].
  destruct (stt_proc s7); [apply owns_plain; resp | exact I].
Qed.

Lemma owns_ensure_ollama_server (H : procs) :
  owns H (_ensure_ollama_server cfg py) any_post.
Proof.
  unfold _ensure_ollama_server.
  apply owns_seq; [apply owns_plain; resp | intros up H1 Hs1].
  destruct up; [intros ? ?; exact I |].
  destruct (negb (OLLAMA_MANAGE_SERVER cfg)); [exact I |].
  apply owns_seq; [apply owns_plain; resp | intros p0 H2 Hs2].
  apply owns_seq; [apply owns_plain; resp | intros [] H3 Hs3].
  apply owns_seq; [apply owns_plain; resp | intros p1 H4 Hs4].
  apply owns_seq; [| intros [] H5 Hs5; apply owns_plain; resp].
  destruct p1 as [h1|]; [intros ? ?; exact I |].
  apply owns_seq; [apply owns_plain; resp | intros found H5 Hs5].
  eapply owns_bind; [apply owns_popen_hidden |].
  intros h H6 Hs6 Hh. unfold modify, read, atomic. cbn [owns bind fst snd].
  intros H7 Hs7 s [Hk1 Hk2].
  split; [split; simpl; [exact Hk1 | intros x [= <-]; apply Hs7, Hh] |].
  intros H8 Hs8 s8 Hk8. split; [exact Hk8 |].
  intros H9 Hs9 s9 Hk9. split; [exact Hk9 |].
  destruct (ollama_proc s9); [apply owns_plain; resp | exact I].
Qed.

Lemma owns_set_stage (H : procs) x : owns H (set_stage x) any_post.
Proof. unfold set_stage. apply owns_plain. resp. Qed.

Lemma owns_set_error (H : procs) x : owns H (set_error x) any_post.
Proof. unfold set_error. apply owns_plain. resp. Qed.

#[local] Hint Resolve owns_stop_stt owns_stop_ollama owns_ensure_stt
  owns_ensure_ollama_server owns_set_stage owns_set_error : own.

Lemma owns_ensure_all (H : procs) model : owns H (_ensure_all cfg py model) any_post.
Proof. unfold _ensure_all. own. Qed.

Lemma owns_worker (H : procs) model : owns H (worker cfg py model) any_post.
Proof.
  unfold worker. apply owns_try_finally; [| intros H'; apply owns_plain; resp].
  apply owns_try_except; [apply owns_ensure_all |].
  intros e H' _. own.
Qed.

Lemma owns_idle_teardown (H : procs) warm : owns H (idle_teardown cfg py warm) any_post.
Proof. unfold idle_teardown. own. Qed.

#[local] Hint Resolve owns_idle_teardown : own.

Lemma owns_reaper_iteration (H : procs) : owns H (reaper_iteration cfg py) any_post.
Proof. unfold reaper_iteration. own. Qed.

Lemma owns_reaper_thread (H : procs) n : owns H (_reaper_thread cfg py n) any_post.
Proof.
  revert H. induction n as [|n IH]; intros H; cbn [_reaper_thread]; [intros ? ?; exact I |].
  apply owns_seq; [apply owns_plain; resp | intros stop H1 _].
  destruct stop; [intros ? ?; exact I |].
  apply owns_seq; [apply owns_reaper_iteration | intros [] H2 _; apply IH].
Qed.

Lemma owns_shutdown (H : procs) : owns H (_shutdown cfg py) any_post.
Proof. unfold _shutdown. own. Qed.

Lemma owns_do_GET (H : procs) req : owns H (do_GET cfg py req) any_post.
Proof. apply owns_plain. apply respects_do_GET; eauto with resp. Qed.

Lemma owns_do_POST (H : procs) req : owns H (do_POST cfg py req) any_post.
Proof. apply owns_plain. apply respects_do_POST; eauto with resp. Qed.

End Ownership.

(** *** The running daemon signals only processes it spawned *)

Lemma spawned_app (a b : list event) : spawned (a ++ b) = spawned a ++ spawned b.
Proof. unfold spawned. rewrite map_app, concat_app. reflexivity. Qed.

Lemma signal_of_called {B : Type} (q : io B) (b : B) :
  signal_of (Called q b) = target_call q.
Proof. destruct q; reflexivity. Qed.

Lemma handles_known_mono (H H' : procs) s :
  handles_known H s -> sub H H' -> handles_known H' s.
Proof. intros [H1 H2] Hs. split; intros h Hh; apply Hs; auto. Qed.

Lemma signals_own_snoc (cs : list event) (c : event) :
  signals_own cs -> (forall h, In h (signal_of c) -> In h (spawned cs)) ->
  signals_own (cs ++ [c]).
Proof.
  intros Hown Hc pre c' post Heq h Hh.
  destruct post as [|x post _] using rev_ind.
  - apply app_inj_tail in Heq as [-> ->]. apply Hc, Hh.
  - change (pre ++ c' :: post ++ [x]) with (pre ++ (c' :: post) ++ [x]) in Heq.
    rewrite app_assoc in Heq. apply app_inj_tail in Heq as [Heq _].
    eapply Hown; eauto.
Qed.

Lemma pool_mono (H H' : procs) (l : list thread) :
  sub H H' -> Forall (fun t => owns H (th_code t) any_post) l ->
  Forall (fun t => owns H' (th_code t) any_post) l.
Proof.
  intros Hs Hl. induction Hl as [|t l Ht _ IH]; constructor; [| exact IH].
  exact (owns_mono _ _ _ _ Ht Hs).
Qed.

Section OwnedInvariant.
Context (cfg : Config) (py : Python).

Lemma owned_step sys sys' : sys_step cfg py sys sys' -> owned sys -> owned sys'.
Proof.
  intros Hstep (Hk & Hpool & Hsig).
  destruct Hstep as [sys req|sys req|sys|sys i kd B f k Hi|sys i kd B q k b Hi];
    unfold owned; cbn [shared pool history].
  - split; [exact Hk |]. split; [| exact Hsig].
    apply Forall_app. split; [exact Hpool |].
    constructor; [apply owns_do_GET | constructor].
  - split; [exact Hk |]. split; [| exact Hsig].
    apply Forall_app. split; [exact Hpool |].
    constructor; [apply owns_do_POST | constructor].
  - split; [exact Hk |]. split; [| exact Hsig].
    apply Forall_app. split; [exact Hpool |].
    constructor; [apply owns_shutdown | constructor].
  - assert (Hsub : sub (fun h => In h (spawned (history sys)))
                       (fun h => In h (spawned (history sys ++ [Wrote (f (shared sys)).2])))).
    { intros h Hh. rewrite spawned_app. apply in_or_app. left. exact Hh. }
    pose proof (Forall_lookup_1 _ _ _ _ Hpool Hi) as Ht. cbn [th_code owns] in Ht.
    destruct (Ht _ Hsub (shared sys) (handles_known_mono _ _ _ Hk Hsub)) as [H1 H2].
    split; [exact H1 |]. split.
    + apply Forall_insert; [| exact H2].
      exact (pool_mono _ _ _ Hsub Hpool).
    + apply signals_own_snoc; [exact Hsig | intros h []].
  - assert (Hsub : sub (fun h => In h (spawned (history sys)) \/ In h (spawn_call q b))
                       (fun h => In h (spawned (history sys ++ [Called q b])))).
    { intros h Hh. rewrite spawned_app. apply in_or_app.
      destruct Hh as [Hh|Hh]; [left; exact Hh | right].
      unfold spawned. simpl. rewrite app_nil_r. exact Hh. }
    assert (Hsub' : sub (fun h => In h (spawned (history sys)))
                        (fun h => In h (spawned (history sys ++ [Called q b]))))
      by (intros h Hh; apply Hsub; left; exact Hh).
    pose proof (Forall_lookup_1 _ _ _ _ Hpool Hi) as Ht. cbn [th_code owns] in Ht.
    destruct (Ht _ (sub_refl _)) as [H1 H2].
    split; [eapply handles_known_mono; eauto |]. split.
    + apply Forall_app. split.
      * apply Forall_insert; [| exact (owns_mono _ _ _ _ (H2 b) Hsub)].
        exact (pool_mono _ _ _ Hsub' Hpool).
      * destruct q; simpl; constructor; [apply owns_worker | constructor].
    + apply signals_own_snoc; [exact Hsig |].
      intros h Hh. rewrite signal_of_called in Hh. apply H1, Hh.
Qed.

Lemma owned_reachable sys : reachable cfg py sys -> owned sys.
Proof.
  intros (now & turns & Hrtc). revert sys Hrtc. apply rtc_ind_r.
  - split; [split; simpl; discriminate |]. split.
    + simpl. constructor; [apply owns_reaper_thread | constructor].
    + intros pre c post Heq. simpl in Heq. destruct pre; discriminate.
  - intros y z _ Hstep IH. eapply owned_step; eauto.
Qed.

End OwnedInvariant.

(** C3, as the code has it.  In every reachable state of the daemon, every
    process that some thread has terminated, waited for or killed was
    returned before by a [Popen] of the daemon itself, and so were the
    handles held in [stt_proc] and [ollama_proc]: a server that was already
    running when ensure ran is never signalled.  A teardown, by the idle
    reaper or by the shutdown hook, signals only the process held in
    [stt_proc] and, when [ollama_managed] is set, the one held in
    [ollama_proc]: with no STT handle and [ollama_managed] clear it signals
    no process at all.  The TTS service has no ownership flag: the commands
    a teardown runs are those of [_stop_kokoro], which does not read the
    state and runs the compose [stop] command whenever it finds an
    orchestrator. *)
Theorem C3_ownership (cfg : Config) (py : Python) {W : Type}
    (env : forall B : Type, io B -> W -> B * W)
    (sys : system) (warm : option string) (s : DaemonState) (w : W) :
  reachable cfg py sys ->
  let r := exec env (idle_teardown cfg py warm) s w in
  let r' := exec env (_shutdown cfg py) s w in
  (forall pre c post h,
     history sys = pre ++ c :: post -> In h (signal_of c) -> In h (spawned pre)) /\
  (forall h, stt_proc (shared sys) = Some h \/ ollama_proc (shared sys) = Some h ->
     In h (spawned (history sys))) /\
  (forall p, In p (signalled (events r)) \/ In p (signalled (events r')) ->
     stt_proc s = Some p \/ (ollama_managed s = true /\ ollama_proc s = Some p)) /\
  (stt_proc s = None -> ollama_managed s = false ->
   signalled (events r) = [] /\ signalled (events r') = []) /\
  (exists w1 w1',
     ran (events r) = ran (events (exec env (_stop_kokoro cfg py) s w1)) /\
     ran (events r') = ran (events (exec env (_stop_kokoro cfg py) s w1'))) /\
  (forall s' w1,
     ran (events (exec env (_stop_kokoro cfg py) s' w1)) =
       match env _ (Which "docker") w1 with
       | (Some _, _) =>
           [["docker"; "compose"; "-f"; KOKORO_COMPOSE_FILE cfg; "stop"]%string]
       | (None, w2) =>
           match env _ (Which "docker-compose") w2 with
           | (Some _, _) =>
               [["docker-compose"; "-f"; KOKORO_COMPOSE_FILE cfg; "stop"]%string]
           | (None, _) => []
           end
       end) /\
  ((forall w0, is_Some (env _ (Which "docker") w0).1) ->
   ran (events r) = [["docker"; "compose"; "-f"; KOKORO_COMPOSE_FILE cfg; "stop"]%string]
   /\
   ran (events r') = [["docker"; "compose"; "-f"; KOKORO_COMPOSE_FILE cfg; "stop"]%string]).
Proof.
  intros Hreach. cbv zeta.
  destruct (owned_reachable cfg py sys Hreach) as (Hknown & _ & Hown).
  pose proof (idle_teardown_run cfg py env warm s w) as (_ & Hs & w1 & Hr).
  pose proof (shutdown_run cfg py env s w) as (_ & _ & Hs' & w1' & Hr').
  cbv zeta in *.
  assert (Hk : forall s' w0,
    ran (events (exec env (_stop_kokoro cfg py) s' w0)) =
      match env _ (Which "docker") w0 with
      | (Some _, _) =>
          [["docker"; "compose"; "-f"; KOKORO_COMPOSE_FILE cfg; "stop"]%string]
      | (None, w2) =>
          match env _ (Which "docker-compose") w2 with
          | (Some _, _) =>
              [["docker-compose"; "-f"; KOKORO_COMPOSE_FILE cfg; "stop"]%string]
          | (None, _) => []
          end
      end)
    by (intros s' w0; apply stop_kokoro_run).
  split; [intros pre c post h Heq Hh; exact (Hown pre c post Heq h Hh) |].
  split; [intros h [Hh|Hh]; [apply (proj1 Hknown h Hh) | apply (proj2 Hknown h Hh)] |].
  split; [intros p [Hp|Hp]; auto |].
  split.
  { intros Hstt Hm. split; apply nothing_in_list; intros p Hp.
    - destruct (Hs p Hp) as [H|[H _]]; congruence.
    - destruct (Hs' p Hp) as [H|[H _]]; congruence. }
  split; [exists w1, w1'; auto |].
  split; [exact Hk |].
  intros Hdocker. rewrite Hr, Hr', !Hk.
  pose proof (Hdocker w1) as [x Hx]. pose proof (Hdocker w1') as [x' Hx'].
  destruct (env _ (Which "docker") w1) as [[?|] ?]; simpl in Hx; [| discriminate].
  destruct (env _ (Which "docker") w1') as [[?|] ?]; simpl in Hx'; [| discriminate].
  auto.
Qed.

Lemma C3_ownership_witness :
  signalled (events (exec healthy_env (idle_teardown default_config sample_python None)
                       (DaemonState_init 0) 100)) = [].
Proof.
  assert (Hr : reachable default_config sample_python
                 (boot default_config sample_python 0 1))
    by (exists 0, 1%nat; apply rtc_refl).
  pose proof (C3_ownership default_config sample_python healthy_env
                (boot default_config sample_python 0 1) None
                (DaemonState_init 0) 100 Hr) as H.
  cbv zeta in H. destruct H as (_ & _ & _ & H & _).
  exact (proj1 (H eq_refl eq_refl)).
Defined.

(** * Further properties of the daemon *)

(** ** The lease handlers *)

Section LeaseHandlers.
Context (cfg : Config) (py : Python).
Context {W : Type} (env : forall B : Type, io B -> W -> B * W).

Lemma acquire_run req s w :
  path req = "/lease/acquire"%string ->
  let rd := readings env w in
  let id := make_lease_id (rd_ms rd) (rd_pid rd) (rd_ident rd) in
  let r := exec env (do_POST cfg py req) s w in
  outcome r = inr tt /\
  final r = acquire_locked id (_read_json py req) (rd_seen rd) (rd_zero rd) s /\
  responses (events r) = [(200, acquire_body cfg id)] /\
  starts (events r) = [] /\
  exists w', world r = w'.
Proof.
  intros Hpath. cbv zeta. unfold do_POST, readings. rewrite Hpath.
  cbn [String.eqb Ascii.eqb Bool.eqb bind].
  unfold _now, call, modify, atomic, _write_json. cbn [bind exec].
  destruct (env Z WallClockMs w) as [ms w1].
  destruct (env Z GetPid w1) as [pid w2].
  destruct (env Z GetIdent w2) as [ident w3].
  destruct (env Z Now w3) as [seen w4].
  destruct (env Z Now w4) as [zero w5]. cbn.
  destruct (env unit (SendResponse 200 _) w5) as [[] w6]. cbn.
  eauto 10.
Qed.

Lemma make_lease_id_not_empty ms pid ident : make_lease_id ms pid ident <> EmptyString.
Proof. unfold make_lease_id. simpl. discriminate. Qed.

Lemma heartbeat_run req id s w :
  names_lease py req "/lease/heartbeat" id -> id <> EmptyString ->
  let now := (env _ Now w).1 in
  let r := exec env (do_POST cfg py req) s w in
  outcome r = inr tt /\
  final r = (heartbeat_locked id now s).2 /\
  responses (events r) =
    [if (heartbeat_locked id now s).1 then (200, ok_body)
     else (404, error_body "unknown_lease")].
Proof.
  intros (Hpath & d & Hbody & Hd) Hid. cbv zeta.
  unfold do_POST. rewrite Hpath, Hbody. simpl body_get.
  cbn [String.eqb Ascii.eqb Bool.eqb bind]. rewrite Hd.
  apply String.eqb_neq in Hid. rewrite Hid.
  unfold _now, call, atomic, _write_json. cbn [bind exec].
  destruct (env Z Now w) as [now w1]. cbn [fst snd].
  destruct (heartbeat_locked id now s) as [[|] s'] eqn:Hh; cbn.
  - destruct (env unit (SendResponse 200 ok_body) w1) as [[] w2]. cbn. auto.
  - destruct (env unit (SendResponse 404 _) w1) as [[] w2]. cbn. auto.
Qed.

Lemma release_run req id s w :
  names_lease py req "/lease/release" id -> id <> EmptyString ->
  let now := (env _ Now w).1 in
  let r := exec env (do_POST cfg py req) s w in
  outcome r = inr tt /\
  final r = release_locked id now s /\
  responses (events r) = [(200, ok_body)].
Proof.
  intros (Hpath & d & Hbody & Hd) Hid. cbv zeta.
  unfold do_POST. rewrite Hpath, Hbody. simpl body_get.
  cbn [String.eqb Ascii.eqb Bool.eqb bind]. rewrite Hd.
  apply String.eqb_neq in Hid. rewrite Hid.
  unfold _now, call, modify, atomic, _write_json. cbn [bind exec].
  destruct (env Z Now w) as [now w1]. cbn.
  destruct (env unit (SendResponse 200 ok_body) w1) as [[] w2]. cbn. auto.
Qed.

Lemma leases_release id now s : leases (release_locked id now s) = delete id (leases s).
Proof. unfold release_locked. case_decide; reflexivity. Qed.

(** X1.  [POST /lease/acquire] succeeds whatever the body is: it answers 200
    with the new id, the heartbeat period and the TTL; the lease stored under
    the id carries the id, the clock reading and the request body ([{}] for a
    missing, undecodable or falsy body); every other lease is as before, and
    [last_zero_lease_time] is the second clock reading.  No thread is
    started. *)
Theorem X1_acquire_registers (req : request) (s : DaemonState) (w : W) :
  path req = "/lease/acquire"%string ->
  let rd := readings env w in
  let id := make_lease_id (rd_ms rd) (rd_pid rd) (rd_ident rd) in
  let r := exec env (do_POST cfg py req) s w in
  outcome r = inr tt /\
  responses (events r) = [(200, acquire_body cfg id)] /\
  starts (events r) = [] /\
  leases (final r) !! id = Some (mkLease id (rd_seen rd) (meta_of (_read_json py req))) /\
  (forall id', id' <> id -> leases (final r) !! id' = leases s !! id') /\
  last_zero_lease_time (final r) = rd_zero rd /\
  (content_length req <= 0 -> meta_of (_read_json py req) = JDict []) /\
  (json_loads py (take (Z.to_nat (content_length req)) (rfile req)) = None ->
   meta_of (_read_json py req) = JDict []).
Proof.
  intros Hpath. cbv zeta.
  destruct (acquire_run req s w Hpath) as (Ho & Hf & Hr & Hs & _). cbv zeta in *.
  rewrite Hf. unfold acquire_locked. cbn.
  split; [exact Ho |]. split; [exact Hr |]. split; [exact Hs |].
  split; [apply lookup_insert_eq |].
  split; [intros id' Hne; apply lookup_insert_ne; congruence |].
  split; [reflexivity |].
  unfold meta_of, _read_json. split.
  - intros Hn. apply Z.leb_le in Hn. rewrite Hn. reflexivity.
  - intros Hn. rewrite Hn. destruct (content_length req <=? 0); reflexivity.
Qed.

(** X2.  The life of a lease.  After an acquisition that returned [id], a
    heartbeat naming [id] is answered 200 and sets [last_seen] of that lease
    to its clock reading; a release naming [id] is then answered 200, and if
    [id] was not in the map before the acquisition the map is again what it
    was before it. *)
Theorem X2_lease_round_trip (req hb rel : request) (s : DaemonState) (w : W) :
  let rd := readings env w in
  let id := make_lease_id (rd_ms rd) (rd_pid rd) (rd_ident rd) in
  path req = "/lease/acquire"%string ->
  names_lease py hb "/lease/heartbeat" id ->
  names_lease py rel "/lease/release" id ->
  let r1 := exec env (do_POST cfg py req) s w in
  let r2 := exec env (do_POST cfg py hb) (final r1) (world r1) in
  let r3 := exec env (do_POST cfg py rel) (final r2) (world r2) in
  responses (events r2) = [(200, ok_body)] /\
  leases (final r2) !! id =
    Some (mkLease id (env _ Now (world r1)).1 (meta_of (_read_json py req))) /\
  responses (events r3) = [(200, ok_body)] /\
  leases (final r3) !! id = None /\
  (leases s !! id = None -> leases (final r3) = leases s).
Proof.
  cbv zeta. intros Hpath Hhb Hrel.
  set (rd := readings env w) in *.
  set (id := make_lease_id (rd_ms rd) (rd_pid rd) (rd_ident rd)) in *.
  assert (Hid : id <> EmptyString) by apply make_lease_id_not_empty.
  destruct (acquire_run req s w Hpath) as (_ & Hf1 & _ & _ & _). cbv zeta in Hf1.
  fold rd in Hf1. fold id in Hf1.
  set (r1 := exec env (do_POST cfg py req) s w) in *.
  destruct (heartbeat_run hb id (final r1) (world r1) Hhb Hid) as (_ & Hf2 & Hr2).
  cbv zeta in Hf2, Hr2.
  set (r2 := exec env (do_POST cfg py hb) (final r1) (world r1)) in *.
  destruct (release_run rel id (final r2) (world r2) Hrel Hid) as (_ & Hf3 & Hr3).
  cbv zeta in Hf3, Hr3.
  assert (Hl1 : leases (final r1) =
                <[id := mkLease id (rd_seen rd) (meta_of (_read_json py req))]> (leases s))
    by (rewrite Hf1; reflexivity).
  assert (Hh : heartbeat_locked id (env Z Now (world r1)).1 (final r1) =
               (true, with_leases
                  (<[id := mkLease id (env Z Now (world r1)).1
                              (meta_of (_read_json py req))]> (leases (final r1)))
                  (final r1))).
  { unfold heartbeat_locked. rewrite Hl1, lookup_insert_eq. reflexivity. }
  rewrite Hh in Hf2, Hr2. cbn [fst snd] in Hf2, Hr2.
  split; [exact Hr2 |].
  split; [rewrite Hf2; cbn; apply lookup_insert_eq |].
  split; [exact Hr3 |].
  rewrite Hf3, leases_release.
  split; [apply lookup_delete_eq |].
  intros Hfresh. rewrite Hf2. cbn. rewrite Hl1.
  rewrite insert_insert_eq, delete_insert_id by exact Hfresh. reflexivity.
Qed.


End LeaseHandlers.

Lemma X1_acquire_registers_witness :
  responses (events (exec healthy_env
     (do_POST default_config sample_python (sample_post "/lease/acquire"))
     (DaemonState_init 0) 100))
  = [(200, acquire_body default_config "l1700000000000_4242_140001")].
Proof.
  exact (proj1 (proj2 (X1_acquire_registers default_config sample_python healthy_env
                         (sample_post "/lease/acquire") (DaemonState_init 0) 100
                         eq_refl))).
Defined.

Lemma X2_lease_round_trip_witness :
  let py := lease_python "l1700000000000_4242_140001" in
  let r1 := exec healthy_env (do_POST default_config py (sample_post "/lease/acquire"))
              sample_state 100 in
  let r2 := exec healthy_env (do_POST default_config py (sample_post "/lease/heartbeat"))
              (final r1) (world r1) in
  let r3 := exec healthy_env (do_POST default_config py (sample_post "/lease/release"))
              (final r2) (world r2) in
  leases (final r3) = leases sample_state.
Proof.
  cbv zeta.
  refine (proj2 (proj2 (proj2 (proj2
    (X2_lease_round_trip default_config (lease_python "l1700000000000_4242_140001")
       healthy_env (sample_post "/lease/acquire") (sample_post "/lease/heartbeat")
       (sample_post "/lease/release") sample_state 100 eq_refl _ _)))) _).
  - split; [reflexivity |]. eexists. split; reflexivity.
  - split; [reflexivity |]. eexists. split; reflexivity.
  - vm_compute. reflexivity.
Defined.


(** ** Expiry *)

Lemma lookup_expire cfg now (m : gmap string Lease) id :
  expire cfg now m !! id =
    match m !! id with
    | Some l => if now - last_seen l <=? LEASE_TTL_S cfg then Some l else None
    | None => None
    end.
Proof.
  unfold expire. rewrite map_lookup_filter.
  destruct (m !! id) as [l|]; [| reflexivity]. cbn.
  unfold is_stale. rewrite Z.leb_antisym.
  destruct (LEASE_TTL_S cfg <? now - last_seen l); cbn.
  - rewrite option_guard_False by discriminate. reflexivity.
  - rewrite option_guard_True by reflexivity. reflexivity.
Qed.

Lemma leases_reaper cfg now s :
  leases (reaper_locked cfg now s).2 = expire cfg now (leases s).
Proof. unfold reaper_locked. case_decide; reflexivity. Qed.

(** X4.  A heartbeat keeps a lease alive for [LEASE_TTL_S]: a reaper tick
    that reads the clock at most [LEASE_TTL_S] after a heartbeat finds the
    lease in the map, does not tear down and stamps [last_zero_lease_time].
    The tick keeps exactly the leases last seen at most [LEASE_TTL_S] ago
    and adds none. *)
Theorem X4_heartbeat_keeps_alive (cfg : Config) (id : string) (l : Lease)
    (t now : Z) (s : DaemonState) :
  leases s !! id = Some l ->
  now - t <= LEASE_TTL_S cfg ->
  let s1 := (heartbeat_locked id t s).2 in
  let s2 := (reaper_locked cfg now s1).2 in
  leases s2 !! id = Some (mkLease (lease_id l) t (meta l)) /\
  tears_down cfg now s1 = false /\
  last_zero_lease_time s2 = now /\
  (forall id' l', leases s2 !! id' = Some l' ->
     leases s1 !! id' = Some l' /\ now - last_seen l' <= LEASE_TTL_S cfg) /\
  (forall id' l', leases s1 !! id' = Some l' ->
     LEASE_TTL_S cfg < now - last_seen l' -> leases s2 !! id' = None).
Proof.
  intros Hl Ht. cbv zeta.
  assert (Hs1 : (heartbeat_locked id t s).2 =
                with_leases (<[id := mkLease (lease_id l) t (meta l)]> (leases s)) s)
    by (unfold heartbeat_locked; rewrite Hl; reflexivity).
  rewrite Hs1. set (s1 := with_leases _ s).
  assert (Hin : leases (reaper_locked cfg now s1).2 !! id
                = Some (mkLease (lease_id l) t (meta l))).
  { rewrite leases_reaper, lookup_expire. unfold s1. cbn.
    rewrite lookup_insert_eq. cbn.
    apply Z.leb_le in Ht. rewrite Ht. reflexivity. }
  assert (Hne : size (expire cfg now (leases s1)) <> 0%nat).
  { intros Hz. apply map_size_empty_iff in Hz.
    rewrite leases_reaper, Hz, lookup_empty in Hin. discriminate. }
  split; [exact Hin |].
  split; [| split; [| split]].
  - unfold tears_down, reaper_locked. cbn. case_decide; [contradiction | reflexivity].
  - unfold reaper_locked. cbn. case_decide; [contradiction | reflexivity].
  - intros id' l'. rewrite leases_reaper, lookup_expire.
    destruct (leases s1 !! id') as [x|]; [| discriminate].
    destruct (now - last_seen x <=? LEASE_TTL_S cfg) eqn:Hx; [| discriminate].
    intros [= ->]. apply Z.leb_le in Hx. auto.
  - intros id' l' Hl' Hold. rewrite leases_reaper, lookup_expire, Hl'.
    apply Z.leb_gt in Hold. rewrite Hold. reflexivity.
Qed.

Lemma X4_heartbeat_keeps_alive_witness :
  leases (reaper_locked default_config 20000
            (heartbeat_locked "l1_2_3" 5000 sample_state).2).2 !! "l1_2_3"%string
  = Some (mkLease "l1_2_3" 5000 (JDict [])).
Proof.
  refine (proj1 (X4_heartbeat_keeps_alive default_config "l1_2_3" sample_lease
                   5000 20000 sample_state _ _)).
  - reflexivity.
  - vm_compute. discriminate.
Defined.

(** ** One turn of the reaper *)

Section ReaperTurn.
Context (cfg : Config) (py : Python).
Context {W : Type} (env : forall B : Type, io B -> W -> B * W).

Lemma idle_teardown_frame warm s w :
  same_but_handles s (final (exec env (idle_teardown cfg py warm) s w)).
Proof.
  apply (exec_respects env same_but_handles any_call);
    [apply same_but_handles_refl | apply same_but_handles_trans |].
  apply respects_idle_teardown; unfold same_but_handles; simpl; try tauto;
    intros; exact I.
Qed.

Lemma tears_down_empty now s : tears_down cfg now s = true -> expire cfg now (leases s) = ∅.
Proof.
  unfold tears_down, reaper_locked. cbn. case_decide as Hz; [| discriminate].
  intros _. apply map_size_empty_iff, Hz.
Qed.

Lemma stop_ollama_final s w :
  let r := exec env _stop_ollama s w in
  ollama_managed (final r) = false /\
  (ollama_managed s = true -> ollama_proc (final r) = None) /\
  (ollama_managed s = false -> final r = s /\ events r = [Wrote s]).
Proof.
  unfold _stop_ollama, read, modify, atomic.
  cbn [bind exec fst snd outcome final world events].
  destruct (ollama_managed s) eqn:Hm; cbn [negb];
    [| cbn; repeat split; auto; discriminate].
  cbn [bind exec fst snd outcome final world events].
  assert (Hgoal : forall (p : prog unit) s0,
             respects unchanged any_call p ->
             let r := exec env p s0 w in final r = s0).
  { intros p s0 Hp. apply (exec_respects env unchanged any_call); auto.
    - reflexivity.
    - unfold unchanged. congruence. }
  set (s2 := with_ollama_managed false (with_ollama_proc None s)).
  assert (Hf : final (exec env (match ollama_proc s with
                                | Some h => stop_process h;; _log "stopped Ollama (managed)"
                                | None => Ret tt
                                end) s2 w) = s2).
  { apply Hgoal. destruct (ollama_proc s); [| exact I].
    apply respects_bind; [apply respects_stop_process | intros []; apply respects_log];
      intros; exact I. }
  rewrite Hf. cbn. split; [reflexivity |]. split; [reflexivity | discriminate].
Qed.

Lemma stops_final warm s w :
  let r := exec env (idle_teardown cfg py warm) s w in
  stt_proc (final r) = None /\ ollama_managed (final r) = false.
Proof.
  cbv zeta. unfold idle_teardown. rewrite exec_bind. cbv zeta.
  pose proof (unload_run cfg py env warm s w) as (Ho & Hf & _).
  destruct (exec env (if truthy_str warm
                      then _ollama_unload cfg py (default EmptyString warm)
                      else Ret tt) s w) as [o f w1 ev].
  cbn [outcome final world events] in *. subst o f.
  rewrite exec_bind. cbv zeta.
  pose proof (stop_stt_run env s w1) as (Ho1 & Hf1 & _).
  destruct (exec env _stop_stt s w1) as [o1 f1 w2 ev1].
  cbn [outcome final world events] in *. subst o1 f1.
  rewrite exec_bind. cbv zeta.
  pose proof (stop_kokoro_run cfg py env (with_stt_proc None s) w2) as (Ho2 & Hf2 & _).
  destruct (exec env (_stop_kokoro cfg py) (with_stt_proc None s) w2) as [o2 f2 w3 ev2].
  cbn [outcome final world events] in *. subst o2 f2.
  pose proof (stop_ollama_run env (with_stt_proc None s) w3) as (_ & _ & Hstt & _).
  pose proof (stop_ollama_final (with_stt_proc None s) w3) as (Hm & _).
  cbv zeta in *.
  destruct (exec env _stop_ollama (with_stt_proc None s) w3) as [o3 f3 w4 ev3].
  cbn [outcome final world events] in *.
  split; [rewrite Hstt; reflexivity | exact Hm].
Qed.


End ReaperTurn.

(** ** Requests the handlers do not serve *)

Section OtherRequests.
Context (cfg : Config) (py : Python).
Context {W : Type} (env : forall B : Type, io B -> W -> B * W).

Lemma not_found_run s w :
  let r := exec env (_write_json 404 (error_body "not_found")) s w in
  outcome r = inr tt /\ final r = s /\
  responses (events r) = [(404, error_body "not_found")] /\ starts (events r) = [] /\
  stages_of (events r) = [].
Proof.
  unfold _write_json, call. cbn.
  destruct (env unit (SendResponse 404 _) w) as [[] w']. cbn. auto.
Qed.

(** X6.  A [GET] on any path but [/status], and a [POST] on any path but the
    four served ones, is answered 404 [not_found]; the state is not written,
    no probe is made and no thread is started. *)
Theorem X6_unknown_path (get post : request) (s : DaemonState) (w : W) :
  path get <> "/status"%string ->
  ~ In (path post) ["/lease/acquire"; "/lease/heartbeat"; "/lease/release"; "/ensure"]%string ->
  let r := exec env (do_GET cfg py get) s w in
  let r' := exec env (do_POST cfg py post) s w in
  (outcome r = inr tt /\ final r = s /\
   events r = [Called (SendResponse 404 (error_body "not_found")) tt]) /\
  (outcome r' = inr tt /\ final r' = s /\
   events r' = [Called (SendResponse 404 (error_body "not_found")) tt]).
Proof.
  intros Hget Hpost. cbv zeta. split.
  - unfold do_GET. apply String.eqb_neq in Hget. rewrite Hget. cbn [negb].
    unfold _write_json, call. cbn.
    destruct (env unit (SendResponse 404 _) w) as [[] w']. cbn. auto.
  - unfold do_POST.
    assert (H1 : String.eqb (path post) "/lease/acquire" = false)
      by (apply String.eqb_neq; intros E; apply Hpost; rewrite E; simpl; auto).
    assert (H2 : String.eqb (path post) "/lease/heartbeat" = false)
      by (apply String.eqb_neq; intros E; apply Hpost; rewrite E; simpl; auto).
    assert (H3 : String.eqb (path post) "/lease/release" = false)
      by (apply String.eqb_neq; intros E; apply Hpost; rewrite E; simpl; auto).
    assert (H4 : String.eqb (path post) "/ensure" = false)
      by (apply String.eqb_neq; intros E; apply Hpost; rewrite E; simpl; auto).
    rewrite H1, H2, H3, H4.
    unfold _write_json, call. cbn.
    destruct (env unit (SendResponse 404 _) w) as [[] w']. cbn. auto.
Qed.

(** X7.  A heartbeat, release or ensure request whose body decodes to a JSON
    value that is not an object (a list, a number, a string, [null]) makes
    the handler raise at [body.get]: nothing is answered, the state is not
    written and no thread is started. *)
Theorem X7_non_object_body (req : request) (v : pyval) (s : DaemonState) (w : W) :
  In (path req) ["/lease/heartbeat"; "/lease/release"; "/ensure"]%string ->
  _read_json py req = JOther v ->
  let r := exec env (do_POST cfg py req) s w in
  (exists e, outcome r = inl e) /\ final r = s /\ events r = [].
Proof.
  intros Hpath Hbody. cbv zeta. unfold do_POST.
  destruct Hpath as [<-|[<-|[<-|[]]]];
    cbn [String.eqb Ascii.eqb Bool.eqb]; rewrite Hbody; cbn; eauto.
Qed.

End OtherRequests.

Lemma X7_non_object_body_witness :
  events (exec healthy_env (do_POST default_config list_python (sample_post "/ensure"))
            sample_state 100) = [].
Proof.
  refine (proj2 (proj2 (X7_non_object_body default_config list_python healthy_env
                          (sample_post "/ensure") (POpaque true "[1, 2]")
                          sample_state 100 _ eq_refl))).
  simpl. auto.
Defined.

Lemma X6_unknown_path_witness :
  events (exec healthy_env (do_GET default_config sample_python (sample_post "/health"))
            sample_state 100)
  = [Called (SendResponse 404 (error_body "not_found")) tt].
Proof.
  refine (proj2 (proj2 (proj1
    (X6_unknown_path default_config sample_python healthy_env
       (sample_post "/health") (sample_post "/lease") sample_state 100 _ _)))).
  - discriminate.
  - simpl. intuition discriminate.
Defined.

(** ** The requested model *)

Lemma lstrip_idem s : lstrip (lstrip s) = lstrip s.
Proof.
  induction s as [|c s IH]; simpl; [reflexivity |].
  destruct (is_space c) eqn:Hc; [exact IH |]. simpl. rewrite Hc. reflexivity.
Qed.

Lemma rstrip_idem s : rstrip (rstrip s) = rstrip s.
Proof.
  induction s as [|c s IH]; simpl; [reflexivity |].
  destruct (rstrip s) as [|c' r] eqn:Hr.
  - destruct (is_space c) eqn:Hc; simpl; [reflexivity |]. rewrite Hc. reflexivity.
  - simpl in *. rewrite IH. reflexivity.
Qed.

Lemma rstrip_keeps_head c s :
  is_space c = false -> exists r, rstrip (String c s) = String c r.
Proof.
  intros Hc. simpl. destruct (rstrip s); [rewrite Hc |]; eauto.
Qed.

Lemma lstrip_head s : lstrip s = EmptyString \/ exists c r, lstrip s = String c r /\ is_space c = false.
Proof.
  induction s as [|c s IH]; simpl; [auto |].
  destruct (is_space c) eqn:Hc; [exact IH | eauto].
Qed.

Lemma strip_idem s : strip (strip s) = strip s.
Proof.
  unfold strip.
  destruct (lstrip_head s) as [H|(c & r & H & Hc)]; rewrite H.
  - reflexivity.
  - destruct (rstrip_keeps_head c r Hc) as [r' Hr]. rewrite Hr.
    cbn [lstrip]. rewrite Hc, <- Hr. apply rstrip_idem.
Qed.

Lemma lstrip_blank s :
  forallb is_space (list_ascii_of_string s) = true -> lstrip s = EmptyString.
Proof.
  induction s as [|c s IH]; simpl; [reflexivity |].
  intros H. apply andb_true_iff in H as [Hc Hs]. rewrite Hc. auto.
Qed.



(** ** Lease ids *)

(** X9.  Two acquisitions get different ids as soon as they differ in the
    wall-clock millisecond, the pid or the thread ident; the second then
    leaves the lease of the first in the map. *)
Theorem X9_distinct_ids (cfg : Config) (py : Python) {W : Type}
    (env : forall B : Type, io B -> W -> B * W)
    (req req' : request) (s : DaemonState) (w : W) :
  path req = "/lease/acquire"%string -> path req' = "/lease/acquire"%string ->
  let r1 := exec env (do_POST cfg py req) s w in
  let rd := readings env w in
  let rd' := readings env (world r1) in
  (rd_ms rd, rd_pid rd, rd_ident rd) <> (rd_ms rd', rd_pid rd', rd_ident rd') ->
  let id := make_lease_id (rd_ms rd) (rd_pid rd) (rd_ident rd) in
  let id' := make_lease_id (rd_ms rd') (rd_pid rd') (rd_ident rd') in
  let r2 := exec env (do_POST cfg py req') (final r1) (world r1) in
  id <> id' /\
  is_Some (leases (final r2) !! id) /\ is_Some (leases (final r2) !! id') /\
  leases (final r2) !! id = leases (final r1) !! id.
Proof.
  intros Hp Hp'. cbv zeta.
  destruct (acquire_run cfg py env req s w Hp) as (_ & Hf1 & _). cbv zeta in Hf1.
  set (r1 := exec env (do_POST cfg py req) s w) in *.
  destruct (acquire_run cfg py env req' (final r1) (world r1) Hp') as (_ & Hf2 & _).
  cbv zeta in Hf2.
  set (rd := readings env w) in *. set (rd' := readings env (world r1)) in *.
  set (id := make_lease_id (rd_ms rd) (rd_pid rd) (rd_ident rd)) in *.
  set (id' := make_lease_id (rd_ms rd') (rd_pid rd') (rd_ident rd')) in *.
  intros Hne.
  assert (Hid : id <> id').
  { intros E. apply make_lease_id_inj in E as (E1 & E2 & E3). apply Hne. congruence. }
  split; [exact Hid |].
  rewrite Hf2. unfold acquire_locked. cbn [leases with_leases with_last_zero_lease_time].
  rewrite lookup_insert_eq, lookup_insert_ne by congruence.
  rewrite Hf1. unfold acquire_locked. cbn [leases with_leases with_last_zero_lease_time].
  rewrite lookup_insert_eq.
  split; [eauto |]. split; [eauto |]. reflexivity.
Qed.

Lemma X9_distinct_ids_witness :
  make_lease_id 1700000000000 4242 140001 <> make_lease_id 1700000000003 4242 140001.
Proof.
  exact (proj1 (X9_distinct_ids default_config sample_python ticking_env
                  (sample_post "/lease/acquire") (sample_post "/lease/acquire")
                  (DaemonState_init 0) 1700000000000 eq_refl eq_refl
                  ltac:(vm_compute; discriminate))).
Defined.

(** ** Probes and polling loops are passive *)

Lemma launched_app (a b : list event) : launched (a ++ b) = launched a ++ launched b.
Proof. unfold launched. rewrite map_app, concat_app. reflexivity. Qed.

Lemma harmless_of_passive {W : Type} (env : forall B : Type, io B -> W -> B * W)
    {A : Type} (p : prog A) s w :
  respects unchanged passive p -> harmless s (exec env p s w).
Proof.
  intros Hp.
  assert (Hrefl : forall x, unchanged x x) by reflexivity.
  assert (Htrans : forall x y z, unchanged x y -> unchanged y z -> unchanged x z)
    by (unfold unchanged; congruence).
  pose proof (exec_respects env unchanged passive p s w Hrefl Htrans Hp) as [H1 H2].
  split; [exact H1 |].
  induction H2 as [|c cs Hc _ (I1 & I2 & I3 & I4 & I5 & I6 & I7)];
    [repeat split; reflexivity |].
  unfold launched, spawned, ran, signalled, posts, responses, starts in *. simpl.
  rewrite I1, I2, I3, I4, I5, I6, I7, !app_nil_r.
  destruct c as [D q b|s']; [| repeat split; reflexivity].
  destruct q; simpl in *; try contradiction; repeat split; try reflexivity.
  destruct Hc as [-> ->]. reflexivity.
Qed.

Section Passive.
Context (cfg : Config) (py : Python).

#[local] Hint Extern 1 (passive _ _) => (simpl; first [exact I | split; reflexivity]) : resp.
#[local] Hint Extern 1 (unchanged _ _) => reflexivity : resp.

Lemma passive_http_get u t : respects unchanged passive (_http_json py "GET" u None t).
Proof. apply respects_http_json. simpl. auto. Qed.

Lemma passive_tcp_port_open h p t : respects unchanged passive (_tcp_port_open h p t).
Proof. unfold _tcp_port_open. resp. Qed.

#[local] Hint Resolve passive_http_get passive_tcp_port_open : resp.

Lemma passive_stt_running : respects unchanged passive (_stt_running cfg py).
Proof. unfold _stt_running. resp. Qed.

Lemma passive_kokoro_running : respects unchanged passive (_kokoro_running cfg py).
Proof. unfold _kokoro_running. resp. Qed.

Lemma passive_ollama_running : respects unchanged passive (_ollama_running cfg py).
Proof. unfold _ollama_running. resp. Qed.

Lemma passive_wait_loop check n step :
  respects unchanged passive check -> respects unchanged passive (wait_loop check n step).
Proof.
  intros Hc. revert step. induction n as [|n IH]; intros step; cbn [wait_loop]; [exact I |].
  apply respects_bind; [exact Hc | intros [|]; [exact I |]].
  apply respects_bind; [apply respects_call; exact I | intros []; apply IH].
Qed.

Lemma passive_wait_ready check t :
  respects unchanged passive check -> respects unchanged passive (_wait_ready check t).
Proof.
  intros Hc. unfold _wait_ready.
  apply respects_bind; [apply respects_call; exact I | intros n].
  apply passive_wait_loop, Hc.
Qed.

#[local] Hint Resolve passive_stt_running passive_kokoro_running
  passive_ollama_running : resp.

Lemma passive_stt_ready_loop n : respects unchanged passive (stt_ready_loop cfg py n).
Proof. induction n as [|n IH]; cbn [stt_ready_loop]; unfold _tail; resp. Qed.

Lemma passive_docker_compose_cmd : respects unchanged passive _docker_compose_cmd.
Proof. unfold _docker_compose_cmd. resp. Qed.

Lemma passive_probe P D : In (P, D) (drivers cfg py) -> respects unchanged passive P.
Proof.
  intros [[= <- <-]|[[= <- <-]|[[= <- <-]|[]]]];
    [apply passive_stt_running | apply passive_kokoro_running | apply passive_ollama_running].
Qed.

End Passive.

(** ** Ensuring a service that is already there, or that cannot be started *)

Section Adopt.
Context (cfg : Config) (py : Python).
Context {W : Type} (env : forall B : Type, io B -> W -> B * W).

Lemma exec_probe_then {A : Type} (P : prog bool) (k : bool -> prog A) s w :
  respects unchanged passive P ->
  let rp := exec env P s w in
  forall b, outcome rp = inr b ->
  exec env (bind P k) s w =
    let r2 := exec env (k b) s (world rp) in
    mkRun (outcome r2) (final r2) (world r2) (events rp ++ events r2).
Proof.
  intros HP rp b Hb. rewrite exec_bind. cbv zeta. fold rp. rewrite Hb.
  destruct (harmless_of_passive env P s w HP) as [Hf _]. fold rp in Hf. rewrite Hf.
  reflexivity.
Qed.

(** X10.  Ensuring a service whose probe answers [true] does nothing more
    than the probe: the ensure function of STT, of TTS and of the model
    server returns at once, spawns no process, runs no command and leaves
    the state, the process handles and [ollama_managed] included, as it
    is. *)
Theorem X10_ensure_adopts_running (P : prog bool) (D : prog unit)
    (s : DaemonState) (w : W) :
  In (P, D) (drivers cfg py) ->
  outcome (exec env P s w) = inr true ->
  let r := exec env D s w in
  outcome r = inr tt /\ events r = events (exec env P s w) /\ harmless s r.
Proof.
  intros Hin Hup. cbv zeta.
  pose proof (passive_probe cfg py P D Hin) as HP.
  pose proof (harmless_of_passive env P s w HP) as Hh.
  assert (Hrun : forall k : bool -> prog unit, k true = Ret tt ->
            exec env (bind P k) s w =
            mkRun (inr tt) s (world (exec env P s w)) (events (exec env P s w) ++ [])).
  { intros k Hk. rewrite (exec_probe_then P k s w HP true Hup). cbv zeta. rewrite Hk.
    reflexivity. }
  assert (Hgoal : exec env D s w =
            mkRun (inr tt) s (world (exec env P s w)) (events (exec env P s w) ++ [])).
  { destruct Hin as [[= <- <-]|[[= <- <-]|[[= <- <-]|[]]]];
      [unfold _ensure_stt | unfold _ensure_kokoro | unfold _ensure_ollama_server];
      apply Hrun; reflexivity. }
  rewrite Hgoal. cbn [outcome events final]. rewrite app_nil_r.
  split; [reflexivity |]. split; [reflexivity |].
  destruct Hh as (_ & Hrest). split; [reflexivity | exact Hrest].
Qed.

(** X11.  With [OLLAMA_MANAGE_SERVER] off the daemon never starts a model
    server: when the probe answers [false] the ensure function raises after
    the probe, having spawned nothing and written nothing. *)
Theorem X11_unmanaged_server_not_started (s : DaemonState) (w : W) :
  OLLAMA_MANAGE_SERVER cfg = false ->
  outcome (exec env (_ollama_running cfg py) s w) = inr false ->
  let r := exec env (_ensure_ollama_server cfg py) s w in
  outcome r = inl (Exception "Ollama is not running and OLLAMA_MANAGE_SERVER=0") /\
  events r = events (exec env (_ollama_running cfg py) s w) /\ harmless s r.
Proof.
  intros Hoff Hdown. cbv zeta. unfold _ensure_ollama_server.
  rewrite (exec_probe_then _ _ s w (passive_ollama_running cfg py) false Hdown).
  cbv zeta. rewrite Hoff. cbn [negb exec outcome final world events]. rewrite app_nil_r.
  split; [reflexivity |]. split; [reflexivity |].
  destruct (harmless_of_passive env _ s w (passive_ollama_running cfg py)) as (_ & Hrest).
  split; [reflexivity | exact Hrest].
Qed.

End Adopt.

Lemma X10_ensure_adopts_running_witness :
  outcome (exec healthy_env (_ensure_ollama_server default_config sample_python)
             sample_state 100) = inr tt.
Proof.
  refine (proj1 (X10_ensure_adopts_running default_config sample_python healthy_env
                   (_ollama_running default_config sample_python)
                   (_ensure_ollama_server default_config sample_python)
                   sample_state 100 _ _)).
  - simpl. auto.
  - vm_compute. reflexivity.
Defined.

Lemma X11_unmanaged_server_not_started_witness :
  outcome (exec down_env
             (_ensure_ollama_server (with_manage false true default_config) sample_python)
             sample_state 100)
  = inl (Exception "Ollama is not running and OLLAMA_MANAGE_SERVER=0").
Proof.
  refine (proj1 (X11_unmanaged_server_not_started
                   (with_manage false true default_config) sample_python down_env
                   sample_state 100 eq_refl _)).
  vm_compute. reflexivity.
Defined.

(** ** Bringing the TTS service up *)

Section Kokoro.
Context (cfg : Config) (py : Python).
Context {W : Type} (env : forall B : Type, io B -> W -> B * W).

Lemma run_cmd_run cmd log t s w :
  let r := exec env (_run_cmd py cmd log t) s w in
  final r = s /\ ran (events r) = [cmd] /\ launched (events r) = [] /\
  signalled (events r) = [] /\
  outcome r = inr (match (env _ (SubprocessRun cmd log t) w).1 with
                   | inr rc => rc
                   | inl _ => 999
                   end).
Proof.
  unfold _run_cmd, _log, call_raising, call.
  cbn [bind try_except exec fst snd outcome final world events].
  destruct (env _ (SubprocessRun cmd log t) w) as [[e|rc] w1];
    cbn [bind try_except exec fst snd outcome final world events].
  - destruct (env unit (Log _) w1) as [[] w2]. cbn. auto.
  - cbn. auto.
Qed.

Lemma docker_compose_cmd_run s w :
  let r := exec env _docker_compose_cmd s w in
  harmless s r /\
  outcome r = inr (match env _ (Which "docker") w with
                   | (Some _, _) => Some ["docker"; "compose"]%string
                   | (None, w1) =>
                       match env _ (Which "docker-compose") w1 with
                       | (Some _, _) => Some ["docker-compose"%string]
                       | (None, _) => None
                       end
                   end).
Proof.
  cbv zeta. split; [apply harmless_of_passive, passive_docker_compose_cmd |].
  unfold _docker_compose_cmd, call.
  cbn [bind exec fst snd outcome final world events].
  destruct (env _ (Which "docker") w) as [[found|] w1]; cbn; [reflexivity |].
  destruct (env _ (Which "docker-compose") w1) as [[found|] w2]; reflexivity.
Qed.

(** X12.  When the TTS probe answers [false] the ensure function looks for
    an orchestrator, [docker] before [docker-compose].  Without one it
    raises and runs no command.  With one it runs [compose -f <file> up -d]
    once; a [subprocess.run] that raises counts as return code 999, and any
    code other than 0 makes the ensure function raise with that code right
    after reading the log, without probing again.  It spawns and signals no
    process and leaves the state as it is. *)
Theorem X12_kokoro_start_failures (s : DaemonState) (w : W) :
  let rp := exec env (_kokoro_running cfg py) s w in
  let rd := exec env _docker_compose_cmd s (world rp) in
  let r := exec env (_ensure_kokoro cfg py) s w in
  outcome rp = inr false ->
  (outcome rd = inr None ->
   outcome r = inl (Exception "docker not found (required for Kokoro compose)") /\
   events r = events rp ++ events rd /\ harmless s r) /\
  (forall dc, outcome rd = inr (Some dc) ->
   let ru := exec env (_run_cmd py (compose_up cfg dc) (DOCKER_LOG cfg) 90000)
               s (world rd) in
   final r = s /\ launched (events r) = [] /\ signalled (events r) = [] /\
   ran (events r) = [compose_up cfg dc] /\
   forall rc, outcome ru = inr rc -> rc <> 0 ->
     exists t,
       outcome r = inl (Exception ("docker compose up failed rc=" +:+ py_str_int rc
                                    +:+ newline +:+ t)) /\
       events r = events rp ++ events rd ++ events ru
                  ++ [Called (Tail (DOCKER_LOG cfg)) t]) /\
  (forall cmd log t s' w' e,
     (env _ (SubprocessRun cmd log t) w').1 = inl e ->
     outcome (exec env (_run_cmd py cmd log t) s' w') = inr 999) /\
  (is_Some (env _ (Which "docker") (world rp)).1 ->
   outcome rd = inr (Some ["docker"; "compose"]%string)).
Proof.
  cbv zeta. intros Hdown.
  unfold _ensure_kokoro.
  rewrite (exec_probe_then env _ _ s w (passive_kokoro_running cfg py) false Hdown).
  cbv zeta.
  destruct (harmless_of_passive env _ s w (passive_kokoro_running cfg py))
    as (_ & Hl & Hsp & Hr & Hs & Hpo & Hre & Hst).
  set (rp := exec env (_kokoro_running cfg py) s w) in *.
  rewrite exec_bind. cbv zeta.
  destruct (docker_compose_cmd_run s (world rp))
    as ((Hdf & Hdl & Hdsp & Hdr & Hds & Hdpo & Hdre & Hdst) & Hdo).
  set (rd := exec env _docker_compose_cmd s (world rp)) in *.
  assert (Hloop : forall w0,
    let rl := exec env (ok ← _wait_ready (_kokoro_running cfg py) (KOKORO_READY_TIMEOUT_S cfg);
                        if negb ok
                        then t ← _tail (DOCKER_LOG cfg);
                             Throw (Exception ("Kokoro not ready after "
                               +:+ str_seconds py (KOKORO_READY_TIMEOUT_S cfg)
                               +:+ "s" +:+ newline +:+ t))
                        else Ret tt) s w0 in
    harmless s rl).
  { intros w0. cbv zeta. apply harmless_of_passive.
    apply respects_bind;
      [apply passive_wait_ready, passive_kokoro_running | intros [|]; cbn [negb]; [exact I |]].
    unfold _tail. apply respects_bind; [apply respects_call; exact I | intros t; exact I]. }
  split; [| split; [| split]].
  - intros Hnone. rewrite Hnone. cbn [exec outcome final world events].
    rewrite app_nil_r. split; [reflexivity |]. split; [reflexivity |].
    unfold harmless. cbn [final events].
    rewrite !launched_app, !spawned_app, !ran_app, !signalled_app, !posts_app,
      !responses_app, !starts_app.
    rewrite Hl, Hsp, Hr, Hs, Hpo, Hre, Hst, Hdl, Hdsp, Hdr, Hds, Hdpo, Hdre, Hdst.
    rewrite Hdf. repeat split.
  - intros dc Hsome. rewrite Hsome. rewrite Hdf.
    rewrite exec_bind. cbv zeta.
    destruct (run_cmd_run (compose_up cfg dc) (DOCKER_LOG cfg) 90000 s (world rd))
      as (Huf & Hur & Hul & Hus & Huo).
    fold (compose_up cfg dc).
    set (ru := exec env (_run_cmd py (compose_up cfg dc) (DOCKER_LOG cfg) 90000)
                 s (world rd)) in *.
    rewrite Huo, Huf.
    set (rc := match (env _ (SubprocessRun (compose_up cfg dc) (DOCKER_LOG cfg) 90000)
                        (world rd)).1 with inr rc => rc | inl _ => 999 end) in *.
    destruct (rc =? 0) eqn:Hrc; cbn [negb].
    + destruct (Hloop (world ru)) as (Hlf & Hll & _ & Hlr & Hls & _). cbv zeta in *.
      cbn [outcome final world events].
      rewrite !launched_app, !ran_app, !signalled_app.
      rewrite Hl, Hr, Hs, Hdl, Hdr, Hds, Hul, Hur, Hus, Hll, Hlr, Hls, Hlf.
      repeat split; try reflexivity.
      intros rc' [= <-] Hne. apply Z.eqb_eq in Hrc. contradiction.
    + unfold _tail, call. cbn [bind exec outcome final world events].
      destruct (env _ (Tail (DOCKER_LOG cfg)) (world ru)) as [t w3].
      cbn [bind exec outcome final world events].
      rewrite !launched_app, !ran_app, !signalled_app.
      rewrite Hl, Hr, Hs, Hdl, Hdr, Hds, Hul, Hur, Hus.
      repeat split; try reflexivity.
      intros rc' [= <-] _. exists t. split; reflexivity.
  - intros cmd log t s' w' e He.
    destruct (run_cmd_run cmd log t s' w') as (_ & _ & _ & _ & Ho).
    rewrite Ho, He. reflexivity.
  - intros [x Hx]. rewrite Hdo.
    destruct (env _ (Which "docker") (world rp)) as [[found|] w1]; [reflexivity |].
    discriminate.
Qed.

End Kokoro.

Lemma X12_kokoro_start_failures_witness :
  outcome (exec bare_env (_ensure_kokoro default_config sample_python) sample_state 100)
  = inl (Exception "docker not found (required for Kokoro compose)") /\
  ran (events (exec failing_env (_ensure_kokoro default_config sample_python)
                 sample_state 100))
  = [compose_up default_config ["docker"; "compose"]%string].
Proof.
  split.
  - refine (proj1 (proj1 (X12_kokoro_start_failures default_config sample_python bare_env
                            sample_state 100 _) _)).
    + vm_compute. reflexivity.
    + vm_compute. reflexivity.
  - destruct (proj1 (proj2 (X12_kokoro_start_failures default_config sample_python
                              failing_env sample_state 100 eq_refl))
                ["docker"; "compose"]%string eq_refl) as (_ & _ & _ & H & _).
    exact H.
Defined.

(** ** Spawning a service *)

Lemma launched_cons c l : launched (c :: l) = launch_of c ++ launched l.
Proof. reflexivity. Qed.

Lemma spawned_cons c l : spawned (c :: l) = spawn_of c ++ spawned l.
Proof. reflexivity. Qed.

Lemma ran_cons c l : ran (c :: l) = command_of c ++ ran l.
Proof. reflexivity. Qed.

Lemma signalled_cons c l : signalled (c :: l) = signal_of c ++ signalled l.
Proof. reflexivity. Qed.

(** Step through a run, splitting on the answers that the code branches
    on. *)
Ltac run_cbn :=
  cbn [bind try_except exec fst snd outcome final world events app negb
       stt_proc ollama_proc ollama_managed
       with_stt_proc with_ollama_proc with_ollama_managed].

Ltac env_split env :=
  match goal with
  | |- context [env ?B ?q ?w] =>
      let a := fresh "a" in
      let w' := fresh "w" in
      destruct (env B q w) as [a w'];
      try match type of a with
          | sum _ _ => destruct a as [?|?]
          | option _ => destruct a as [?|]
          | unit => destruct a
          end
  end.

Ltac env_step env := first [progress run_cbn | env_split env].

(** Bring the observations of a run that ends in a harmless loop to normal
    form. *)
Ltac observe :=
  cbn [outcome final world events];
  rewrite ?launched_app, ?spawned_app, ?ran_app, ?signalled_app;
  rewrite ?launched_cons, ?spawned_cons, ?ran_cons, ?signalled_cons;
  cbn [launch_of spawn_of spawn_call command_of signal_of app length
       stt_proc ollama_proc ollama_managed
       with_stt_proc with_ollama_proc with_ollama_managed].

(** The side conditions at the end of a run of an ensure function. *)
Ltac spawn_leaf :=
  repeat match goal with
  | |- _ /\ _ => split
  | |- (_ <= _)%nat => simpl; lia
  | |- forall _, _ = _ \/ False -> _ => intros ? [<-|[]]
  | |- forall _, False -> _ => intros ? []
  | |- exists exe, _ = [exe; _] => eexists; reflexivity
  | |- ?x = ?x => reflexivity
  | |- true = true -> _ => intros _; right; discriminate
  | |- false = true -> _ => discriminate
  | |- ?a = true -> ?a = true \/ _ => intros ?; left; assumption
  | |- _ :: _ = [] -> _ => discriminate
  | |- [] = [] -> _ => intros _
  | |- [] <> [] -> _ => intros ?; contradiction
  | |- _ :: _ <> [] -> None = None \/ _ => intros _; left; reflexivity
  | |- _ :: _ <> [] -> Some _ = None \/ _ =>
      intros _; right; do 2 eexists; split;
      [reflexivity | apply in_or_app; right; simpl; eauto 20]
  end.

Section Spawn.
Context (cfg : Config) (py : Python).
Context {W : Type} (env : forall B : Type, io B -> W -> B * W).

Lemma ollama_wait_harmless s w :
  harmless s (exec env
    (ok ← _wait_ready (_ollama_running cfg py) (OLLAMA_READY_TIMEOUT_S cfg);
     if negb ok
     then t ← _tail (OLLAMA_LOG cfg);
          Throw (Exception ("Ollama not ready after "
                             +:+ str_seconds py (OLLAMA_READY_TIMEOUT_S cfg)
                             +:+ "s" +:+ newline +:+ t))
     else Ret tt) s w).
Proof.
  apply harmless_of_passive.
  apply respects_bind;
    [apply passive_wait_ready, passive_ollama_running | intros [|]; cbn [negb]; [exact I |]].
  unfold _tail. apply respects_bind; [apply respects_call; exact I | intros t; exact I].
Qed.

(** X13.  A run of [_ensure_ollama_server] spawns at most one process, with
    the command [<ollama> serve], and only when the state holds no handle or
    the child it holds has exited.  A process it has spawned is in
    [ollama_proc] with [ollama_managed] set when the run ends, also when the
    run ends in a timeout; [ollama_managed] is never set without a spawn.  A
    run that spawns nothing and finds no dead child leaves the state as it
    is. *)
Theorem X13_ollama_spawn (s : DaemonState) (w : W) :
  let r := exec env (_ensure_ollama_server cfg py) s w in
  (length (launched (events r)) <= 1)%nat /\
  (forall cmd, In cmd (launched (events r)) -> exists exe, cmd = [exe; "serve"%string]) /\
  ran (events r) = [] /\ signalled (events r) = [] /\
  (forall h, In h (spawned (events r)) ->
     ollama_proc (final r) = Some h /\ ollama_managed (final r) = true) /\
  (ollama_managed (final r) = true ->
   ollama_managed s = true \/ spawned (events r) <> []) /\
  (launched (events r) <> [] ->
   ollama_proc s = None \/
   exists h rc, ollama_proc s = Some h /\ In (Called (Poll h) (Some rc)) (events r)) /\
  (launched (events r) = [] -> final r = s).
Proof.
  cbv zeta. unfold _ensure_ollama_server.
  rewrite exec_bind. cbv zeta.
  destruct (harmless_of_passive env _ s w (passive_ollama_running cfg py))
    as (Hf & Hl & Hsp & Hr & Hs & _).
  set (rp := exec env (_ollama_running cfg py) s w) in *.
  destruct (outcome rp) as [e|[|]].
  - observe. rewrite Hl, Hsp, Hr, Hs, Hf. cbn. repeat split; auto; try lia; try tauto.
  - observe. rewrite app_nil_r, Hl, Hsp, Hr, Hs, Hf. cbn.
    repeat split; auto; try lia; try tauto.
  - rewrite Hf. destruct (negb (OLLAMA_MANAGE_SERVER cfg)).
    { observe. rewrite app_nil_r, Hl, Hsp, Hr, Hs. cbn.
      repeat split; auto; try lia; try tauto. }
    unfold read, modify, atomic, _popen_hidden, _log, attribute_error, call_raising, call.
    cbn [bind try_except exec fst snd outcome final world events app negb].
    destruct (ollama_proc s) as [h0|] eqn:Hp0.
    all: repeat first [progress rewrite Hp0 | env_step env].
    all: cbn [bind try_except exec fst snd outcome final world events app negb
              stt_proc ollama_proc ollama_managed
              with_stt_proc with_ollama_proc with_ollama_managed].
    all: try match goal with
         | |- context [exec env ?p ?s0 ?w0] =>
             destruct (ollama_wait_harmless s0 w0) as (H1 & H2 & H3 & H4 & H5 & _);
             observe; rewrite ?Hl, ?Hsp, ?Hr, ?Hs, ?H1, ?H2, ?H3, ?H4, ?H5
         end.
    all: try (observe; rewrite ?Hl, ?Hsp, ?Hr, ?Hs).
    all: cbn [app length In launched spawned ran signalled map concat].
    all: spawn_leaf.
Qed.

(** X14.  A run of [_ensure_stt] spawns at most one process, the STT server
    script under the daemon's interpreter, and only when the state holds no
    handle or the child it holds has exited.  A process it has spawned is in
    [stt_proc] when the run ends, also when the run ends in a timeout or
    because the child exited early, so that a later teardown can stop it.  A
    run that spawns nothing and finds no dead child leaves the state as it
    is. *)
Theorem X14_stt_spawn (s : DaemonState) (w : W) :
  let r := exec env (_ensure_stt cfg py) s w in
  (length (launched (events r)) <= 1)%nat /\
  (forall cmd, In cmd (launched (events r)) -> cmd = [PYTHON_EXE cfg; STT_SCRIPT cfg]) /\
  ran (events r) = [] /\ signalled (events r) = [] /\
  (forall h, In h (spawned (events r)) -> stt_proc (final r) = Some h) /\
  (launched (events r) <> [] ->
   stt_proc s = None \/
   exists h rc, stt_proc s = Some h /\ In (Called (Poll h) (Some rc)) (events r)) /\
  (launched (events r) = [] -> final r = s).
Proof.
  cbv zeta. unfold _ensure_stt.
  rewrite exec_bind. cbv zeta.
  destruct (harmless_of_passive env _ s w (passive_stt_running cfg py))
    as (Hf & Hl & Hsp & Hr & Hs & _).
  set (rp := exec env (_stt_running cfg py) s w) in *.
  destruct (outcome rp) as [e|[|]].
  - observe. rewrite Hl, Hsp, Hr, Hs, Hf. cbn. repeat split; auto; try lia; try tauto.
  - observe. rewrite app_nil_r, Hl, Hsp, Hr, Hs, Hf. cbn.
    repeat split; auto; try lia; try tauto.
  - rewrite Hf.
    unfold read, modify, atomic, _popen_hidden, _log, attribute_error, call_raising, call.
    run_cbn.
    destruct (stt_proc s) as [h0|] eqn:Hp0.
    all: repeat first [progress rewrite Hp0 | env_step env].
    all: run_cbn.
    all: try match goal with
         | |- context [exec env ?p ?s0 ?w0] =>
             destruct (harmless_of_passive env p s0 w0 (passive_stt_ready_loop cfg py _))
               as (H1 & H2 & H3 & H4 & H5 & _);
             observe; rewrite ?Hl, ?Hsp, ?Hr, ?Hs, ?H1, ?H2, ?H3, ?H4, ?H5
         end.
    all: try (observe; rewrite ?Hl, ?Hsp, ?Hr, ?Hs).
    all: cbn [app length In launched spawned ran signalled map concat].
    all: spawn_leaf.
Qed.

End Spawn.

(** ** Warming and unloading the model *)

Section Model.
Context (cfg : Config) (py : Python).
Context {W : Type} (env : forall B : Type, io B -> W -> B * W).

(** X15.  [_ollama_warm] sends one [POST] to the generate endpoint, with the
    model, an empty prompt, no streaming and the configured keep-alive, and
    waits up to [OLLAMA_WARM_TIMEOUT_S].  It returns when the answer has
    status 200, whatever its body; on any other status, and when the request
    does not go through (status 0), it raises.  It writes nothing. *)
Theorem X15_warm_outcome (m : string) (s : DaemonState) (w : W) :
  let q := Urlopen "POST" (OLLAMA_GENERATE_URL cfg)
             (Some (generate_payload m (VStr (OLLAMA_KEEP_ALIVE cfg))))
             (OLLAMA_WARM_TIMEOUT_S cfg) in
  let code := match (env _ q w).1 with
              | inl (Exception _) => 0
              | inl (HTTPError c _ _) => c
              | inr resp => match payload resp with Some _ => status resp | None => 0 end
              end in
  let r := exec env (_ollama_warm cfg py m) s w in
  final r = s /\
  events r = [Called q (env _ q w).1] /\
  (code = 200 -> outcome r = inr tt) /\
  (code <> 200 -> exists body,
     outcome r = inl (Exception ("ollama warm failed code=" +:+ py_str_int code
                                  +:+ " body=" +:+ repr_body py body))).
Proof.
  cbv zeta.
  unfold _ollama_warm, _http_json, call_raising, call, read_payload, loads.
  cbn [bind try_except exec].
  destruct (env _ (Urlopen "POST" (OLLAMA_GENERATE_URL cfg)
                     (Some (generate_payload m (VStr (OLLAMA_KEEP_ALIVE cfg))))
                     (OLLAMA_WARM_TIMEOUT_S cfg)) w)
    as [[[code msg [raw|]|msg]|[st [raw|]]] w1]; cbn [fst payload status].
  all: cbn [bind try_except exec is_empty_bytes negb payload status fst snd].
  all: try (destruct raw as [|b raw]; cbn [bind try_except exec is_empty_bytes negb payload status fst snd]).
  all: try (destruct (json_loads py _); cbn [bind try_except exec is_empty_bytes negb payload status fst snd]).
  all: try match goal with |- context [?c =? 200] =>
         destruct (c =? 200) eqn:Hc; cbn [bind try_except exec negb payload status fst snd];
         [apply Z.eqb_eq in Hc | apply Z.eqb_neq in Hc]
       end.
  all: cbn [outcome final events].
  all: split; [reflexivity |].
  all: split; [reflexivity |].
  all: split; [intros; first [reflexivity | congruence | discriminate]
              | intros; first [eexists; reflexivity | congruence]].
Qed.

(** X16.  [_ollama_unload] never raises and writes nothing.  With
    [OLLAMA_MANAGE_MODEL_UNLOAD] off it does nothing at all; otherwise it
    sends one [POST] to the generate endpoint with [keep_alive] 0 and a
    timeout of 15 s, and ignores the answer. *)
Theorem X16_unload (m : string) (s : DaemonState) (w : W) :
  let r := exec env (_ollama_unload cfg py m) s w in
  outcome r = inr tt /\ final r = s /\
  posts (events r) =
    (if OLLAMA_MANAGE_MODEL_UNLOAD cfg
     then [(OLLAMA_GENERATE_URL cfg, Some (generate_payload m (VInt 0)))]
     else []) /\
  (OLLAMA_MANAGE_MODEL_UNLOAD cfg = false -> events r = []) /\
  (OLLAMA_MANAGE_MODEL_UNLOAD cfg = true ->
   exists a,
     events r = [Called (Urlopen "POST" (OLLAMA_GENERATE_URL cfg)
                           (Some (generate_payload m (VInt 0))) 15000) a]).
Proof.
  cbv zeta. unfold _ollama_unload.
  destruct (OLLAMA_MANAGE_MODEL_UNLOAD cfg); cbn [negb];
    [| cbn; repeat split; auto; discriminate].
  unfold _http_json, call_raising, call, read_payload, loads.
  cbn [bind try_except exec].
  destruct (env _ (Urlopen "POST" (OLLAMA_GENERATE_URL cfg)
                     (Some (generate_payload m (VInt 0))) 15000) w)
    as [[[code msg [raw|]|msg]|[st [raw|]]] w1].
  all: cbn [bind try_except exec is_empty_bytes negb payload status fst snd].
  all: try (destruct raw as [|b raw]; cbn [bind try_except exec is_empty_bytes negb payload status fst snd]).
  all: try (destruct (json_loads py _); cbn [bind try_except exec is_empty_bytes negb payload status fst snd]).
  all: cbn [outcome final events].
  all: repeat split; try reflexivity; try discriminate; eauto.
Qed.

End Model.

(** ** Stopping a child *)

Section Stops.
Context (cfg : Config) (py : Python).
Context {W : Type} (env : forall B : Type, io B -> W -> B * W).

(** X17.  Stopping a child never raises and writes nothing.  The child is
    terminated and then waited for, for 4 s; it is killed only when
    [terminate] or [wait] raised, and then it is not waited for again; a
    [kill] that raises is ignored. *)
Theorem X17_stop_sequence (h : proc) (s : DaemonState) (w : W) :
  let r := exec env (stop_process h) s w in
  outcome r = inr tt /\ final r = s /\
  match env _ (Terminate h) w with
  | (inr u, w1) =>
      match env _ (Wait h 4000) w1 with
      | (inr u', _) =>
          events r = [Called (Terminate h) (inr u); Called (Wait h 4000) (inr u')]
      | (inl e, w2) =>
          events r = [Called (Terminate h) (inr u); Called (Wait h 4000) (inl e);
                      Called (Kill h) (env _ (Kill h) w2).1]
      end
  | (inl e, w1) =>
      events r = [Called (Terminate h) (inl e); Called (Kill h) (env _ (Kill h) w1).1]
  end.
Proof.
  cbv zeta. unfold stop_process, call_raising, call.
  cbn [bind try_except exec].
  destruct (env _ (Terminate h) w) as [[e|u] w1]; cbn [bind try_except exec].
  - destruct (env _ (Kill h) w1) as [[e'|[]] w2]; cbn; repeat split; reflexivity.
  - destruct (env _ (Wait h 4000) w1) as [[e|u'] w2]; cbn [bind try_except exec].
    + destruct (env _ (Kill h) w2) as [[e'|[]] w3]; cbn; repeat split; reflexivity.
    + destruct u, u'. cbn. repeat split; reflexivity.
Qed.

Lemma stop_stt_events s w :
  stt_proc s = None ->
  let r := exec env _stop_stt s w in
  final r = s /\ events r = [Wrote s; Wrote s].
Proof.
  intros Hn. unfold _stop_stt, read, modify, atomic.
  cbn [bind exec fst snd outcome final world events]. rewrite Hn.
  assert (Hs : with_stt_proc None s = s)
    by (destruct s; cbn in *; subst; reflexivity).
  rewrite Hs. cbn. auto.
Qed.

(** X18.  The stops can be repeated.  After [_stop_stt] the state holds no
    STT handle, and after [_stop_ollama] [ollama_managed] is clear; a second
    [_stop_stt], and a [_stop_ollama] on a state with [ollama_managed]
    clear, makes no call at all and leaves the state as it is, whatever
    [ollama_proc] holds. *)
Theorem X18_stops_repeat (s : DaemonState) (w : W) :
  let r1 := exec env _stop_stt s w in
  let r2 := exec env _stop_stt (final r1) (world r1) in
  let o1 := exec env _stop_ollama s w in
  let o2 := exec env _stop_ollama (final o1) (world o1) in
  (stt_proc (final r1) = None /\ final r2 = final r1 /\
   events r2 = [Wrote (final r1); Wrote (final r1)]) /\
  (ollama_managed (final o1) = false /\ final o2 = final o1 /\
   events o2 = [Wrote (final o1)]) /\
  (ollama_managed s = false -> final o1 = s /\ events o1 = [Wrote s]).
Proof.
  cbv zeta.
  destruct (stop_stt_run env s w) as (_ & Hf1 & _).
  destruct (stop_ollama_final env s w) as (Hm & _ & Hun).
  split; [| split].
  - assert (Hn : stt_proc (final (exec env _stop_stt s w)) = None)
      by (rewrite Hf1; reflexivity).
    split; [exact Hn |]. apply stop_stt_events, Hn.
  - split; [exact Hm |].
    destruct (stop_ollama_final env (final (exec env _stop_ollama s w))
                (world (exec env _stop_ollama s w))) as (_ & _ & H).
    apply H, Hm.
  - exact Hun.
Qed.

Lemma reaper_after_shutdown n s w :
  shutdown_flag s = true ->
  let r := exec env (_reaper_thread cfg py n) s w in
  outcome r = inr tt /\ final r = s /\ forall c, In c (events r) -> c = Wrote s.
Proof.
  intros Hflag. destruct n as [|n]; cbn [_reaper_thread].
  - cbn. repeat split; auto. intros c [].
  - unfold read, atomic. cbn [bind exec fst snd outcome final world events].
    rewrite Hflag. cbn. repeat split; auto. intros c [<-|[]]. reflexivity.
Qed.

Lemma shutdown_final s w :
  let r := exec env (_shutdown cfg py) s w in
  stt_proc (final r) = None /\ ollama_managed (final r) = false.
Proof.
  cbv zeta. unfold _shutdown, modify, atomic.
  cbn [bind exec fst snd outcome final world events].
  set (s0 := with_shutdown_flag true s).
  rewrite exec_bind. cbv zeta.
  assert (Hu : forall w0,
    let r := exec env (m ← read warm_model;
                       if truthy_str m
                       then _ollama_unload cfg py (default EmptyString m)
                       else Ret tt) s0 w0 in
    outcome r = inr tt /\ final r = s0).
  { intros w0. unfold read, atomic.
    cbn [bind exec fst snd outcome final world events].
    pose proof (unload_run cfg py env (warm_model s0) s0 w0) as (Ho & Hf & _).
    cbv zeta in *. auto. }
  rewrite exec_swallow_ok by apply Hu.
  destruct (Hu w) as (Ho0 & Hf0). cbv zeta in *.
  destruct (exec env (m ← read warm_model;
                      if truthy_str m
                      then _ollama_unload cfg py (default EmptyString m)
                      else Ret tt) s0 w) as [o0 f0 w0 ev0].
  cbn [outcome final world events] in *. subst o0 f0.
  rewrite exec_bind. cbv zeta.
  rewrite exec_swallow_ok by apply stop_stt_run.
  pose proof (stop_stt_run env s0 w0) as (Ho1 & Hf1 & _).
  destruct (exec env _stop_stt s0 w0) as [o1 f1 w1 ev1].
  cbn [outcome final world events] in *. subst o1 f1.
  rewrite exec_bind. cbv zeta.
  rewrite exec_swallow_ok by apply stop_kokoro_run.
  pose proof (stop_kokoro_run cfg py env (with_stt_proc None s0) w1) as (Ho2 & Hf2 & _).
  destruct (exec env (_stop_kokoro cfg py) (with_stt_proc None s0) w1)
    as [o2 f2 w2 ev2].
  cbn [outcome final world events] in *. subst o2 f2.
  rewrite exec_swallow_ok by apply stop_ollama_run.
  pose proof (stop_ollama_run env (with_stt_proc None s0) w2) as (_ & _ & Hstt & _).
  pose proof (stop_ollama_final env (with_stt_proc None s0) w2) as (Hm & _).
  cbv zeta in *.
  destruct (exec env _stop_ollama (with_stt_proc None s0) w2) as [o3 f3 w3 ev3].
  cbn [outcome final world events] in *.
  split; [rewrite Hstt; reflexivity | exact Hm].
Qed.

(** X19.  [_shutdown] never raises.  It sets [shutdown_flag] and leaves the
    state with no STT handle and [ollama_managed] clear.  From then on the
    reaper loop ends at its next test of the flag without another tick, and
    a second [_shutdown] (the exit hook after the signal handler) signals no
    process. *)
Theorem X19_shutdown (n : nat) (s : DaemonState) (w w' : W) :
  let r := exec env (_shutdown cfg py) s w in
  let rt := exec env (_reaper_thread cfg py n) (final r) w' in
  let r2 := exec env (_shutdown cfg py) (final r) w' in
  outcome r = inr tt /\ shutdown_flag (final r) = true /\
  stt_proc (final r) = None /\ ollama_managed (final r) = false /\
  (outcome rt = inr tt /\ final rt = final r /\
   forall c, In c (events rt) -> c = Wrote (final r)) /\
  signalled (events r2) = [].
Proof.
  cbv zeta.
  destruct (shutdown_run cfg py env s w) as (Ho & Hflag & _).
  destruct (shutdown_final s w) as (Hstt & Hm). cbv zeta in *.
  split; [exact Ho |]. split; [exact Hflag |]. split; [exact Hstt |]. split; [exact Hm |].
  split; [apply reaper_after_shutdown, Hflag |].
  destruct (shutdown_run cfg py env (final (exec env (_shutdown cfg py) s w)) w')
    as (_ & _ & Hs & _). cbv zeta in Hs.
  apply nothing_in_list. intros p Hp.
  destruct (Hs p Hp) as [H|[H _]]; congruence.
Qed.

End Stops.

(** ** Polling with back-off *)

Lemma sleeps_app (a b : list event) : sleeps (a ++ b) = sleeps a ++ sleeps b.
Proof. unfold sleeps. rewrite map_app, concat_app. reflexivity. Qed.

Lemma backoff_bounds (step : Q) :
  (0.15 <= step <= 0.8)%Q ->
  (step <= Qmin (step * 1.25) 0.8)%Q /\ (0.15 <= Qmin (step * 1.25) 0.8 <= 0.8)%Q.
Proof.
  intros [H1 H2].
  assert (H3 : (step <= step * 1.25)%Q) by lra.
  split; [apply Q.min_glb; assumption |].
  split; [apply Q.min_glb; lra | apply Q.le_min_r].
Qed.

Section Polling.
Context {W : Type} (env : forall B : Type, io B -> W -> B * W).

Lemma no_sleep_run {A : Type} (p : prog A) s w :
  respects any_write no_sleep p -> sleeps (events (exec env p s w)) = [].
Proof.
  intros Hp.
  destruct (exec_respects env any_write no_sleep p s w) as [_ H];
    [exact (fun _ => I) | exact (fun _ _ _ _ _ => I) | exact Hp |].
  induction H as [|c cs Hc _ IH]; [reflexivity |].
  unfold sleeps in *. simpl. rewrite IH, app_nil_r.
  destruct c as [D q b|s']; [| reflexivity]. destruct q; simpl in *; tauto.
Qed.

Lemma wait_loop_sleeps (check : prog bool) :
  respects any_write no_sleep check ->
  forall n step s w,
    (0.15 <= step <= 0.8)%Q ->
    let r := exec env (wait_loop check n step) s w in
    Forall (fun q => step <= q <= 0.8)%Q (sleeps (events r)) /\
    nondecreasing (sleeps (events r)) /\
    (length (sleeps (events r)) <= n)%nat /\
    (outcome r = inr false -> length (sleeps (events r)) = n) /\
    (outcome r = inr true -> (length (sleeps (events r)) < n)%nat).
Proof.
  intros Hc. induction n as [|n IH]; intros step s w Hstep; cbn [wait_loop].
  - cbn. repeat split; auto; try discriminate; try constructor.
  - cbv zeta. rewrite exec_bind. cbv zeta.
    pose proof (no_sleep_run check s w Hc) as Hnone.
    destruct (exec env check s w) as [[e|[|]] s1 w1 ev1];
      cbn [outcome final world events] in *.
    + rewrite Hnone. cbn. repeat split; auto; try lia; try discriminate; try constructor.
    + rewrite sleeps_app, Hnone. cbn.
      repeat split; auto; try lia; try discriminate; try constructor.
    + unfold call. cbn [bind exec].
      destruct (env unit (Sleep step) w1) as [[] w2].
      destruct (backoff_bounds step Hstep) as [Hle Hstep'].
      specialize (IH (Qmin (step * 1.25) 0.8) s1 w2 Hstep'). cbv zeta in IH.
      destruct IH as (I1 & I2 & I3 & I4 & I5).
      cbn [outcome final world events].
      rewrite sleeps_app, Hnone. cbn [app].
      change (sleeps (Called (Sleep step) tt :: ?l)) with (step :: sleeps l).
      set (l := sleeps (events (exec env (wait_loop check n (Qmin (step * 1.25) 0.8)) s1 w2)))
        in *.
      split; [| split; [| split; [| split]]].
      * constructor; [split; [apply Qle_refl | apply Hstep] |].
        eapply Forall_impl; [exact I1 |]. intros q [Hq1 Hq2].
        split; [eapply Qle_trans; eauto | exact Hq2].
      * destruct l as [|b l']; [exact I |]. split; [| exact I2].
        apply Forall_inv in I1. eapply Qle_trans; [exact Hle | apply I1].
      * simpl. lia.
      * intros Ho. simpl. f_equal. auto.
      * intros Ho. simpl. specialize (I5 Ho). lia.
Qed.

(** X20.  [_wait_ready] polls with a bounded back-off.  Whatever the check
    is, as long as it does not sleep itself: every sleep between two checks
    lasts between 0.15 s and 0.8 s, no sleep is shorter than the one before,
    and there are at most as many sleeps as the deadline allows turns.  A
    [False] result means that every turn was used; a [True] result comes
    before the turns are used up. *)
Theorem X20_wait_ready_backoff (check : prog bool) (t : Z) (s : DaemonState) (w : W) :
  respects any_write no_sleep check ->
  let n := (env _ (BeforeDeadline t) w).1 in
  let r := exec env (_wait_ready check t) s w in
  Forall (fun q => 0.15 <= q <= 0.8)%Q (sleeps (events r)) /\
  nondecreasing (sleeps (events r)) /\
  (length (sleeps (events r)) <= n)%nat /\
  (outcome r = inr false -> length (sleeps (events r)) = n) /\
  (outcome r = inr true -> (length (sleeps (events r)) < n)%nat).
Proof.
  intros Hc. cbv zeta. unfold _wait_ready, call. cbn [bind exec].
  destruct (env nat (BeforeDeadline t) w) as [n w1]. cbn [fst].
  assert (H0 : (0.15 <= 0.15 <= 0.8)%Q) by (split; [apply Qle_refl | lra]).
  pose proof (wait_loop_sleeps check Hc n 0.15%Q s w1 H0) as H. cbv zeta in H.
  cbn [outcome final world events].
  change (sleeps (Called (BeforeDeadline t) n :: ?l)) with (sleeps l).
  exact H.
Qed.

End Polling.

Lemma X20_wait_ready_backoff_witness :
  outcome (exec down_env
             (_wait_ready (_ollama_running default_config sample_python) 30000)
             sample_state 100) = inr false /\
  length (sleeps (events (exec down_env
             (_wait_ready (_ollama_running default_config sample_python) 30000)
             sample_state 100))) = 2%nat.
Proof.
  assert (Hc : respects any_write no_sleep (_ollama_running default_config sample_python)).
  { apply respects_ollama_running. intros u t. exact I. }
  assert (Ho : outcome (exec down_env
             (_wait_ready (_ollama_running default_config sample_python) 30000)
             sample_state 100) = inr false) by (vm_compute; reflexivity).
  split; [exact Ho |].
  destruct (X20_wait_ready_backoff down_env
              (_ollama_running default_config sample_python) 30000 sample_state 100 Hc)
    as (_ & _ & _ & H & _).
  exact (H Ho).
Defined.

(** ** [ensuring] is never left set *)

Section Balanced.
Context (cfg : Config) (py : Python).

Lemma ensure_balanced_add s pool0 h h' t :
  holds_nothing t ->
  ensure_balanced (mkSystem s pool0 h) -> ensure_balanced (mkSystem s (pool0 ++ [t]) h').
Proof.
  intros Ht (holder & H1 & H2 & H3). simpl in *.
  exists holder. simpl. split; [exact H1 |]. split.
  - intros i Hi. destruct (H2 i Hi) as [x Hx]. exists x. apply lookup_app_l_Some, Hx.
  - intros i t' Hl. apply lookup_app_Some in Hl as [Hl|[Hge Hl]]; [apply H3, Hl |].
    case_decide as Hd.
    + destruct (H2 i Hd) as [x Hx]. apply lookup_lt_Some in Hx. lia.
    + destruct (i - length pool0)%nat; simpl in Hl; [congruence | discriminate].
Qed.

Lemma ensure_balanced_step sys sys' :
  sys_step cfg py sys sys' -> ensure_balanced sys -> ensure_balanced sys'.
Proof.
  intros Hstep Hinv.
  destruct Hstep as [sys req|sys req|sys|sys i kd B f k Hi|sys i kd B q k b Hi].
  - destruct sys. eapply ensure_balanced_add; [| exact Hinv].
    apply neutral_free, neutral_code.
  - destruct sys. eapply ensure_balanced_add; [| exact Hinv]. apply free_do_POST.
  - destruct sys. eapply ensure_balanced_add; [| exact Hinv].
    apply neutral_free, neutral_code.
  - destruct Hinv as (holder & H1 & H2 & H3).
    pose proof (H3 i _ Hi) as Hti.
    pose proof (lookup_lt_Some _ _ _ Hi) as Hlt.
    destruct (decide (holder = Some i)) as [Hh|Hh].
    + unfold holds_admission in Hti. simpl in Hti.
      destruct kd; try contradiction.
      destruct (Hti (shared sys)) as [[He Hk]|[He Hk]].
      * exists holder. simpl. split; [rewrite He; exact H1 |]. split.
        { intros j Hj. rewrite list_lookup_insert_is_Some. apply (H2 j Hj). }
        intros j t Hl. apply list_lookup_insert_Some in Hl as [(-> & <- & _)|[Hne Hl]].
        { rewrite decide_True by exact Hh. exact Hk. }
        apply H3, Hl.
      * exists None. simpl.
        split; [rewrite He; split; [intros [x Hx]; discriminate | discriminate] |].
        split; [discriminate |].
        intros j t Hl. apply list_lookup_insert_Some in Hl as [(-> & <- & _)|[Hne Hl]].
        { exact Hk. }
        specialize (H3 j t Hl). rewrite decide_False in H3 by congruence.
        exact H3.
    + unfold holds_nothing in Hti. simpl in Hti.
      assert (Hfree : kd <> Worker /\ free (Atomic f k))
        by (destruct kd; try contradiction; split; auto; discriminate).
      destruct Hfree as [Hkd Hfree].
      destruct (Hfree (shared sys)) as [[He Hk]|(He & He' & Hk)].
      * exists holder. simpl. split; [rewrite He; exact H1 |]. split.
        { intros j Hj. rewrite list_lookup_insert_is_Some. apply (H2 j Hj). }
        intros j t Hl. apply list_lookup_insert_Some in Hl as [(-> & <- & _)|[Hne Hl]].
        { rewrite decide_False by exact Hh. unfold holds_nothing. simpl.
          destruct kd; try congruence; exact Hk. }
        apply H3, Hl.
      * assert (Hnone : holder = None).
        { destruct holder as [h|]; [| reflexivity].
          rewrite (proj1 H1) in He by eauto. discriminate. }
        subst holder. exists (Some i). simpl.
        split; [split; [intros _; exact He' | eauto] |]. split.
        { intros j [= <-]. rewrite list_lookup_insert_is_Some. eauto. }
        intros j t Hl. apply list_lookup_insert_Some in Hl as [(-> & <- & _)|[Hne Hl]].
        { rewrite decide_True by reflexivity. unfold holds_admission. simpl.
          destruct kd; try congruence; exact Hk. }
        rewrite decide_False by congruence.
        specialize (H3 j t Hl). simpl in H3. exact H3.
  - destruct Hinv as (holder & H1 & H2 & H3).
    pose proof (H3 i _ Hi) as Hti.
    pose proof (lookup_lt_Some _ _ _ Hi) as Hlt.
    destruct (decide (holder = Some i)) as [Hh|Hh].
    + unfold holds_admission in Hti. simpl in Hti.
      destruct (decide (kd = Worker)) as [->|Hkd].
      * destruct Hti as [Hq Hk]. rewrite (started_none cfg py q Hq), app_nil_r.
        exists holder. simpl. split; [exact H1 |]. split.
        { intros j Hj. rewrite list_lookup_insert_is_Some. apply (H2 j Hj). }
        intros j t Hl. apply list_lookup_insert_Some in Hl as [(-> & <- & _)|[Hne Hl]].
        { rewrite decide_True by exact Hh. apply Hk. }
        apply H3, Hl.
      * assert (Hadm : admitted free (Call q k))
          by (destruct kd; first [congruence | exact Hti]).
        destruct Hadm as [Hq Hk]. destruct (started_one cfg py q Hq) as [m Hm]. rewrite Hm.
        exists (Some (length (pool sys))). simpl.
        split; [split; [intros _; apply H1; rewrite Hh; eauto | eauto] |]. split.
        { intros j [= <-]. rewrite lookup_app_r by (rewrite length_insert; lia).
          rewrite length_insert, Nat.sub_diag. simpl. eauto. }
        intros j t Hl. apply lookup_app_Some in Hl as [Hl|[Hge Hl]].
        { pose proof (lookup_lt_Some _ _ _ Hl) as Hj. rewrite length_insert in Hj.
          rewrite decide_False by (intros [= Hx]; lia).
          apply list_lookup_insert_Some in Hl as [(-> & <- & _)|[Hne Hl]].
          - unfold holds_nothing. simpl. destruct kd; try congruence; apply Hk.
          - specialize (H3 j t Hl). rewrite decide_False in H3 by congruence.
            exact H3. }
        rewrite length_insert in Hge, Hl.
        destruct (j - length (pool sys))%nat eqn:Hj; simpl in Hl; [| discriminate].
        injection Hl as <-. rewrite decide_True by (f_equal; lia).
        apply working_worker.
    + unfold holds_nothing in Hti. simpl in Hti.
      assert (Hfree : kd <> Worker /\ free (Call q k))
        by (destruct kd; try contradiction; split; auto; discriminate).
      destruct Hfree as [Hkd [Hq Hk]]. rewrite (started_none cfg py q Hq), app_nil_r.
      exists holder. simpl. split; [exact H1 |]. split.
      { intros j Hj. rewrite list_lookup_insert_is_Some. apply (H2 j Hj). }
      intros j t Hl. apply list_lookup_insert_Some in Hl as [(-> & <- & _)|[Hne Hl]].
      { rewrite decide_False by exact Hh. unfold holds_nothing. simpl.
        destruct kd; try congruence; apply Hk. }
      apply H3, Hl.
Qed.

Lemma ensure_balanced_reachable sys : reachable cfg py sys -> ensure_balanced sys.
Proof.
  intros (now & turns & Hrtc). revert sys Hrtc. apply rtc_ind_r.
  - exists None. simpl.
    split; [split; [intros [x Hx]; discriminate | discriminate] |].
    split; [discriminate |].
    intros [|i] t Hl; simpl in Hl; [| discriminate].
    injection Hl as <-. simpl. apply neutral_free, neutral_code.
  - intros y z _ Hstep IH. eapply ensure_balanced_step; eauto.
Qed.

(** X21.  [ensuring] is never left set with nothing in flight.  In every
    reachable state of the daemon in which [ensuring] is set, there is a
    worker thread that has not finished, or a handler whose next action is
    to start the worker; and when [ensuring] is clear there is neither.  So
    once the worker has ended, the next [/ensure] is admitted. *)
Theorem X21_ensuring_not_stuck (sys : system) :
  reachable cfg py sys ->
  (ensuring (shared sys) = true ->
   exists i t, pool sys !! i = Some t /\ (live_worker t \/ about_to_start t)) /\
  (ensuring (shared sys) = false ->
   forall i t, pool sys !! i = Some t -> ~ live_worker t /\ ~ about_to_start t).
Proof.
  intros Hreach.
  destruct (ensure_balanced_reachable sys Hreach) as (holder & H1 & H2 & H3).
  split.
  - intros He. apply H1 in He as [i Hi]. subst holder.
    destruct (H2 i eq_refl) as [t Ht]. exists i, t. split; [exact Ht |].
    specialize (H3 i t Ht). rewrite decide_True in H3 by reflexivity.
    unfold holds_admission in H3. unfold live_worker, about_to_start.
    destruct t as [kd code]. simpl in *.
    destruct kd.
    + right. split; [discriminate |]. destruct code; try contradiction. apply H3.
    + left. split; [reflexivity |]. destruct code; simpl in *; tauto.
    + right. split; [discriminate |]. destruct code; try contradiction. apply H3.
    + right. split; [discriminate |]. destruct code; try contradiction. apply H3.
  - intros He i t Ht.
    assert (Hnone : holder = None).
    { destruct holder as [h|]; [| reflexivity].
      rewrite (proj1 H1) in He by eauto. discriminate. }
    subst holder. specialize (H3 i t Ht). simpl in H3.
    unfold holds_nothing in H3. unfold live_worker, about_to_start.
    destruct t as [kd code]. simpl in *.
    destruct kd; split; try (intros [Hk _]; congruence); try tauto.
    all: intros [_ Hc]; destruct code; simpl in *; tauto.
Qed.

End Balanced.

Lemma X21_ensuring_not_stuck_witness :
  ~ live_worker (mkThread Reaper (_reaper_thread default_config sample_python 1)) /\
  ~ about_to_start (mkThread Reaper (_reaper_thread default_config sample_python 1)).
Proof.
  assert (Hr : reachable default_config sample_python
                 (boot default_config sample_python 0 1))
    by (exists 0, 1%nat; apply rtc_refl).
  exact (proj2 (X21_ensuring_not_stuck default_config sample_python _ Hr) eq_refl
           0%nat _ eq_refl).
Defined.

(** ** What handlers and workers leave alone *)

Lemma same_but_registry_refl s : same_but_registry s s.
Proof. unfold same_but_registry. tauto. Qed.

Lemma same_but_registry_trans s1 s2 s3 :
  same_but_registry s1 s2 -> same_but_registry s2 s3 -> same_but_registry s1 s3.
Proof. unfold same_but_registry. intuition congruence. Qed.

Lemma same_registry_and_flag_trans s1 s2 s3 :
  same_registry_and_flag s1 s2 -> same_registry_and_flag s2 s3 ->
  same_registry_and_flag s1 s3.
Proof. unfold same_registry_and_flag. intuition congruence. Qed.

Section ProbeCalls.
Context (cfg : Config) (py : Python).
Context (R : DaemonState -> DaemonState -> Prop) (C : forall B : Type, io B -> Prop).
Hypothesis C_probe_get : forall u t, C _ (Urlopen "GET" u None t).
Hypothesis C_connect : forall h p t, C _ (CreateConnection h p t).

#[local] Hint Resolve C_probe_get C_connect : resp.

Lemma probe_calls_tcp h p t : respects R C (_tcp_port_open h p t).
Proof. unfold _tcp_port_open. resp. Qed.

#[local] Hint Resolve probe_calls_tcp : resp.

Lemma probe_calls_stt : respects R C (_stt_running cfg py).
Proof. unfold _stt_running. resp. Qed.

Lemma probe_calls_kokoro : respects R C (_kokoro_running cfg py).
Proof. unfold _kokoro_running. resp. Qed.

Lemma probe_calls_ollama : respects R C (_ollama_running cfg py).
Proof. unfold _ollama_running. resp. Qed.

End ProbeCalls.

Section Handlers.
Context (cfg : Config) (py : Python).

#[local] Hint Extern 1 (handler_call _ _) =>
  (simpl; first [exact I | split; reflexivity]) : resp.
#[local] Hint Extern 1 (any_write _ _) => exact I : resp.
#[local] Hint Resolve probe_calls_stt probe_calls_kokoro probe_calls_ollama : resp.

Lemma handler_calls_get req : respects any_write handler_call (do_GET cfg py req).
Proof. unfold do_GET, _write_json. resp. Qed.

Lemma handler_calls_post req : respects any_write handler_call (do_POST cfg py req).
Proof. unfold do_POST, _write_json, _now, body_get. resp. Qed.

Lemma lease_handlers_frame req :
  path req <> "/ensure"%string ->
  respects same_but_registry no_start (do_POST cfg py req).
Proof.
  intros Hpath. apply String.eqb_neq in Hpath.
  assert (Hsame : forall s s', same_but_registry s s' -> same_but_registry s s') by auto.
  assert (Hacq : forall id body a b s, same_but_registry s (acquire_locked id body a b s))
    by (intros; unfold same_but_registry; cbn; tauto).
  assert (Hhb : forall id now s, same_but_registry s (heartbeat_locked id now s).2).
  { intros id now s. unfold heartbeat_locked.
    destruct (leases s !! id); unfold same_but_registry; cbn; tauto. }
  assert (Hrel : forall id now s, same_but_registry s (release_locked id now s)).
  { intros id now s. unfold release_locked.
    case_decide; unfold same_but_registry; cbn; tauto. }
  assert (Hcall : forall (B : Type) (q : io B), ~ is_start q -> no_start B q) by auto.
  unfold do_POST. rewrite Hpath. unfold _write_json, _now, body_get.
  repeat match goal with
         | |- respects _ _ (if ?b then _ else _) => destruct b
         | |- respects _ _ (match ?x with _ => _ end) => destruct x
         | |- respects _ _ (bind _ _) => apply respects_bind; [| intros ?]
         | |- respects _ _ (Ret _) => exact I
         | |- respects _ _ (Throw _) => exact I
         | |- respects _ _ (attribute_error _) => exact I
         | |- respects _ _ (call _) => apply respects_call; apply Hcall; simpl; tauto
         | |- respects _ _ (modify _) => apply respects_modify; intros ?; auto
         | |- respects _ _ (atomic _) => apply respects_atomic; intros ?; auto
         end.
Qed.

End Handlers.

Lemma calls_observed {W : Type} (env : forall B : Type, io B -> W -> B * W)
    (R : DaemonState -> DaemonState -> Prop) (C : forall B : Type, io B -> Prop)
    {A : Type} (p : prog A) s w :
  (forall x, R x x) -> (forall x y z, R x y -> R y z -> R x z) ->
  respects R C p ->
  let cs := events (exec env p s w) in
  ((forall B (q : io B), C B q -> ~ is_signal q) -> signalled cs = []) /\
  ((forall B (q : io B), C B q -> ~ is_run q) -> ran cs = []) /\
  ((forall B (q : io B), C B q -> ~ is_start q) -> starts cs = []) /\
  ((forall B (q : io B), C B q -> ~ is_response q) -> responses cs = []) /\
  ((forall B (q : io B), C B q -> ~ is_post q) -> posts cs = []) /\
  ((forall B (q : io B), C B q -> forall b, launch_of (Called q b) = []) ->
   launched cs = []).
Proof.
  intros Hrefl Htrans Hp cs.
  destruct (exec_respects env R C p s w Hrefl Htrans Hp) as [_ H]. fold cs in H.
  clearbody cs.
  repeat split; intros HC; induction H as [|c l Hc _ IH]; try reflexivity.
  - unfold signalled in *. simpl. rewrite IH, app_nil_r.
    destruct c as [D q b|s']; [| reflexivity].
    specialize (HC _ _ Hc). destruct q; simpl in *; tauto.
  - unfold ran in *. simpl. rewrite IH, app_nil_r.
    destruct c as [D q b|s']; [| reflexivity].
    specialize (HC _ _ Hc). destruct q; simpl in *; tauto.
  - unfold starts in *. simpl. rewrite IH, app_nil_r.
    destruct c as [D q b|s']; [| reflexivity].
    specialize (HC _ _ Hc). destruct q; simpl in *; tauto.
  - unfold responses in *. simpl. rewrite IH, app_nil_r.
    destruct c as [D q b|s']; [| reflexivity].
    specialize (HC _ _ Hc). destruct q; simpl in *; tauto.
  - unfold posts in *. simpl. rewrite IH, app_nil_r.
    destruct c as [D q b|s']; [| reflexivity].
    specialize (HC _ _ Hc). destruct q; simpl in *; try tauto.
    destruct (String.eqb method "POST") eqn:E; [| reflexivity].
    apply String.eqb_eq in E. contradiction.
  - unfold launched in *. simpl. rewrite IH, app_nil_r.
    destruct c as [D q b|s']; [| reflexivity]. apply (HC _ _ Hc).
Qed.

Section Harmless.
Context (cfg : Config) (py : Python).
Context {W : Type} (env : forall B : Type, io B -> W -> B * W).

(** X26.  Request handlers only read, probe and answer.  No [GET] and no
    [POST] spawns a process, signals one, runs a command or posts to the
    model server.  A [GET] writes nothing and starts no thread.  A [POST] on
    a path other than [/ensure] starts no thread and writes at most the
    lease map and [last_zero_lease_time]: [ensuring], [stage], [last_error],
    the process handles, [ollama_managed], the warm fields and
    [shutdown_flag] are as before. *)
Theorem X26_handlers_are_harmless (req : request) (s : DaemonState) (w : W) :
  let g := exec env (do_GET cfg py req) s w in
  let p := exec env (do_POST cfg py req) s w in
  (final g = s /\ starts (events g) = []) /\
  (launched (events g) = [] /\ ran (events g) = [] /\ signalled (events g) = [] /\
   posts (events g) = []) /\
  (launched (events p) = [] /\ ran (events p) = [] /\ signalled (events p) = [] /\
   posts (events p) = []) /\
  (path req <> "/ensure"%string ->
   starts (events p) = [] /\ same_but_registry s (final p)).
Proof.
  cbv zeta.
  assert (Hrefl : forall x, any_write x x) by (intros; exact I).
  assert (Htrans : forall x y z, any_write x y -> any_write y z -> any_write x z)
    by (intros; exact I).
  assert (Hsig : forall B (q : io B), handler_call B q -> ~ is_signal q)
    by (intros B q; destruct q; simpl; tauto).
  assert (Hrun : forall B (q : io B), handler_call B q -> ~ is_run q)
    by (intros B q; destruct q; simpl; tauto).
  assert (Hpost : forall B (q : io B), handler_call B q -> ~ is_post q).
  { intros B q; destruct q; simpl; try tauto. intros [-> _]. discriminate. }
  assert (Hlaunch : forall B (q : io B), handler_call B q ->
                      forall b, launch_of (Called q b) = [])
    by (intros B q; destruct q; simpl; tauto).
  split; [| split; [| split]].
  - split.
    + apply (exec_respects env unchanged any_call); [reflexivity | |].
      * unfold unchanged. congruence.
      * apply respects_do_GET; try reflexivity; intros; exact I.
    + destruct (calls_observed env unchanged no_start (do_GET cfg py req) s w)
        as (_ & _ & H & _); [reflexivity | unfold unchanged; congruence | |].
      * apply respects_do_GET; try reflexivity; unfold no_start; simpl; try tauto.
        intros B q [H _] _ _. exact H.
      * apply H. auto.
  - destruct (calls_observed env any_write handler_call (do_GET cfg py req) s w
                Hrefl Htrans (handler_calls_get cfg py req))
      as (H1 & H2 & _ & _ & H5 & H6).
    auto.
  - destruct (calls_observed env any_write handler_call (do_POST cfg py req) s w
                Hrefl Htrans (handler_calls_post cfg py req))
      as (H1 & H2 & _ & _ & H5 & H6).
    auto.
  - intros Hpath.
    pose proof (lease_handlers_frame cfg py req Hpath) as Hp.
    destruct (calls_observed env same_but_registry no_start (do_POST cfg py req) s w
                same_but_registry_refl same_but_registry_trans Hp) as (_ & _ & H & _).
    split; [apply H; auto |].
    apply (exec_respects env same_but_registry no_start);
      [apply same_but_registry_refl | apply same_but_registry_trans | exact Hp].
Qed.

(** X27.  An ensure never stops anything and never touches the leases.  A
    run of the worker terminates, waits for and kills no process, answers no
    client and starts no thread, and leaves the lease map,
    [last_zero_lease_time] and [shutdown_flag] as they are; it never
    raises. *)
Theorem X27_worker_stops_nothing (model : option string) (s : DaemonState) (w : W) :
  let r := exec env (worker cfg py model) s w in
  outcome r = inr tt /\
  signalled (events r) = [] /\ responses (events r) = [] /\ starts (events r) = [] /\
  same_registry_and_flag s (final r).
Proof.
  cbv zeta.
  assert (Hrefl : forall x, same_registry_and_flag x x)
    by (intros; unfold same_registry_and_flag; tauto).
  assert (Hw : respects same_registry_and_flag worker_call (worker cfg py model)).
  { apply respects_worker; try (intros; unfold same_registry_and_flag; cbn; tauto);
      try (intros; unfold worker_call; simpl; tauto).
    intros B q [H1 H2] _ H3. unfold worker_call. tauto. }
  destruct (calls_observed env same_registry_and_flag worker_call (worker cfg py model) s w
              Hrefl same_registry_and_flag_trans Hw) as (H1 & _ & H3 & H4 & _).
  split; [apply (worker_run cfg py env model s w) |].
  split; [apply H1; unfold worker_call; tauto |].
  split; [apply H4; unfold worker_call; tauto |].
  split; [apply H3; unfold worker_call; tauto |].
  apply (exec_respects env same_registry_and_flag worker_call);
    [exact Hrefl | apply same_registry_and_flag_trans | exact Hw].
Qed.

End Harmless.

(** ** The client of the daemon *)

Section ClientFacts.
Context (ccfg : ClientConfig) (cpy : ClientPython).
Context {W : Type} (env : forall B : Type, io B -> W -> B * W).

(** X22.  The client's [_http] never raises and touches nothing but the
    network.  Whatever goes wrong gives [(0, None)]: a refused connection or
    a timeout, a body that cannot be read or decoded, and also every answer
    with an HTTP error status, which [urlopen] raises, so a 404
    [unknown_lease] looks to the client like a daemon that is down.  An
    answer with an empty body gives the status paired with the tuple
    [(status, None)], not with [None]. *)
Theorem X22_client_http (method path : string) (body : option jv) (t : Z)
    (s : DaemonState) (w : W) :
  let q := Urlopen method (DAEMON_URL ccfg +:+ path) body t in
  let r := exec env (_http ccfg cpy method path body t) s w in
  final r = s /\ events r = [Called q (env _ q w).1] /\
  outcome r = inr
    match (env _ q w).1 with
    | inl _ => (0, BNone)
    | inr resp =>
        match payload resp with
        | None => (0, BNone)
        | Some [] => (status resp, BPair (status resp))
        | Some raw =>
            match c_loads cpy raw with
            | Some v => (status resp, BJson v)
            | None => (0, BNone)
            end
        end
    end.
Proof.
  cbv zeta. unfold _http, call_raising, call, read_payload.
  cbn [bind try_except exec].
  destruct (env _ (Urlopen method (DAEMON_URL ccfg +:+ path) body t) w)
    as [[e|[st [raw|]]] w1]; cbn [bind try_except exec fst snd payload status].
  - cbn. auto.
  - destruct raw as [|b raw]; cbn [bind try_except exec is_empty_bytes payload status].
    + cbn. auto.
    + destruct (c_loads cpy (b :: raw)); cbn; auto.
  - cbn. auto.
Qed.

(** X23.  What the client makes of a [/status] answer of the daemon.  With
    a non-empty [last_error] and [ensuring] false, [ensure_stack] raises with
    the stage, the error and the log directory.  Otherwise it returns when
    the three services are reported running, [ensuring] is false and, if a
    model was asked for, [warm.done] is true, whichever model the daemon
    reports as warmed; in every other case it polls again. *)
Theorem X23_client_reads_status (cfg : Config) (model : option string)
    (n : nat) (ens : bool) (stg : string) (err warm : option string)
    (done managed stt tts ollama : bool) :
  let body := BJson (cj_of_jv (status_body cfg n ens stg err warm done managed
                                 stt tts ollama)) in
  judge cpy model 200 body =
    if truthy_str err && negb ens
    then inl (Exception ("daemon ensure failed at stage=" +:+ stg
                          +:+ newline +:+ default EmptyString err
                          +:+ newline +:+ "logs=" +:+ LOG_DIR cfg))
    else inr (if stt && tts && ollama && (negb (truthy_str model) || done) && negb ens
              then Ready else Again).
Proof.
  cbv zeta. unfold judge, status_body. cbn [cj_of_jv map fst snd].
  cbn [Z.eqb Pos.eqb andb cbody_truthy cj_truthy].
  unfold judge_status. cbn [cbody_get cj_get fields_get String.eqb Ascii.eqb Bool.eqb].
  destruct err as [e|]; cbn [jv_of_option_string cj_of_jv cj_truthy truthy_str default].
  - destruct (String.eqb e EmptyString); cbn [negb andb];
      destruct ens; cbn [is_false negb andb];
      cbn [or_empty cj_truthy services_ready service_running cj_get fields_get
           String.eqb Ascii.eqb Bool.eqb];
      destruct stt, tts, ollama, (truthy_str model), done; reflexivity.
  - cbn [negb andb];
      destruct ens; cbn [is_false negb andb];
      cbn [or_empty cj_truthy services_ready service_running cj_get fields_get
           String.eqb Ascii.eqb Bool.eqb];
      destruct stt, tts, ollama, (truthy_str model), done; reflexivity.
Qed.

(** X24.  [ensure_stack] trusts only an answer with status 200 and a truthy
    body: anything else, the [(0, None)] of a failed request included, makes
    it poll again.  It reports the stack ready only on a body that is an
    object whose [ensuring] is [false] and whose [services] report [stt],
    [tts] and [ollama] running.  An answer with status 200 and an empty body
    makes it raise, because the body is then a tuple. *)
Theorem X24_client_judgement (model : option string) (code : Z) (body : cbody) :
  (code <> 200 \/ body = BNone -> judge cpy model code body = inr Again) /\
  (judge cpy model code body = inr Ready ->
   code = 200 /\
   exists fields sv,
     body = BJson (CObj fields) /\
     fields_get "ensuring" fields = CBool false /\
     or_empty (fields_get "services" fields) = CObj sv /\
     Forall (fun name => exists f, or_empty (fields_get name sv) = CObj f /\
                                   fields_get "running" f = CBool true)
            ["stt"; "tts"; "ollama"]%string) /\
  (forall st, exists e, judge cpy model 200 (BPair st) = inl e).
Proof.
  split; [| split].
  - intros [H|H]; unfold judge.
    + apply Z.eqb_neq in H. rewrite H. reflexivity.
    + rewrite H. cbn. rewrite andb_false_r. reflexivity.
  - unfold judge. destruct (code =? 200) eqn:Hc; cbn [andb]; [| discriminate].
    apply Z.eqb_eq in Hc. destruct (cbody_truthy body); [| discriminate].
    intros H. split; [exact Hc |].
    unfold judge_status in H.
    destruct body as [|v|st]; cbn [cbody_get] in H; try discriminate.
    destruct v as [| | | | | |fields]; cbn [cj_get] in H; try discriminate.
    exists fields.
    assert (Hrun : forall name sv,
              service_running name sv = inr true ->
              exists sf f, sv = CObj sf /\ or_empty (fields_get name sf) = CObj f /\
                           fields_get "running" f = CBool true).
    { intros name sv0 Hs. unfold service_running in Hs.
      destruct sv0 as [| | | | | |sf]; cbn [cj_get] in Hs; try discriminate.
      destruct (or_empty (fields_get name sf)) as [| | | | | |f] eqn:Ho;
        cbn [cj_get] in Hs; try discriminate.
      exists sf, f. split; [reflexivity |]. split; [exact Ho |].
      injection Hs as Hs. unfold is_true in Hs.
      destruct (fields_get "running" f) as [|[|]| | | | |]; try discriminate. reflexivity. }
    destruct (if cj_truthy (fields_get "last_error" fields)
              then inr (is_false (fields_get "ensuring" fields)) else inr false)
      as [e|[|]] eqn:H1; try discriminate.
    destruct (services_ready (or_empty (fields_get "services" fields)))
      as [e|ready] eqn:Hready; try discriminate.
    destruct (if truthy_str model
              then match cj_get "done" (or_empty (fields_get "warm" fields)) with
                   | inl e => inl e
                   | inr d => inr (is_true d)
                   end
              else inr true) as [e|wd] eqn:Hwd; try discriminate.
    destruct (ready && wd) eqn:Hrw; try discriminate.
    apply andb_true_iff in Hrw as [-> ->].
    destruct (is_false (fields_get "ensuring" fields)) eqn:Hens; try discriminate.
    unfold is_false in Hens.
    destruct (fields_get "ensuring" fields) as [|[|]| | | | |] eqn:He; try discriminate.
    unfold services_ready in Hready.
    destruct (service_running "stt" _) as [e|[|]] eqn:Hstt; try discriminate.
    destruct (service_running "tts" _) as [e|[|]] eqn:Htts; try discriminate.
    destruct (Hrun _ _ Hstt) as (sf & f1 & Hsv & Ho1 & Hr1).
    destruct (Hrun _ _ Htts) as (sf2 & f2 & Hsv2 & Ho2 & Hr2).
    destruct (Hrun _ _ Hready) as (sf3 & f3 & Hsv3 & Ho3 & Hr3).
    rewrite Hsv in Hsv2, Hsv3. injection Hsv2 as <-. injection Hsv3 as <-.
    exists sf. split; [reflexivity |]. split; [reflexivity |]. split; [exact Hsv |].
    repeat constructor; eauto.
  - intros st. unfold judge. cbn. eauto.
Qed.

Lemma daemon_wait_loop_run n s w :
  let probe := CreateConnection (DAEMON_HOST ccfg) (DAEMON_PORT ccfg) 150 in
  let r := exec env (daemon_wait_loop ccfg n) s w in
  final r = s /\ launched (events r) = [] /\
  (outcome r = inr tt -> exists pre, events r = pre ++ [Called probe (inr tt)]) /\
  (forall e, outcome r = inl e ->
     e = Exception "service daemon did not start (port not reachable)").
Proof.
  cbv zeta. revert s w. induction n as [|n IH]; intros s w; cbn [daemon_wait_loop].
  - cbn. repeat split; auto; [discriminate | intros e [= <-]; reflexivity].
  - unfold client_tcp_port_open, call_raising, call.
    cbn [bind try_except exec].
    destruct (env _ (CreateConnection (DAEMON_HOST ccfg) (DAEMON_PORT ccfg) 150) w)
      as [[e|[]] w1]; cbn [bind try_except exec].
    + destruct (env unit (Sleep 0.08%Q) w1) as [[] w2].
      destruct (IH s w2) as (I1 & I2 & I3 & I4).
      cbn [outcome final world events].
      rewrite !launched_cons, I2. cbn [launch_of app].
      split; [exact I1 |]. split; [reflexivity |]. split; [| exact I4].
      intros Ho. destruct (I3 Ho) as [pre Hpre]. rewrite Hpre.
      eexists (_ :: _ :: pre). reflexivity.
    + cbn. split; [reflexivity |]. split; [reflexivity |]. split; [| discriminate].
      intros _. exists []. reflexivity.
Qed.

(** X25.  [ensure_daemon_running] starts a daemon only when the port does
    not answer: if the first connection succeeds it does nothing else;
    otherwise it hands [python -m services.service_daemon] to [Popen] once
    and polls the port.  It returns only right after a connection that
    succeeded, and it never starts a second daemon in one call. *)
Theorem X25_daemon_started_once (s : DaemonState) (w : W) :
  let probe := CreateConnection (DAEMON_HOST ccfg) (DAEMON_PORT ccfg) 150 in
  let cmd := [CLIENT_PYTHON_EXE ccfg; "-m"; "services.service_daemon"]%string in
  let r := exec env (ensure_daemon_running ccfg) s w in
  final r = s /\
  match (env _ probe w).1 with
  | inr _ => outcome r = inr tt /\ events r = [Called probe (inr tt)]
  | inl _ => launched (events r) = [cmd]
  end /\
  (outcome r = inr tt -> exists pre, events r = pre ++ [Called probe (inr tt)]).
Proof.
  cbv zeta. unfold ensure_daemon_running, client_tcp_port_open, _spawn_daemon_hidden,
    call_raising, call.
  cbn [bind try_except exec].
  destruct (env _ (CreateConnection (DAEMON_HOST ccfg) (DAEMON_PORT ccfg) 150) w)
    as [[e|[]] w1]; cbn [bind try_except exec fst].
  - destruct (env _ (Popen _ "DEVNULL" "DEVNULL") w1) as [[e'|h] w2];
      cbn [bind try_except exec].
    + cbn. repeat split; auto; discriminate.
    + destruct (env nat (BeforeDeadline 4000) w2) as [n w3].
      destruct (daemon_wait_loop_run n s w3) as (I1 & I2 & I3 & I4). cbv zeta in *.
      cbn [outcome final world events].
      rewrite !launched_cons, I2. cbn [launch_of app].
      split; [exact I1 |]. split; [reflexivity |].
      intros Ho. destruct (I3 Ho) as [pre Hpre]. rewrite Hpre.
      eexists (_ :: _ :: _ :: pre). reflexivity.
  - cbn. split; [reflexivity |]. split; [auto |].
    intros _. exists []. reflexivity.
Qed.

End ClientFacts.

Lemma X25_daemon_started_once_witness :
  launched (events (exec down_env (ensure_daemon_running default_client) sample_state 100))
  = [["python"; "-m"; "services.service_daemon"]%string].
Proof.
  exact (proj1 (proj2 (X25_daemon_started_once default_client down_env
                         sample_state 100))).
Defined.
